(** * EMM Identification procedure (Identification.c) — shallow embedding

    The C functions of [Identification.c] are embedded as computations over
    an explicit [World]: the heap of EMM contexts and NAS procedures, the
    EMM context store [_emm_data], the MME_APP context index and the trace
    of calls made to the collaborators of the file (the EMM-SAP dispatcher,
    the NAS timers and the ITTI detach indication).  A computation either
    returns, or stops on a fatal condition (an [AssertFatal]/[DevAssert]
    that fails, or a load through a pointer that does not hold an object of
    the expected type). *)

From Stdlib Require Import ZArith List Bool Lia.
From stdpp Require Import base option list gmap.

Local Open Scope Z_scope.

(** ** Constants *)

(** Modelled from the spec: the return codes of [common_defs.h] (absent);
    the spec only needs "ok" and "error" to be different values. *)
Definition RETURNok : Z := 0.
Definition RETURNerror : Z := -1.

(** Modelled from the spec: "sentinel value denotes inactive"
    ([nas_timer.h] is absent). *)
Definition NAS_TIMER_INACTIVE_ID : Z := -1.

(** Modelled from the spec: "cause: illegal subscriber" ([emm_cause.h] is
    absent; 3 is the 3GPP TS 24.301 value of "Illegal UE"). *)
Definition EMM_CAUSE_ILLEGAL_UE : Z := 3.

(** The largest value of an [unsigned int], the type [nas_procedures.h]
    (absent) declares for the retransmission counter of an Identification
    procedure, and the increment of such a value, which wraps to 0 after
    [UINT_MAX]. *)
Definition UINT_MAX : Z := 4294967295.

Definition uint_incr (n : Z) : Z := (n + 1) mod (UINT_MAX + 1).
Arguments uint_incr : simpl never.

(** ** Data model *)

(** Pointers are addresses of heap objects; a C pointer that may be [NULL]
    is an [option ptr]. *)
Definition ptr := positive.

Definition mme_ue_s1ap_id_t := Z.
Definition imsi64_t := Z.

(** Digits of the identities carried by an IDENTITY RESPONSE. *)
Definition imsi_t := list Z.
Definition imei_t := list Z.
Definition imeisv_t := list Z.

(** Modelled from the spec: the registration states ([emm_fsm.h] is absent).
    The code names [EMM_DEREGISTERED] and [EMM_REGISTERED]; the first
    constructor is the value of a zero-initialised field. *)
Inductive emm_fsm_state_t :=
| EMM_INVALID
| EMM_DEREGISTERED
| EMM_REGISTERED
| EMM_DEREGISTERED_INITIATED
| EMM_COMMON_PROCEDURE_INITIATED.

(** The identity types, in the order of [_emm_identity_type_str]. *)
Inductive identity_type2_t :=
| IDENTITY_TYPE_2_NOT_AVAILABLE
| IDENTITY_TYPE_2_IMSI
| IDENTITY_TYPE_2_IMEI
| IDENTITY_TYPE_2_IMEISV
| IDENTITY_TYPE_2_TMSI.

(** Function pointers: the four callbacks this file installs, and the
    addresses of callbacks supplied by callers. *)
Inductive callback_t :=
| CB_identification_t3470_handler
| CB_identification_ll_failure
| CB_identification_non_delivered_ho
| CB_identification_abort
| CB_extern (addr : Z).

(** Modelled from the spec: "Timer Handle — holds an opaque identifier
    (sentinel value denotes inactive), the fire callback, and the callback
    argument". *)
Record nas_timer_t := mk_nas_timer {
  nas_timer_id : Z;
  nas_timer_cb : option callback_t;
  nas_timer_args : option ptr
}.

(** [nas_emm_ident_proc_t]; the nested base structs ([emm_com_proc],
    [emm_proc], [base_proc]) are flattened into one record. *)
Record nas_emm_ident_proc_t := mk_ident_proc {
  identity_type : identity_type2_t;
  retransmission_count : Z;
  ident_ue_id : mme_ue_s1ap_id_t;
  T3470 : nas_timer_t;
  parent : option ptr;
  nas_puid : Z;
  delivered : option callback_t;
  previous_emm_fsm_state : emm_fsm_state_t;
  not_delivered : option callback_t;
  not_delivered_ho : option callback_t;
  success_notif : option callback_t;
  failure_notif : option callback_t;
  abort : option callback_t;
  fail_in : option callback_t;
  time_out : option callback_t
}.

(** The fields of [nas_emm_specific_proc_t] that [Identification.c] uses. *)
Record nas_emm_specific_proc_t := mk_specific_proc {
  retry_timer : nas_timer_t;
  retry_cb : option callback_t;
  old_ue_id : mme_ue_s1ap_id_t
}.

(** Common procedures of the other types; only their presence matters. *)
Inductive emm_common_proc_type_t :=
| EMM_COMM_PROC_GUTI
| EMM_COMM_PROC_AUTH
| EMM_COMM_PROC_SMC
| EMM_COMM_PROC_INFO.

(** An object of the procedure heap, with its type discriminant. *)
Inductive nas_proc_t :=
| IdentProc (p : nas_emm_ident_proc_t)
| SpecificProc (p : nas_emm_specific_proc_t)
| OtherCommonProc (ty : emm_common_proc_type_t).

(** The fields of [emm_data_context_t] that [Identification.c] uses. *)
Record emm_data_context_t := mk_emm_ctx {
  ue_id : mme_ue_s1ap_id_t;
  _emm_fsm_state : emm_fsm_state_t;
  _security : Z;
  _imsi : option imsi_t;
  _imsi64 : imsi64_t;
  _imei : option imei_t;
  _imeisv : option imeisv_t;
  emm_cause : Z;
  emm_specific_proc : option ptr;
  emm_common_procs : list ptr
}.

(** The MME_APP UE context, as far as this file reads it. *)
Record ue_context_t := mk_ue_context {
  mme_ue_s1ap_id : mme_ue_s1ap_id_t
}.

(** Modelled from the spec: the Subscriber Context Store, "keyed lookup of
    subscriber state by transport-local identifier and by permanent
    identity" ([emm_data.h] is absent). *)
Record emm_data_t := mk_emm_data {
  ctx_coll_ue_id : gmap Z ptr;
  ctx_coll_imsi : gmap Z ptr
}.

(** ** EMM-SAP primitives ([emm_sap.h]) *)

Inductive emm_primitive_t :=
| EMMREG_COMMON_PROC_REQ
| EMMREG_COMMON_PROC_CNF
| EMMREG_COMMON_PROC_REJ
| EMMREG_COMMON_PROC_ABORT
| EMMREG_ATTACH_CNF
| EMMREG_ATTACH_REJ
| EMMREG_ATTACH_ABORT
| EMMREG_DETACH_INIT
| EMMREG_DETACH_REQ
| EMMREG_DETACH_FAILED
| EMMREG_DETACH_CNF
| EMMREG_TAU_REQ
| EMMREG_TAU_CNF
| EMMREG_TAU_REJ
| EMMREG_TAU_ABORT
| EMMREG_SERVICE_REQ
| EMMREG_SERVICE_CNF
| EMMREG_SERVICE_REJ
| EMMREG_LOWERLAYER_SUCCESS
| EMMREG_LOWERLAYER_FAILURE
| EMMREG_LOWERLAYER_RELEASE
| EMMREG_LOWERLAYER_NON_DELIVERY
| EMMAS_SECURITY_REQ
| EMMAS_SECURITY_IND
| EMMAS_SECURITY_RES
| EMMAS_SECURITY_REJ
| EMMAS_ESTABLISH_REQ
| EMMAS_ESTABLISH_CNF
| EMMAS_ESTABLISH_REJ
| EMMAS_RELEASE_REQ
| EMMAS_RELEASE_IND
| EMMAS_DATA_REQ
| EMMAS_DATA_IND
| EMMAS_PAGE_IND
| EMMAS_STATUS_IND
| EMMCN_AUTHENTICATION_PARAM_RES
| EMMCN_AUTHENTICATION_PARAM_FAIL
| EMMCN_CONTEXT_RES
| EMMCN_CONTEXT_FAIL
| EMMCN_DEREGISTER_UE
| EMMCN_IMPLICIT_DETACH_UE
| EMMCN_SMC_PROC_FAIL.

(** [emm_reg_t] with the [u.common] member of its union. *)
Record emm_reg_t := mk_emm_reg {
  reg_ue_id : mme_ue_s1ap_id_t;
  reg_ctx : option ptr;
  notify : bool;
  free_proc : bool;
  common_proc : option ptr;
  reg_previous_emm_fsm_state : emm_fsm_state_t
}.

Inductive emm_as_msg_type_t :=
| EMM_AS_MSG_TYPE_DEFAULT
| EMM_AS_MSG_TYPE_IDENT
| EMM_AS_MSG_TYPE_AUTH
| EMM_AS_MSG_TYPE_SMC.

(** What [emm_as_set_security_data] leaves in [sctx]. *)
Record emm_as_security_data_t := mk_security_data {
  sctx_security : Z;
  sctx_is_new : bool;
  sctx_is_ciphered : bool
}.

(** [emm_as_security_t], the [u.security] member of [emm_as_t]. *)
Record emm_as_security_t := mk_emm_as_security {
  puid : Z;
  guti : option Z;
  sec_ue_id : mme_ue_s1ap_id_t;
  msg_type : emm_as_msg_type_t;
  ident_type : identity_type2_t;
  sctx : emm_as_security_data_t
}.

(** [emm_cn_implicit_detach_ue_t]. *)
Record emm_cn_implicit_detach_t := mk_implicit_detach {
  detach_ue_id : mme_ue_s1ap_id_t;
  detach_emm_cause : Z;
  detach_type : Z
}.

(** The union [u] of [emm_sap_t]. *)
Inductive emm_sap_u :=
| emm_reg (r : emm_reg_t)
| emm_as (s : emm_as_security_t)
| emm_cn (c : emm_cn_implicit_detach_t).

Record emm_sap_t := mk_emm_sap {
  primitive : emm_primitive_t;
  u : emm_sap_u
}.

(** ** Calls to the collaborators, in the order they are made *)

Inductive event :=
| Ev_emm_sap_send (msg : emm_sap_t)
| Ev_nas_start_T3470 (ue : mme_ue_s1ap_id_t) (proc : ptr)
| Ev_nas_stop_T3470 (ue : mme_ue_s1ap_id_t) (proc : ptr)
| Ev_nas_start_T_retry_specific_procedure (ue : mme_ue_s1ap_id_t) (proc : ptr)
| Ev_nas_stop_T_retry_specific_procedure (ue : mme_ue_s1ap_id_t) (proc : ptr)
| Ev_nas_itti_esm_detach_ind (ue : mme_ue_s1ap_id_t) (clr : bool).

(** ** The world *)

Record World := mk_World {
  emm_contexts : gmap ptr emm_data_context_t;
  procs : gmap ptr nas_proc_t;
  _emm_data : emm_data_t;
  mme_ue_contexts : gmap Z ue_context_t;
  next_timer_id : N;
  next_puid : Z;
  trace : list event
}.

Definition set_emm_contexts (w : World) (m : gmap ptr emm_data_context_t) : World :=
  mk_World m (procs w) (_emm_data w) (mme_ue_contexts w)
           (next_timer_id w) (next_puid w) (trace w).

Definition set_procs (w : World) (m : gmap ptr nas_proc_t) : World :=
  mk_World (emm_contexts w) m (_emm_data w) (mme_ue_contexts w)
           (next_timer_id w) (next_puid w) (trace w).

Definition set_emm_data (w : World) (d : emm_data_t) : World :=
  mk_World (emm_contexts w) (procs w) d (mme_ue_contexts w)
           (next_timer_id w) (next_puid w) (trace w).

Definition set_next_timer_id (w : World) (n : N) : World :=
  mk_World (emm_contexts w) (procs w) (_emm_data w) (mme_ue_contexts w)
           n (next_puid w) (trace w).

Definition set_next_puid (w : World) (n : Z) : World :=
  mk_World (emm_contexts w) (procs w) (_emm_data w) (mme_ue_contexts w)
           (next_timer_id w) n (trace w).

Definition set_trace (w : World) (t : list event) : World :=
  mk_World (emm_contexts w) (procs w) (_emm_data w) (mme_ue_contexts w)
           (next_timer_id w) (next_puid w) t.

(** ** Computations *)

Inductive outcome (A : Type) :=
| Ret (a : A) (w : World)
| Fatal (w : World).
Arguments Ret {A} a w.
Arguments Fatal {A} w.

Definition M (A : Type) := World -> outcome A.

Definition ret {A} (a : A) : M A := fun w => Ret a w.

Definition bind {A B} (m : M A) (k : A -> M B) : M B :=
  fun w => match m w with
           | Ret a w' => k a w'
           | Fatal w' => Fatal w'
           end.

Definition fatal {A} : M A := fun w => Fatal w.

Notation "'let*' x ':=' m 'in' k" := (bind m (fun x => k))
  (at level 10, x name, m at level 100, k at level 200).

(** The world an outcome ends in. *)
Definition world_of {A} (o : outcome A) : World :=
  match o with Ret _ w => w | Fatal w => w end.

Definition returned {A} (o : outcome A) : option A :=
  match o with Ret a _ => Some a | Fatal _ => None end.

Definition get_world : M World := fun w => Ret w w.

Definition modify (f : World -> World) : M unit := fun w => Ret tt (f w).

Definition log (e : event) : M unit :=
  modify (fun w => set_trace w (trace w ++ [e])).

(** *** Loads and stores through pointers *)

Definition load_ctx (p : ptr) : M emm_data_context_t :=
  fun w => match emm_contexts w !! p with
           | Some c => Ret c w
           | None => Fatal w
           end.

Definition store_ctx (p : ptr) (c : emm_data_context_t) : M unit :=
  modify (fun w => set_emm_contexts w (<[p:=c]> (emm_contexts w))).

Definition upd_ctx (p : ptr) (f : emm_data_context_t -> emm_data_context_t) : M unit :=
  let* c := load_ctx p in store_ctx p (f c).

Definition load_ident (p : ptr) : M nas_emm_ident_proc_t :=
  fun w => match procs w !! p with
           | Some (IdentProc ip) => Ret ip w
           | _ => Fatal w
           end.

Definition store_ident (p : ptr) (ip : nas_emm_ident_proc_t) : M unit :=
  modify (fun w => set_procs w (<[p:=IdentProc ip]> (procs w))).

Definition upd_ident (p : ptr) (f : nas_emm_ident_proc_t -> nas_emm_ident_proc_t) : M unit :=
  let* ip := load_ident p in store_ident p (f ip).

(** The cast [(nas_emm_specific_proc_t* )] of a procedure pointer followed
    by an access: fatal on [NULL] and on an object of another type. *)
Definition load_specific (p : option ptr) : M (ptr * nas_emm_specific_proc_t) :=
  fun w => match p with
           | Some q => match procs w !! q with
                       | Some (SpecificProc sp) => Ret (q, sp) w
                       | _ => Fatal w
                       end
           | None => Fatal w
           end.

Definition store_specific (p : ptr) (sp : nas_emm_specific_proc_t) : M unit :=
  modify (fun w => set_procs w (<[p:=SpecificProc sp]> (procs w))).

Definition upd_specific (p : option ptr)
    (f : nas_emm_specific_proc_t -> nas_emm_specific_proc_t) : M unit :=
  let* r := load_specific p in store_specific (fst r) (f (snd r)).

(** *** Field updates *)

Definition set_timer_id (t : nas_timer_t) (i : Z) : nas_timer_t :=
  mk_nas_timer i (nas_timer_cb t) (nas_timer_args t).

Definition set_T3470 (p : nas_emm_ident_proc_t) (t : nas_timer_t) : nas_emm_ident_proc_t :=
  mk_ident_proc (identity_type p) (retransmission_count p) (ident_ue_id p) t
    (parent p) (nas_puid p) (delivered p) (previous_emm_fsm_state p)
    (not_delivered p) (not_delivered_ho p) (success_notif p) (failure_notif p)
    (abort p) (fail_in p) (time_out p).

Definition set_retransmission_count (p : nas_emm_ident_proc_t) (n : Z) : nas_emm_ident_proc_t :=
  mk_ident_proc (identity_type p) n (ident_ue_id p) (T3470 p)
    (parent p) (nas_puid p) (delivered p) (previous_emm_fsm_state p)
    (not_delivered p) (not_delivered_ho p) (success_notif p) (failure_notif p)
    (abort p) (fail_in p) (time_out p).

Definition set_retry_timer (sp : nas_emm_specific_proc_t) (t : nas_timer_t) : nas_emm_specific_proc_t :=
  mk_specific_proc t (retry_cb sp) (old_ue_id sp).

Definition set_old_ue_id (sp : nas_emm_specific_proc_t) (i : Z) : nas_emm_specific_proc_t :=
  mk_specific_proc (retry_timer sp) (retry_cb sp) i.

Definition set_emm_cause (c : emm_data_context_t) (cause : Z) : emm_data_context_t :=
  mk_emm_ctx (ue_id c) (_emm_fsm_state c) (_security c) (_imsi c) (_imsi64 c)
    (_imei c) (_imeisv c) cause (emm_specific_proc c) (emm_common_procs c).

Definition set_emm_common_procs (c : emm_data_context_t) (l : list ptr) : emm_data_context_t :=
  mk_emm_ctx (ue_id c) (_emm_fsm_state c) (_security c) (_imsi c) (_imsi64 c)
    (_imei c) (_imeisv c) (emm_cause c) (emm_specific_proc c) l.

Definition set_imsi (c : emm_data_context_t) (i : imsi_t) (i64 : imsi64_t) : emm_data_context_t :=
  mk_emm_ctx (ue_id c) (_emm_fsm_state c) (_security c) (Some i) i64
    (_imei c) (_imeisv c) (emm_cause c) (emm_specific_proc c) (emm_common_procs c).

Definition set_imei (c : emm_data_context_t) (i : imei_t) : emm_data_context_t :=
  mk_emm_ctx (ue_id c) (_emm_fsm_state c) (_security c) (_imsi c) (_imsi64 c)
    (Some i) (_imeisv c) (emm_cause c) (emm_specific_proc c) (emm_common_procs c).

Definition set_imeisv (c : emm_data_context_t) (i : imeisv_t) : emm_data_context_t :=
  mk_emm_ctx (ue_id c) (_emm_fsm_state c) (_security c) (_imsi c) (_imsi64 c)
    (_imei c) (Some i) (emm_cause c) (emm_specific_proc c) (emm_common_procs c).

(** ** The collaborators of [Identification.c] *)

(** Modelled from the spec: [emm_data_context_get] and
    [emm_data_context_get_by_imsi] ([emm_data_ctx.c] is absent), the two
    keyed lookups of the Subscriber Context Store. *)
Definition emm_data_context_get (id : mme_ue_s1ap_id_t) : M (option ptr) :=
  fun w => Ret (ctx_coll_ue_id (_emm_data w) !! id) w.

Definition emm_data_context_get_by_imsi (imsi64 : imsi64_t) : M (option ptr) :=
  fun w => Ret (ctx_coll_imsi (_emm_data w) !! imsi64) w.

(** Modelled from the spec: [mme_ue_context_exists_imsi] (MME_APP is
    absent), the lookup of "any subscriber-session context ... already bound
    to the same permanent identity". *)
Definition mme_ue_context_exists_imsi (imsi64 : imsi64_t) : M (option ue_context_t) :=
  fun w => Ret (mme_ue_contexts w !! imsi64) w.

(** Modelled from the spec: [emm_ctx_set_valid_imsi],
    [emm_ctx_set_valid_imei], [emm_ctx_set_valid_imeisv] ("commit the learned
    permanent identity onto the current subscriber context", "the learned
    identity (IMEI or IMEISV) is recorded on the subscriber context"). *)
Definition emm_ctx_set_valid_imsi (ctx : ptr) (imsi : imsi_t) (imsi64 : imsi64_t) : M unit :=
  upd_ctx ctx (fun c => set_imsi c imsi imsi64).

Definition emm_ctx_set_valid_imei (ctx : ptr) (imei : imei_t) : M unit :=
  upd_ctx ctx (fun c => set_imei c imei).

Definition emm_ctx_set_valid_imeisv (ctx : ptr) (imeisv : imeisv_t) : M unit :=
  upd_ctx ctx (fun c => set_imeisv c imeisv).

(** Modelled from the spec: [emm_data_context_upsert_imsi] ("index it in
    the context store by that identity"). *)
Definition emm_data_context_upsert_imsi (ctx : ptr) : M unit :=
  let* c := load_ctx ctx in
  modify (fun w => set_emm_data w
            (mk_emm_data (ctx_coll_ue_id (_emm_data w))
                         (<[_imsi64 c := ctx]> (ctx_coll_imsi (_emm_data w))))).

(** Modelled from the spec: [emm_fsm_get_state], "the registration state in
    effect at invocation". *)
Definition emm_fsm_get_state (ctx : ptr) : M emm_fsm_state_t :=
  let* c := load_ctx ctx in ret (_emm_fsm_state c).

(** Modelled from the spec: [emm_as_set_security_data], the "current
    security parameters" sent along with a request. *)
Definition emm_as_set_security_data (security : Z) (is_new is_ciphered : bool)
  : emm_as_security_data_t :=
  mk_security_data security is_new is_ciphered.

Definition is_ident_proc (o : option nas_proc_t) : bool :=
  match o with Some (IdentProc _) => true | _ => false end.

(** Modelled from the spec: [get_nas_common_procedure_identification]
    ([nas_procedures.c] is absent), which "looks up an existing unreleased
    procedure of [type] for [subscriber]". *)
Definition get_nas_common_procedure_identification (ctx : ptr) : M (option ptr) :=
  let* c := load_ctx ctx in
  fun w => Ret (find (fun q => is_ident_proc (procs w !! q)) (emm_common_procs c)) w.

(** The Identification procedure as allocated: counter 0, timer inactive,
    no handler. *)
Definition new_ident_proc (puid : Z) : nas_emm_ident_proc_t :=
  mk_ident_proc IDENTITY_TYPE_2_NOT_AVAILABLE 0 0
    (mk_nas_timer NAS_TIMER_INACTIVE_ID None None)
    None puid None EMM_INVALID None None None None None None None.

(** Modelled from the spec: [nas_new_identification_procedure], "if
    absent, allocates one"; the new object gets an address no live
    procedure has and is linked into the common procedures of the context. *)
Definition nas_new_identification_procedure (ctx : ptr) : M ptr :=
  let* c := load_ctx ctx in
  let* w := get_world in
  let q := fresh (dom (procs w)) in
  let* _ := modify (fun w => set_next_puid
                     (set_procs w (<[q:=IdentProc (new_ident_proc (next_puid w))]> (procs w)))
                     (next_puid w + 1)) in
  let* _ := store_ctx ctx (set_emm_common_procs c (q :: emm_common_procs c)) in
  ret q.

(** Modelled from the spec: [nas_delete_all_emm_procedures], which
    "releases all common procedures for the subscriber". *)
Definition nas_delete_all_emm_procedures (ctx : ptr) : M unit :=
  let* c := load_ctx ctx in
  let* _ := modify (fun w => set_procs w
                     (foldr (fun q m => delete q m) (procs w) (emm_common_procs c))) in
  store_ctx ctx (set_emm_common_procs c []).

(** Modelled from the spec: the Timer Service, which "arms a single-shot
    timer with an opaque payload and a fire callback; supports
    cancel-before-fire".  An armed handle holds an identifier of the
    service, which is never the sentinel. *)
Definition nas_timer_start : M Z :=
  fun w => Ret (Z.of_N (next_timer_id w)) (set_next_timer_id w (N.succ (next_timer_id w))).

(** Modelled from the spec: [nas_start_T3470] ([nas_timer.h] is absent),
    the timer is "armed by the procedure when a request is sent"; the
    handle is the field [T3470] of the procedure at [proc]. *)
Definition nas_start_T3470 (ue : mme_ue_s1ap_id_t) (proc : ptr)
    (cb : option callback_t) (args : option ptr) : M unit :=
  let* tid := nas_timer_start in
  let* _ := upd_ident proc (fun p => set_T3470 p (mk_nas_timer tid cb args)) in
  log (Ev_nas_start_T3470 ue proc).

(** Modelled from the spec: [nas_stop_T3470], the timer is "disarmed":
    the handle holds the sentinel afterwards. *)
Definition nas_stop_T3470 (ue : mme_ue_s1ap_id_t) (proc : ptr) : M unit :=
  let* _ := upd_ident proc (fun p => set_T3470 p (set_timer_id (T3470 p) NAS_TIMER_INACTIVE_ID)) in
  log (Ev_nas_stop_T3470 ue proc).

(** Modelled from the spec: [nas_start_T_retry_specific_procedure] and
    [nas_stop_T_retry_specific_procedure], the "short retry timer on the
    parent"; the handle is the field [retry_timer] of the specific procedure
    [proc] points to. *)
Definition nas_start_T_retry_specific_procedure (ue : mme_ue_s1ap_id_t)
    (proc : option ptr) (cb : option callback_t) (args : option ptr) : M unit :=
  let* r := load_specific proc in
  let* tid := nas_timer_start in
  let* _ := upd_specific proc (fun sp => set_retry_timer sp (mk_nas_timer tid cb args)) in
  log (Ev_nas_start_T_retry_specific_procedure ue (fst r)).

(** Modelled from the spec: see [nas_start_T_retry_specific_procedure]. *)
Definition nas_stop_T_retry_specific_procedure (ue : mme_ue_s1ap_id_t)
    (proc : option ptr) : M unit :=
  let* r := load_specific proc in
  let* _ := upd_specific proc (fun sp =>
              set_retry_timer sp (set_timer_id (retry_timer sp) NAS_TIMER_INACTIVE_ID)) in
  log (Ev_nas_stop_T_retry_specific_procedure ue (fst r)).

(** Modelled from the spec: [nas_itti_esm_detach_ind], the
    session-teardown / external-cleanup indication to the application
    layer. *)
Definition nas_itti_esm_detach_ind (ue : mme_ue_s1ap_id_t) (clr : bool) : M unit :=
  log (Ev_nas_itti_esm_detach_ind ue clr).

(** ** The primitives [Identification.c] builds *)

(** EMMAS_SECURITY_REQ carrying the IDENTITY REQUEST of procedure [p] for
    the context [c] (lines 507-518). *)
Definition identity_request_sap (p : nas_emm_ident_proc_t) (c : emm_data_context_t) : emm_sap_t :=
  mk_emm_sap EMMAS_SECURITY_REQ
    (emm_as (mk_emm_as_security (nas_puid p) None (ident_ue_id p)
               EMM_AS_MSG_TYPE_IDENT (identity_type p)
               (emm_as_set_security_data (_security c) false true))).

(** EMMREG_COMMON_PROC_REQ (lines 182-186); the other fields of the
    zero-initialised primitive stay zero. *)
Definition common_proc_req_sap (ue : mme_ue_s1ap_id_t) (ctx : ptr) : emm_sap_t :=
  mk_emm_sap EMMREG_COMMON_PROC_REQ
    (emm_reg (mk_emm_reg ue (Some ctx) false false None EMM_INVALID)).

(** EMMREG_COMMON_PROC_CNF (lines 284-290, 318-324, 357-363);
    [free_proc] is [true] at the three places. *)
Definition common_proc_cnf_sap (ue : mme_ue_s1ap_id_t) (ctx ident_proc : ptr)
    (notif : bool) (prev : emm_fsm_state_t) : emm_sap_t :=
  mk_emm_sap EMMREG_COMMON_PROC_CNF
    (emm_reg (mk_emm_reg ue (Some ctx) notif true (Some ident_proc) prev)).

(** EMMREG_COMMON_PROC_ABORT (lines 438-444). *)
Definition common_proc_abort_sap (ue : mme_ue_s1ap_id_t) (ctx ident_proc : ptr)
    (prev : emm_fsm_state_t) : emm_sap_t :=
  mk_emm_sap EMMREG_COMMON_PROC_ABORT
    (emm_reg (mk_emm_reg ue (Some ctx) false true (Some ident_proc) prev)).

(** EMMCN_IMPLICIT_DETACH_UE (lines 268-271 and 458-459). *)
Definition implicit_detach_sap (ue : mme_ue_s1ap_id_t) (cause type : Z) : emm_sap_t :=
  mk_emm_sap EMMCN_IMPLICIT_DETACH_UE (emm_cn (mk_implicit_detach ue cause type)).

(** ** [Identification.c] *)

Section Identification.

(** [IDENTIFICATION_COUNTER_MAX] ([nas_procedures.h] is absent): the
    configured maximum of the retransmission counter, a constant the counter
    is compared with as an [unsigned int]. *)
Variable IDENTIFICATION_COUNTER_MAX : Z.

(** The result code of [emm_sap_send] ([emm_sap.c] is absent), which the
    environment chooses from the calls made so far and the primitive. *)
Variable emm_sap_send_rc : list event -> emm_sap_t -> Z.

(** [imsi_to_imsi64] ([conversions.h] is absent). *)
Variable imsi_to_imsi64 : imsi_t -> imsi64_t.

(** Modelled from the spec: [emm_sap_send], the dispatcher "delivers" the
    primitive; what the receiving layer does with it is not part of this
    file, so the delivery is recorded and the result code is the
    environment's. *)
Definition emm_sap_send (msg : emm_sap_t) : M Z :=
  fun w => Ret (emm_sap_send_rc (trace w) msg)
               (set_trace w (trace w ++ [Ev_emm_sap_send msg])).

(** [_identification_request]: sends IDENTITY REQUEST and starts T3470. *)
Definition _identification_request (proc : ptr) : M Z :=
  let* p := load_ident proc in
  let* emm_ctx := emm_data_context_get (ident_ue_id p) in
  match emm_ctx with
  | None => ret RETURNerror
  | Some emm_ctx =>
      let* c := load_ctx emm_ctx in
      let* rc := emm_sap_send (identity_request_sap p c) in
      if negb (rc =? RETURNerror) then
        let* _ := nas_start_T3470 (ident_ue_id p) proc (time_out p) (Some emm_ctx) in
        ret rc
      else ret rc
  end.

(** The test of [emm_proc_identification] on the registration state. *)
Definition common_procedure_permitted (s : emm_fsm_state_t) : bool :=
  match s with
  | EMM_DEREGISTERED | EMM_REGISTERED => true
  | _ => false
  end.

(** The assignments of lines 162-174. *)
Definition init_ident_proc (p : nas_emm_ident_proc_t) (type : identity_type2_t)
    (ue : mme_ue_s1ap_id_t) (emm_proc : option ptr) (st : emm_fsm_state_t)
    (success failure : option callback_t) : nas_emm_ident_proc_t :=
  mk_ident_proc type 0 ue (T3470 p) emm_proc (nas_puid p)
    None st
    (Some CB_identification_ll_failure)
    (Some CB_identification_non_delivered_ho)
    success failure
    (Some CB_identification_abort)
    None
    (Some CB_identification_t3470_handler).

(** Lines 155-158: the Identification procedure of the context, allocated
    when there is none. *)
Definition get_or_new_identification_procedure (ctx : ptr) : M ptr :=
  let* found := get_nas_common_procedure_identification ctx in
  match found with
  | Some q => ret q
  | None => nas_new_identification_procedure ctx
  end.

(** Lines 162-189: the procedure is set up, the request is sent and, when
    that did not fail, EMM-REG is told that a common procedure began. *)
Definition identification_setup_and_send (ctx : ptr) (ue : mme_ue_s1ap_id_t)
    (ident_proc : ptr) (emm_proc : option ptr) (type : identity_type2_t)
    (success failure : option callback_t) : M Z :=
  let* st := emm_fsm_get_state ctx in
  let* _ := upd_ident ident_proc (fun p =>
              init_ident_proc p type ue emm_proc st success failure) in
  let* rc := _identification_request ident_proc in
  if negb (rc =? RETURNerror) then
    emm_sap_send (common_proc_req_sap ue ctx)
  else ret rc.

(** [emm_proc_identification]: initiates an identification procedure. *)
Definition emm_proc_identification (emm_context : option ptr) (emm_proc : option ptr)
    (type : identity_type2_t) (success failure : option callback_t) : M Z :=
  match emm_context with
  | None => ret RETURNerror
  | Some ctx =>
      let* c := load_ctx ctx in
      if common_procedure_permitted (_emm_fsm_state c) then
        let ue := ue_id c in
        let* ident_proc := get_or_new_identification_procedure ctx in
        identification_setup_and_send ctx ue ident_proc emm_proc type success failure
      else ret RETURNerror
  end.

(** The notification EMMREG_COMMON_PROC_CNF of
    [emm_proc_identification_complete]. *)
Definition common_proc_cnf (ue : mme_ue_s1ap_id_t) (emm_ctx ident_proc : ptr)
    (notif : bool) : M Z :=
  let* p := load_ident ident_proc in
  emm_sap_send (common_proc_cnf_sap ue emm_ctx ident_proc notif (previous_emm_fsm_state p)).

(** Lines 254-295: the IMSI is held by another EMM context. *)
Definition complete_emm_duplicate (ue : mme_ue_s1ap_id_t) (emm_ctx ident_proc : ptr)
    (imsi_emm_ctx_duplicate : ptr) : M Z :=
  let* c := load_ctx emm_ctx in
  let* p := load_ident ident_proc in
  let* _ := nas_stop_T_retry_specific_procedure (ue_id c) (parent p) in
  let* r := load_specific (parent p) in
  let* _ := nas_start_T_retry_specific_procedure (ue_id c) (parent p)
              (retry_cb (snd r)) (Some emm_ctx) in
  let* d := load_ctx imsi_emm_ctx_duplicate in
  let* _ := upd_specific (parent p) (fun sp => set_old_ue_id sp (ue_id d)) in
  let* _ := upd_ctx imsi_emm_ctx_duplicate (fun d => set_emm_cause d EMM_CAUSE_ILLEGAL_UE) in
  let* d := load_ctx imsi_emm_ctx_duplicate in
  let* _ := emm_sap_send (implicit_detach_sap (ue_id d) (emm_cause d) 0) in
  let* _ := common_proc_cnf ue emm_ctx ident_proc false in
  ret RETURNok.

(** Lines 301-327: the IMSI is held by another MME_APP UE context. *)
Definition complete_mme_app_duplicate (ue : mme_ue_s1ap_id_t) (emm_ctx ident_proc : ptr)
    (ue_context_duplicate_imsi : ue_context_t) : M Z :=
  let* c := load_ctx emm_ctx in
  let* p := load_ident ident_proc in
  let* _ := nas_itti_esm_detach_ind (mme_ue_s1ap_id ue_context_duplicate_imsi) false in
  let* _ := nas_stop_T_retry_specific_procedure (ue_id c) (parent p) in
  let* r := load_specific (parent p) in
  let* _ := nas_start_T_retry_specific_procedure (ue_id c) (parent p)
              (retry_cb (snd r)) (Some emm_ctx) in
  let* _ := upd_specific (parent p)
              (fun sp => set_old_ue_id sp (mme_ue_s1ap_id ue_context_duplicate_imsi)) in
  let* _ := common_proc_cnf ue emm_ctx ident_proc false in
  ret RETURNok.

(** Lines 330-334: no conflict, the IMSI is committed and indexed; the
    [DevAssert] is fatal when the lookup fails. *)
Definition complete_commit_imsi (emm_ctx : ptr) (imsi : imsi_t) (imsi64 : imsi64_t) : M unit :=
  let* _ := emm_ctx_set_valid_imsi emm_ctx imsi imsi64 in
  let* _ := emm_data_context_upsert_imsi emm_ctx in
  let* imsi_emm_ctx_test := emm_data_context_get_by_imsi imsi64 in
  match imsi_emm_ctx_test with
  | Some _ => ret tt
  | None => fatal
  end.

(** The branch [if (imsi)] of [emm_proc_identification_complete]: [Some rc]
    when the function returns from inside the branch, [None] when control
    reaches the notification after it. *)
Definition complete_imsi (ue : mme_ue_s1ap_id_t) (emm_ctx ident_proc : ptr)
    (imsi : imsi_t) : M (option Z) :=
  let imsi64 := imsi_to_imsi64 imsi in
  let* c := load_ctx emm_ctx in
  let* imsi_emm_ctx_duplicate := emm_data_context_get_by_imsi imsi64 in
  let* is_dup :=
    match imsi_emm_ctx_duplicate with
    | Some dp => let* d := load_ctx dp in ret (negb (ue_id d =? ue_id c))
    | None => ret false
    end in
  match imsi_emm_ctx_duplicate, is_dup with
  | Some dp, true =>
      let* rc := complete_emm_duplicate ue emm_ctx ident_proc dp in ret (Some rc)
  | _, _ =>
      let* ue_context_duplicate_imsi := mme_ue_context_exists_imsi imsi64 in
      match ue_context_duplicate_imsi with
      | Some uc =>
          if negb (mme_ue_s1ap_id uc =? ue_id c) then
            let* rc := complete_mme_app_duplicate ue emm_ctx ident_proc uc in ret (Some rc)
          else
            let* _ := complete_commit_imsi emm_ctx imsi imsi64 in ret None
      | None =>
          let* _ := complete_commit_imsi emm_ctx imsi imsi64 in ret None
      end
  end.

(** Lines 245-351: the update of the identity the response carries.  The
    [AssertFatal] of the TMSI branch is [fatal]. *)
Definition complete_update_identity (ue : mme_ue_s1ap_id_t) (emm_ctx ident_proc : ptr)
    (imsi : option imsi_t) (imei : option imei_t) (imeisv : option imeisv_t)
    (tmsi : option Z) : M (option Z) :=
  match imsi, imei, imeisv, tmsi with
  | Some i, _, _, _ => complete_imsi ue emm_ctx ident_proc i
  | None, Some i, _, _ =>
      let* _ := emm_ctx_set_valid_imei emm_ctx i in ret None
  | None, None, Some i, _ =>
      let* _ := emm_ctx_set_valid_imeisv emm_ctx i in ret None
  | None, None, None, Some _ => fatal
  | None, None, None, None => ret None
  end.

(** Lines 245-364: what [emm_proc_identification_complete] does once T3470
    is stopped. *)
Definition complete_after_stop (ue : mme_ue_s1ap_id_t) (emm_ctx ident_proc : ptr)
    (imsi : option imsi_t) (imei : option imei_t) (imeisv : option imeisv_t)
    (tmsi : option Z) : M Z :=
  let* early := complete_update_identity ue emm_ctx ident_proc imsi imei imeisv tmsi in
  match early with
  | Some r => ret r
  | None => common_proc_cnf ue emm_ctx ident_proc true
  end.

(** The body of [emm_proc_identification_complete], over the routine
    [stop_T3470] of the Timer Service that line 243 calls. *)
Definition emm_proc_identification_complete_with
    (stop_T3470 : mme_ue_s1ap_id_t -> ptr -> M unit) (ue : mme_ue_s1ap_id_t)
    (imsi : option imsi_t) (imei : option imei_t) (imeisv : option imeisv_t)
    (tmsi : option Z) : M Z :=
  let rc := RETURNerror in
  let* emm_ctx := emm_data_context_get ue in
  match emm_ctx with
  | None => ret rc
  | Some emm_ctx =>
      let* ident_proc := get_nas_common_procedure_identification emm_ctx in
      match ident_proc with
      | None => ret rc
      | Some ident_proc =>
          let* _ := stop_T3470 ue ident_proc in
          complete_after_stop ue emm_ctx ident_proc imsi imei imeisv tmsi
      end
  end.

(** [emm_proc_identification_complete]: the network received an IDENTITY
    RESPONSE. *)
Definition emm_proc_identification_complete (ue : mme_ue_s1ap_id_t)
    (imsi : option imsi_t) (imei : option imei_t) (imeisv : option imeisv_t)
    (tmsi : option Z) : M Z :=
  emm_proc_identification_complete_with nas_stop_T3470 ue imsi imei imeisv tmsi.

(** Lines 433-466: the abort of the identification procedure.  The
    primitive of lines 438-444 is built from the procedure [p] as the handler
    holds it; after [nas_delete_all_emm_procedures] the source reads
    [ident_proc->ue_id] again, at lines 454, 459 and 464, and each of these
    reads is a load through the pointer [ident_proc]. *)
Definition identification_abort_on_timeout (emm_ctx ident_proc : ptr)
    (p : nas_emm_ident_proc_t) : M unit :=
  let* _ := emm_sap_send
              (common_proc_abort_sap (ident_ue_id p) emm_ctx ident_proc
                 (previous_emm_fsm_state p)) in
  let* _ := nas_delete_all_emm_procedures emm_ctx in
  let* p1 := load_ident ident_proc in
  let* emm_ctx' := emm_data_context_get (ident_ue_id p1) in
  match emm_ctx' with
  | Some _ =>
      let* p2 := load_ident ident_proc in
      let* _ := emm_sap_send (implicit_detach_sap (ident_ue_id p2) 0 0) in
      ret tt
  | None =>
      let* p2 := load_ident ident_proc in
      nas_itti_esm_detach_ind (ident_ue_id p2) false
  end.

(** [_identification_t3470_handler]: T3470 timeout handler.  The counter is
    an [unsigned int]: its increment wraps. *)
Definition _identification_t3470_handler (args : option ptr) : M unit :=
  match args with
  | None => ret tt
  | Some emm_ctx =>
      let* ident_proc := get_nas_common_procedure_identification emm_ctx in
      match ident_proc with
      | None => ret tt
      | Some ident_proc =>
          let* _ := upd_ident ident_proc (fun p =>
                      set_T3470 p (set_timer_id (T3470 p) NAS_TIMER_INACTIVE_ID)) in
          let* _ := upd_ident ident_proc (fun p =>
                      set_retransmission_count p (uint_incr (retransmission_count p))) in
          let* p := load_ident ident_proc in
          if retransmission_count p <? IDENTIFICATION_COUNTER_MAX then
            let* _ := _identification_request ident_proc in
            ret tt
          else identification_abort_on_timeout emm_ctx ident_proc p
      end
  end.

(** [_identification_ll_failure]. *)
Definition _identification_ll_failure (emm_context emm_proc : option ptr) : M Z :=
  let rc := RETURNerror in
  match emm_context, emm_proc with
  | Some ctx, Some _ =>
      let* _ := nas_delete_all_emm_procedures ctx in ret rc
  | _, _ => ret rc
  end.

(** [_identification_non_delivered_ho]. *)
Definition _identification_non_delivered_ho (emm_context emm_proc : option ptr) : M Z :=
  let rc := RETURNerror in
  match emm_context, emm_proc with
  | Some _, Some proc => _identification_request proc
  | _, _ => ret rc
  end.

(** [_identification_abort]; the [AssertFatal] on the procedure type is the
    typed load of the procedure. *)
Definition _identification_abort (emm_context emm_base_proc : option ptr) : M Z :=
  let rc := RETURNerror in
  match emm_context, emm_base_proc with
  | Some _, Some proc =>
      let* p := load_ident proc in
      let* _ := nas_stop_T3470 (ident_ue_id p) proc in
      ret rc
  | _, _ => ret rc
  end.

(** Modelled from the spec: the expiry of a timer of the Timer Service,
    which "supports cancel-before-fire": the callback of the handle runs on
    its argument when the handle is armed, and nothing happens when it was
    disarmed or when the procedure is gone. *)
Definition T3470_expiry (proc : ptr) : M unit :=
  fun w =>
    match procs w !! proc with
    | Some (IdentProc p) =>
        if nas_timer_id (T3470 p) =? NAS_TIMER_INACTIVE_ID then Ret tt w
        else match nas_timer_cb (T3470 p) with
             | Some CB_identification_t3470_handler =>
                 _identification_t3470_handler (nas_timer_args (T3470 p)) w
             | _ => Ret tt w
             end
    | _ => Ret tt w
    end.

(** [n] consecutive expiries of T3470 for the context [args]. *)
Fixpoint timeouts (n : nat) (args : option ptr) : M unit :=
  match n with
  | O => ret tt
  | S n' => let* _ := _identification_t3470_handler args in timeouts n' args
  end.

(** ** Observations on a world, used to state the properties *)

(** The Identification procedure [get_nas_common_procedure_identification]
    finds for the context at [ctx]. *)
Definition ident_proc_of (w : World) (ctx : ptr) : option ptr :=
  match emm_contexts w !! ctx with
  | Some c => find (fun q => is_ident_proc (procs w !! q)) (emm_common_procs c)
  | None => None
  end.

(** All the Identification procedures linked to the context at [ctx]. *)
Definition ident_instances (w : World) (ctx : ptr) : list ptr :=
  match emm_contexts w !! ctx with
  | Some c => filter (fun q => is_ident_proc (procs w !! q) = true) (emm_common_procs c)
  | None => []
  end.

(** The events an outcome added to the trace of [w]. *)
Definition new_events {A} (w : World) (o : outcome A) : list event :=
  drop (length (trace w)) (trace (world_of o)).

(** The context at [ctx], known to the store under the identifier [ue] of
    its Identification procedure [q], awaits a response: T3470 is armed, the
    counter is [k] and a resend would carry the request [msg]. *)
Definition awaiting_response (w : World) (ctx q : ptr) (ue : mme_ue_s1ap_id_t)
    (k : Z) (msg : emm_sap_t) : Prop :=
  exists c p,
    emm_contexts w !! ctx = Some c /\
    ident_proc_of w ctx = Some q /\
    procs w !! q = Some (IdentProc p) /\
    ident_ue_id p = ue /\
    ctx_coll_ue_id (_emm_data w) !! ue = Some ctx /\
    retransmission_count p = k /\
    nas_timer_id (T3470 p) <> NAS_TIMER_INACTIVE_ID /\
    identity_request_sap p c = msg.

(** The last call of the history [h] is the delivery of an
    EMMAS_SECURITY_REQ that did not report an error. *)
Definition request_just_sent (h : list event) : bool :=
  match last h with
  | Some (Ev_emm_sap_send m) =>
      match primitive m with
      | EMMAS_SECURITY_REQ => negb (emm_sap_send_rc (removelast h) m =? RETURNerror)
      | _ => false
      end
  | _ => false
  end.

(** Every start of T3470 among the calls [l] made after the history [h]
    comes right after such a delivery. *)
Fixpoint T3470_armed_after_request (h l : list event) : bool :=
  match l with
  | [] => true
  | e :: l' =>
      match e with
      | Ev_nas_start_T3470 _ _ => request_just_sent h
      | _ => true
      end && T3470_armed_after_request (h ++ [e]) l'
  end.

(** A computation that only adds calls to the trace and keeps that
    discipline. *)
Definition arms_after_request {A} (m : M A) : Prop :=
  forall w, exists l,
    trace (world_of (m w)) = trace w ++ l /\
    T3470_armed_after_request (trace w) l = true.

(** A computation that keeps [I] whenever it returns. *)
Definition preserves {A} (I : World -> Prop) (m : M A) : Prop :=
  forall w a w', I w -> m w = Ret a w' -> I w'.

(** T3470 of the Identification procedure at [q] is not armed. *)
Definition T3470_disarmed (q : ptr) (w : World) : Prop :=
  exists p, procs w !! q = Some (IdentProc p) /\
            nas_timer_id (T3470 p) = NAS_TIMER_INACTIVE_ID.

(** ** Further observations: what a computation calls and what it keeps *)

(** A computation that, however it ends, only adds calls that satisfy [P]
    to the trace. *)
Definition calls_only {A} (P : event -> bool) (m : M A) : Prop :=
  forall w, exists l,
    trace (world_of (m w)) = trace w ++ l /\ forallb P l = true.

(** A computation that, however it ends, keeps [I]. *)
Definition keeps {A} (I : World -> Prop) (m : M A) : Prop :=
  forall w, I w -> I (world_of (m w)).

(** The SAP a primitive belongs to, by the three groups of
    [emm_primitive_t] in [emm_sap.h]. *)
Inductive emm_sap_class := EMMREG_SAP | EMMAS_SAP | EMMCN_SAP.

Definition emm_primitive_class (p : emm_primitive_t) : emm_sap_class :=
  match p with
  | EMMREG_COMMON_PROC_REQ | EMMREG_COMMON_PROC_CNF | EMMREG_COMMON_PROC_REJ
  | EMMREG_COMMON_PROC_ABORT | EMMREG_ATTACH_CNF | EMMREG_ATTACH_REJ
  | EMMREG_ATTACH_ABORT | EMMREG_DETACH_INIT | EMMREG_DETACH_REQ
  | EMMREG_DETACH_FAILED | EMMREG_DETACH_CNF | EMMREG_TAU_REQ | EMMREG_TAU_CNF
  | EMMREG_TAU_REJ | EMMREG_TAU_ABORT | EMMREG_SERVICE_REQ | EMMREG_SERVICE_CNF
  | EMMREG_SERVICE_REJ | EMMREG_LOWERLAYER_SUCCESS | EMMREG_LOWERLAYER_FAILURE
  | EMMREG_LOWERLAYER_RELEASE | EMMREG_LOWERLAYER_NON_DELIVERY => EMMREG_SAP
  | EMMAS_SECURITY_REQ | EMMAS_SECURITY_IND | EMMAS_SECURITY_RES
  | EMMAS_SECURITY_REJ | EMMAS_ESTABLISH_REQ | EMMAS_ESTABLISH_CNF
  | EMMAS_ESTABLISH_REJ | EMMAS_RELEASE_REQ | EMMAS_RELEASE_IND
  | EMMAS_DATA_REQ | EMMAS_DATA_IND | EMMAS_PAGE_IND | EMMAS_STATUS_IND => EMMAS_SAP
  | EMMCN_AUTHENTICATION_PARAM_RES | EMMCN_AUTHENTICATION_PARAM_FAIL
  | EMMCN_CONTEXT_RES | EMMCN_CONTEXT_FAIL | EMMCN_DEREGISTER_UE
  | EMMCN_IMPLICIT_DETACH_UE | EMMCN_SMC_PROC_FAIL => EMMCN_SAP
  end.

(** The member of the union [u] of [emm_sap_t] a primitive fills. *)
Definition emm_sap_member (m : emm_sap_t) : emm_sap_class :=
  match u m with
  | emm_reg _ => EMMREG_SAP
  | emm_as _ => EMMAS_SAP
  | emm_cn _ => EMMCN_SAP
  end.

Definition emm_sap_class_eqb (a b : emm_sap_class) : bool :=
  match a, b with
  | EMMREG_SAP, EMMREG_SAP | EMMAS_SAP, EMMAS_SAP | EMMCN_SAP, EMMCN_SAP => true
  | _, _ => false
  end.

(** A delivery whose primitive fills the member of its own SAP; every other
    call passes. *)
Definition sap_member_matches (e : event) : bool :=
  match e with
  | Ev_emm_sap_send m => emm_sap_class_eqb (emm_primitive_class (primitive m)) (emm_sap_member m)
  | _ => true
  end.

(** The calls [emm_proc_identification] may make. *)
Definition start_call (e : event) : bool :=
  match e with
  | Ev_emm_sap_send m =>
      match primitive m with
      | EMMAS_SECURITY_REQ | EMMREG_COMMON_PROC_REQ => true
      | _ => false
      end
  | Ev_nas_start_T3470 _ _ => true
  | _ => false
  end.

(** The calls [_identification_request] may make. *)
Definition request_call (e : event) : bool :=
  match e with
  | Ev_emm_sap_send m =>
      match primitive m with
      | EMMAS_SECURITY_REQ => true
      | _ => false
      end
  | Ev_nas_start_T3470 _ _ => true
  | _ => false
  end.

(** The calls [_identification_t3470_handler] may make. *)
Definition timeout_call (e : event) : bool :=
  match e with
  | Ev_emm_sap_send m =>
      match primitive m with
      | EMMAS_SECURITY_REQ | EMMREG_COMMON_PROC_ABORT | EMMCN_IMPLICIT_DETACH_UE => true
      | _ => false
      end
  | Ev_nas_start_T3470 _ _ => true
  | Ev_nas_itti_esm_detach_ind _ _ => true
  | _ => false
  end.

(** The calls [emm_proc_identification_complete] may make. *)
Definition complete_call (e : event) : bool :=
  match e with
  | Ev_emm_sap_send m =>
      match primitive m with
      | EMMREG_COMMON_PROC_CNF | EMMCN_IMPLICIT_DETACH_UE => true
      | _ => false
      end
  | Ev_nas_stop_T3470 _ _ => true
  | Ev_nas_start_T_retry_specific_procedure _ _ => true
  | Ev_nas_stop_T_retry_specific_procedure _ _ => true
  | Ev_nas_itti_esm_detach_ind _ _ => true
  | _ => false
  end.

(** The one call [_identification_abort] may make. *)
Definition abort_call (e : event) : bool :=
  match e with
  | Ev_nas_stop_T3470 _ _ => true
  | _ => false
  end.

(** None of the calls to the EMM-SAP dispatcher, the NAS timers and the
    ITTI detach indication. *)
Definition no_call (e : event) : bool := false.

(** [n] consecutive non-deliveries during handover, reported for the
    context at [ctx] and its procedure at [q]. *)
Fixpoint handover_resends (n : nat) (ctx q : ptr) : M unit :=
  match n with
  | O => ret tt
  | S n' =>
      let* _ := _identification_non_delivered_ho (Some ctx) (Some q) in
      handover_resends n' ctx q
  end.

(** The retransmission counter of every live Identification procedure is
    at least 0 and below the maximum. *)
Definition counters_bounded (w : World) : Prop :=
  forall q p, procs w !! q = Some (IdentProc p) ->
              0 <= retransmission_count p < IDENTIFICATION_COUNTER_MAX.

(** ** A small configuration, to run the definitions on *)

(** An access stratum and registration layer that accept every primitive. *)
Definition ex_rc (h : list event) (m : emm_sap_t) : Z := RETURNok.

(** The IMSI read as a decimal number. *)
Definition ex_imsi_to_imsi64 (i : imsi_t) : imsi64_t :=
  fold_left (fun a d => a * 10 + d) i 0.

(** A deregistered context with identifier 7, at address 1, with no
    procedure, known to the store. *)
Definition ex_ctx : emm_data_context_t :=
  mk_emm_ctx 7 EMM_DEREGISTERED 99 None 0 None None 0 None [].

Definition ex_world : World :=
  mk_World {[ 1%positive := ex_ctx ]} ∅
    (mk_emm_data {[ 7 := 1%positive ]} ∅) ∅ 0%N 0 [].

(** The same context while its Identification procedure, at address 1 of
    the procedure heap, awaits a response with the counter at [k]; the
    parent of the procedure is the specific procedure at address 2. *)
Definition ex_proc (k : Z) : nas_emm_ident_proc_t :=
  mk_ident_proc IDENTITY_TYPE_2_IMSI k 7
    (mk_nas_timer 0 (Some CB_identification_t3470_handler) (Some 1%positive))
    (Some 2%positive) 0 None EMM_DEREGISTERED
    (Some CB_identification_ll_failure) (Some CB_identification_non_delivered_ho)
    None None (Some CB_identification_abort) None
    (Some CB_identification_t3470_handler).

Definition ex_parent : nas_emm_specific_proc_t :=
  mk_specific_proc (mk_nas_timer NAS_TIMER_INACTIVE_ID None None) (Some (CB_extern 1)) 0.

Definition ex_ctx_awaiting : emm_data_context_t :=
  mk_emm_ctx 7 EMM_DEREGISTERED 99 None 0 None None 0 (Some 2%positive) [1%positive].

(** A second context, with identifier 8, that holds the IMSI 123. *)
Definition ex_ctx_other : emm_data_context_t :=
  mk_emm_ctx 8 EMM_REGISTERED 55 (Some [1; 2; 3]) 123 None None 0 None [].

Definition ex_world_awaiting (k : Z) : World :=
  mk_World {[ 1%positive := ex_ctx_awaiting; 3%positive := ex_ctx_other ]}
    {[ 1%positive := IdentProc (ex_proc k); 2%positive := SpecificProc ex_parent ]}
    (mk_emm_data {[ 7 := 1%positive; 8 := 3%positive ]} {[ 123 := 3%positive ]})
    ∅ 1%N 1 [].

(** The awaiting configuration when the MME_APP layer, and no EMM context,
    holds the IMSI 456, for the identifier 9. *)
Definition ex_world_mme_app : World :=
  mk_World {[ 1%positive := ex_ctx_awaiting ]}
    {[ 1%positive := IdentProc (ex_proc 0); 2%positive := SpecificProc ex_parent ]}
    (mk_emm_data {[ 7 := 1%positive ]} ∅)
    {[ 456 := mk_ue_context 9 ]} 1%N 1 [].

(** The awaiting configuration once the store no longer knows the
    identifier 7. *)
Definition ex_world_unstored (k : Z) : World :=
  mk_World {[ 1%positive := ex_ctx_awaiting ]}
    {[ 1%positive := IdentProc (ex_proc k); 2%positive := SpecificProc ex_parent ]}
    (mk_emm_data ∅ ∅) ∅ 1%N 1 [].

(** An access stratum and registration layer that refuse every primitive. *)
Definition ex_rc_refuse (h : list event) (m : emm_sap_t) : Z := RETURNerror.

(** The contexts 7 and 8 before any procedure is started: the second one
    holds the IMSI 123. *)
Definition ex_world_two : World :=
  mk_World {[ 1%positive := ex_ctx; 3%positive := ex_ctx_other ]} ∅
    (mk_emm_data {[ 7 := 1%positive; 8 := 3%positive ]} {[ 123 := 3%positive ]})
    ∅ 0%N 0 [].

(** The world a start with no owning procedure leaves [ex_world_two] in:
    the Identification procedure of the context 7, at address 1, has no
    parent. *)
Definition ex_proc_started : nas_emm_ident_proc_t :=
  mk_ident_proc IDENTITY_TYPE_2_IMSI 0 7
    (mk_nas_timer 0 (Some CB_identification_t3470_handler) (Some 1%positive))
    None 0 None EMM_DEREGISTERED
    (Some CB_identification_ll_failure) (Some CB_identification_non_delivered_ho)
    None None (Some CB_identification_abort) None
    (Some CB_identification_t3470_handler).

Definition ex_ctx_started : emm_data_context_t :=
  mk_emm_ctx 7 EMM_DEREGISTERED 99 None 0 None None 0 None [1%positive].

Definition ex_world_started : World :=
  mk_World {[ 1%positive := ex_ctx_started; 3%positive := ex_ctx_other ]}
    {[ 1%positive := IdentProc ex_proc_started ]}
    (mk_emm_data {[ 7 := 1%positive; 8 := 3%positive ]} {[ 123 := 3%positive ]})
    ∅ 1%N 1
    [Ev_emm_sap_send (identity_request_sap ex_proc_started ex_ctx_started);
     Ev_nas_start_T3470 7 1%positive;
     Ev_emm_sap_send (common_proc_req_sap 7 1%positive)].

(** ** Basic facts *)

Lemma bind_Ret {A B} (m : M A) (k : A -> M B) w a w' :
  m w = Ret a w' -> (let* x := m in k x) w = k a w'.
Proof. intros H. unfold bind. now rewrite H. Qed.

Lemma is_ident_proc_true (o : option nas_proc_t) :
  is_ident_proc o = true -> exists p, o = Some (IdentProc p).
Proof.
  destruct o as [[p| |]|]; simpl; intros H; try discriminate. now exists p.
Qed.

Lemma find_ident_is_ident (m : gmap ptr nas_proc_t) (l : list ptr) q :
  find (fun x => is_ident_proc (m !! x)) l = Some q ->
  exists p, m !! q = Some (IdentProc p).
Proof.
  intros H. apply find_some in H as [_ H]. now apply is_ident_proc_true.
Qed.

(** Overwriting a live Identification procedure does not change which
    objects of the heap are Identification procedures. *)
Lemma is_ident_proc_insert (m : gmap ptr nas_proc_t) q p p' x :
  m !! q = Some (IdentProc p) ->
  is_ident_proc (<[q:=IdentProc p']> m !! x) = is_ident_proc (m !! x).
Proof.
  intros H. destruct (decide (q = x)) as [->|Hne].
  - rewrite lookup_insert_eq, H. reflexivity.
  - now rewrite lookup_insert_ne.
Qed.

Lemma find_ext {A} (f g : A -> bool) (l : list A) :
  (forall x, f x = g x) -> find f l = find g l.
Proof.
  intros H. induction l as [|a l IH]; simpl; [reflexivity|].
  rewrite H, IH. reflexivity.
Qed.

Lemma find_ident_insert (m : gmap ptr nas_proc_t) q p p' (l : list ptr) :
  m !! q = Some (IdentProc p) ->
  find (fun x => is_ident_proc (<[q:=IdentProc p']> m !! x)) l =
  find (fun x => is_ident_proc (m !! x)) l.
Proof.
  intros H. apply find_ext. intros x. now apply is_ident_proc_insert with (p := p).
Qed.

Lemma new_events_app {A} w (o : outcome A) l :
  trace (world_of o) = trace w ++ l -> new_events w o = l.
Proof.
  intros H. unfold new_events. rewrite H. apply drop_app_length.
Qed.

(** ** The send routine *)

Lemma identification_request_absent w proc p :
  procs w !! proc = Some (IdentProc p) ->
  ctx_coll_ue_id (_emm_data w) !! ident_ue_id p = None ->
  _identification_request proc w = Ret RETURNerror w.
Proof.
  intros Hp Hs. unfold _identification_request, bind, load_ident, emm_data_context_get.
  rewrite Hp, Hs. reflexivity.
Qed.

Lemma identification_request_refused w proc p cp c :
  procs w !! proc = Some (IdentProc p) ->
  ctx_coll_ue_id (_emm_data w) !! ident_ue_id p = Some cp ->
  emm_contexts w !! cp = Some c ->
  emm_sap_send_rc (trace w) (identity_request_sap p c) = RETURNerror ->
  _identification_request proc w =
  Ret RETURNerror
      (set_trace w (trace w ++ [Ev_emm_sap_send (identity_request_sap p c)])).
Proof.
  intros Hp Hs Hc Hrc.
  unfold _identification_request, bind, load_ident, emm_data_context_get, load_ctx,
    emm_sap_send.
  rewrite Hp, Hs, Hc, Hrc. reflexivity.
Qed.

Lemma identification_request_sent w proc p cp c :
  procs w !! proc = Some (IdentProc p) ->
  ctx_coll_ue_id (_emm_data w) !! ident_ue_id p = Some cp ->
  emm_contexts w !! cp = Some c ->
  emm_sap_send_rc (trace w) (identity_request_sap p c) <> RETURNerror ->
  _identification_request proc w =
  Ret (emm_sap_send_rc (trace w) (identity_request_sap p c))
      (mk_World (emm_contexts w)
         (<[proc:=IdentProc
                    (set_T3470 p (mk_nas_timer (Z.of_N (next_timer_id w))
                                    (time_out p) (Some cp)))]> (procs w))
         (_emm_data w) (mme_ue_contexts w) (N.succ (next_timer_id w)) (next_puid w)
         (trace w ++ [Ev_emm_sap_send (identity_request_sap p c);
                      Ev_nas_start_T3470 (ident_ue_id p) proc])).
Proof.
  intros Hp Hs Hc Hrc.
  unfold _identification_request, bind, load_ident, emm_data_context_get, load_ctx,
    emm_sap_send.
  rewrite Hp, Hs, Hc.
  apply Z.eqb_neq in Hrc. rewrite Hrc. simpl.
  unfold nas_start_T3470, bind, nas_timer_start, upd_ident, bind, load_ident. simpl.
  rewrite Hp. unfold store_ident, log, modify, ret. simpl.
  rewrite <- app_assoc. reflexivity.
Qed.


(** ** The discipline of T3470: armed only after a delivered request *)

Lemma T3470_armed_after_request_app h l1 l2 :
  T3470_armed_after_request h (l1 ++ l2) =
  T3470_armed_after_request h l1 && T3470_armed_after_request (h ++ l1) l2.
Proof.
  revert h. induction l1 as [|e l1 IH]; intros h; simpl.
  - now rewrite app_nil_r.
  - rewrite IH, <- app_assoc. simpl. now rewrite andb_assoc.
Qed.

Lemma arms_ret {A} (a : A) : arms_after_request (ret a).
Proof. intros w. exists []. simpl. now rewrite app_nil_r. Qed.

Lemma arms_fatal {A} : arms_after_request (@fatal A).
Proof. intros w. exists []. simpl. now rewrite app_nil_r. Qed.

Lemma arms_bind {A B} (m : M A) (k : A -> M B) :
  arms_after_request m -> (forall a, arms_after_request (k a)) ->
  arms_after_request (let* x := m in k x).
Proof.
  intros Hm Hk w. unfold bind. destruct (Hm w) as (l1 & E1 & C1).
  destruct (m w) as [a w1|w1]; simpl in E1.
  - destruct (Hk a w1) as (l2 & E2 & C2). exists (l1 ++ l2). split.
    + rewrite E2, E1. now rewrite app_assoc.
    + rewrite T3470_armed_after_request_app, C1. simpl. now rewrite <- E1.
  - exists l1. now split.
Qed.

(** A computation whose outcome leaves the trace as it was. *)
Lemma arms_silent {A} (m : M A) :
  (forall w, trace (world_of (m w)) = trace w) -> arms_after_request m.
Proof. intros H w. exists []. rewrite H. simpl. now rewrite app_nil_r. Qed.

Lemma arms_load_ctx p : arms_after_request (load_ctx p).
Proof. apply arms_silent. intros w. unfold load_ctx. now destruct (_ !! _). Qed.

Lemma arms_load_ident p : arms_after_request (load_ident p).
Proof.
  apply arms_silent. intros w. unfold load_ident. now destruct (_ !! _) as [[]|].
Qed.

Lemma arms_load_specific p : arms_after_request (load_specific p).
Proof.
  apply arms_silent. intros w. unfold load_specific.
  destruct p; [|reflexivity]. now destruct (_ !! _) as [[]|].
Qed.

Lemma arms_modify f :
  (forall w, trace (f w) = trace w) -> arms_after_request (modify f).
Proof. intros H. apply arms_silent. intros w. simpl. apply H. Qed.

Lemma arms_store_ctx p c : arms_after_request (store_ctx p c).
Proof. now apply arms_modify. Qed.

Lemma arms_store_ident p ip : arms_after_request (store_ident p ip).
Proof. now apply arms_modify. Qed.

Lemma arms_store_specific p sp : arms_after_request (store_specific p sp).
Proof. now apply arms_modify. Qed.

Lemma arms_get_world : arms_after_request get_world.
Proof. now apply arms_silent. Qed.

Lemma arms_nas_timer_start : arms_after_request nas_timer_start.
Proof. now apply arms_silent. Qed.

Lemma arms_emm_data_context_get ue : arms_after_request (emm_data_context_get ue).
Proof. now apply arms_silent. Qed.

Lemma arms_emm_data_context_get_by_imsi i : arms_after_request (emm_data_context_get_by_imsi i).
Proof. now apply arms_silent. Qed.

Lemma arms_mme_ue_context_exists_imsi i : arms_after_request (mme_ue_context_exists_imsi i).
Proof. now apply arms_silent. Qed.

Lemma arms_find_ident c :
  arms_after_request
    (fun w => Ret (find (fun q => is_ident_proc (procs w !! q)) (emm_common_procs c)) w).
Proof. now apply arms_silent. Qed.

(** A call other than the start of T3470 may be logged anywhere. *)
Lemma arms_log e :
  (forall ue q, e <> Ev_nas_start_T3470 ue q) -> arms_after_request (log e).
Proof.
  intros H w. exists [e]. split; [reflexivity|].
  simpl. destruct e; try reflexivity. now destruct (H ue proc).
Qed.

Lemma arms_emm_sap_send msg : arms_after_request (emm_sap_send msg).
Proof. intros w. exists [Ev_emm_sap_send msg]. now split. Qed.

Create HintDb arms discriminated.
#[local] Hint Resolve arms_ret arms_fatal arms_load_ctx arms_load_ident
  arms_load_specific arms_store_ctx arms_store_ident arms_store_specific
  arms_get_world arms_nas_timer_start arms_emm_data_context_get
  arms_emm_data_context_get_by_imsi arms_mme_ue_context_exists_imsi
  arms_find_ident arms_emm_sap_send : arms.

(** Structural walk through a computation built from [bind], [match] and
    the operations of the hint database. *)
Ltac arms_walk :=
  repeat first
    [ solve [eauto with arms]
    | apply arms_bind; [|intros ?]
    | apply arms_modify; intros; reflexivity
    | apply arms_log; intros; discriminate
    | match goal with
      | |- arms_after_request (match ?x with _ => _ end) => destruct x
      | |- arms_after_request (if ?b then _ else _) => destruct b
      end ].


Lemma arms_upd_ctx p f : arms_after_request (upd_ctx p f).
Proof. unfold upd_ctx. arms_walk. Qed.

Lemma arms_upd_ident p f : arms_after_request (upd_ident p f).
Proof. unfold upd_ident. arms_walk. Qed.

Lemma arms_upd_specific p f : arms_after_request (upd_specific p f).
Proof. unfold upd_specific. arms_walk. Qed.

#[local] Hint Resolve arms_upd_ctx arms_upd_ident arms_upd_specific : arms.

Lemma arms_get_nas_common_procedure_identification ctx :
  arms_after_request (get_nas_common_procedure_identification ctx).
Proof. unfold get_nas_common_procedure_identification. arms_walk. Qed.

Lemma arms_nas_new_identification_procedure ctx :
  arms_after_request (nas_new_identification_procedure ctx).
Proof. unfold nas_new_identification_procedure. arms_walk. Qed.

Lemma arms_nas_delete_all_emm_procedures ctx :
  arms_after_request (nas_delete_all_emm_procedures ctx).
Proof. unfold nas_delete_all_emm_procedures. arms_walk. Qed.

Lemma arms_emm_fsm_get_state ctx : arms_after_request (emm_fsm_get_state ctx).
Proof. unfold emm_fsm_get_state. arms_walk. Qed.

Lemma arms_emm_ctx_set_valid_imsi ctx i i64 :
  arms_after_request (emm_ctx_set_valid_imsi ctx i i64).
Proof. unfold emm_ctx_set_valid_imsi. arms_walk. Qed.

Lemma arms_emm_ctx_set_valid_imei ctx i : arms_after_request (emm_ctx_set_valid_imei ctx i).
Proof. unfold emm_ctx_set_valid_imei. arms_walk. Qed.

Lemma arms_emm_ctx_set_valid_imeisv ctx i :
  arms_after_request (emm_ctx_set_valid_imeisv ctx i).
Proof. unfold emm_ctx_set_valid_imeisv. arms_walk. Qed.

Lemma arms_emm_data_context_upsert_imsi ctx :
  arms_after_request (emm_data_context_upsert_imsi ctx).
Proof. unfold emm_data_context_upsert_imsi. arms_walk. Qed.

Lemma arms_nas_stop_T3470 ue q : arms_after_request (nas_stop_T3470 ue q).
Proof. unfold nas_stop_T3470. arms_walk. Qed.

Lemma arms_nas_start_T_retry ue q cb args :
  arms_after_request (nas_start_T_retry_specific_procedure ue q cb args).
Proof. unfold nas_start_T_retry_specific_procedure. arms_walk. Qed.

Lemma arms_nas_stop_T_retry ue q :
  arms_after_request (nas_stop_T_retry_specific_procedure ue q).
Proof. unfold nas_stop_T_retry_specific_procedure. arms_walk. Qed.

Lemma arms_nas_itti_esm_detach_ind ue b :
  arms_after_request (nas_itti_esm_detach_ind ue b).
Proof. unfold nas_itti_esm_detach_ind. arms_walk. Qed.

#[local] Hint Resolve arms_get_nas_common_procedure_identification
  arms_nas_new_identification_procedure arms_nas_delete_all_emm_procedures
  arms_emm_fsm_get_state arms_emm_ctx_set_valid_imsi arms_emm_ctx_set_valid_imei
  arms_emm_ctx_set_valid_imeisv arms_emm_data_context_upsert_imsi
  arms_nas_stop_T3470 arms_nas_start_T_retry arms_nas_stop_T_retry
  arms_nas_itti_esm_detach_ind : arms.

Lemma request_just_sent_snoc h m :
  primitive m = EMMAS_SECURITY_REQ ->
  emm_sap_send_rc h m <> RETURNerror ->
  request_just_sent (h ++ [Ev_emm_sap_send m]) = true.
Proof.
  intros Hm Hrc. unfold request_just_sent.
  rewrite last_snoc, Hm, removelast_last.
  apply Z.eqb_neq in Hrc. now rewrite Hrc.
Qed.

(** The send routine is the one place that starts T3470, and it does so
    right after the request was delivered. *)
Lemma arms_identification_request proc :
  arms_after_request (_identification_request proc).
Proof.
  intros w.
  destruct (procs w !! proc) as [[p| |]|] eqn:Hp;
    try (exists []; unfold _identification_request, bind, load_ident;
         rewrite Hp; simpl; now rewrite app_nil_r).
  destruct (ctx_coll_ue_id (_emm_data w) !! ident_ue_id p) as [cp|] eqn:Hs.
  2:{ rewrite (identification_request_absent _ _ _ Hp Hs).
      exists []. simpl. now rewrite app_nil_r. }
  destruct (emm_contexts w !! cp) as [c|] eqn:Hc.
  2:{ exists []. unfold _identification_request, bind, load_ident,
        emm_data_context_get, load_ctx.
      rewrite Hp, Hs, Hc. simpl. now rewrite app_nil_r. }
  destruct (Z.eq_dec (emm_sap_send_rc (trace w) (identity_request_sap p c)) RETURNerror)
    as [Hrc|Hrc].
  - rewrite (identification_request_refused _ _ _ _ _ Hp Hs Hc Hrc).
    exists [Ev_emm_sap_send (identity_request_sap p c)]. now split.
  - rewrite (identification_request_sent _ _ _ _ _ Hp Hs Hc Hrc).
    eexists. split; [reflexivity|]. simpl.
    rewrite request_just_sent_snoc; auto.
Qed.

#[local] Hint Resolve arms_identification_request : arms.

Lemma arms_emm_proc_identification ctx emm_proc type success failure :
  arms_after_request (emm_proc_identification ctx emm_proc type success failure).
Proof.
  unfold emm_proc_identification, get_or_new_identification_procedure,
    identification_setup_and_send.
  arms_walk.
Qed.

Lemma arms_identification_t3470_handler args :
  arms_after_request (_identification_t3470_handler args).
Proof.
  unfold _identification_t3470_handler, identification_abort_on_timeout. arms_walk.
Qed.

Lemma arms_identification_non_delivered_ho ctx proc :
  arms_after_request (_identification_non_delivered_ho ctx proc).
Proof. unfold _identification_non_delivered_ho. arms_walk. Qed.

Lemma arms_common_proc_cnf ue ctx q b : arms_after_request (common_proc_cnf ue ctx q b).
Proof. unfold common_proc_cnf. arms_walk. Qed.

#[local] Hint Resolve arms_common_proc_cnf : arms.

Lemma arms_complete_after_stop ue emm_ctx q imsi imei imeisv tmsi :
  arms_after_request (complete_after_stop ue emm_ctx q imsi imei imeisv tmsi).
Proof.
  unfold complete_after_stop, complete_update_identity, complete_imsi,
    complete_emm_duplicate, complete_mme_app_duplicate, complete_commit_imsi.
  arms_walk.
Qed.


(** ** Stale responses *)

(** C7. A response whose identifier matches no context of the store, or a
    context without an Identification procedure, changes nothing: the call
    returns RETURNerror in the world it was made in, so no state is mutated
    and no primitive is emitted. *)
Theorem identification_complete_stale_is_noop
    (w : World) (ue : mme_ue_s1ap_id_t) (imsi : option imsi_t) (imei : option imei_t)
    (imeisv : option imeisv_t) (tmsi : option Z)
    (Hstale : ctx_coll_ue_id (_emm_data w) !! ue = None \/
              exists cp c,
                ctx_coll_ue_id (_emm_data w) !! ue = Some cp /\
                emm_contexts w !! cp = Some c /\
                ident_proc_of w cp = None) :
  emm_proc_identification_complete ue imsi imei imeisv tmsi w = Ret RETURNerror w /\
  new_events w (emm_proc_identification_complete ue imsi imei imeisv tmsi w) = [].
Proof.
  assert (E : emm_proc_identification_complete ue imsi imei imeisv tmsi w
              = Ret RETURNerror w).
  { destruct Hstale as [H | (cp & c & H1 & H2 & H3)];
      unfold emm_proc_identification_complete, emm_proc_identification_complete_with, bind, emm_data_context_get.
    - now rewrite H.
    - rewrite H1. unfold get_nas_common_procedure_identification, bind, load_ctx.
      unfold ident_proc_of in H3. rewrite H2 in *. now rewrite H3. }
  split; [exact E|]. rewrite E. apply new_events_app. simpl. now rewrite app_nil_r.
Qed.

(** ** The send routine, from its three callers *)

(** C10. The send routine returns an error in an unchanged world when the
    context is absent from the store; when the context is there it delivers
    the request and starts T3470 exactly when the delivery did not report an
    error; and in every world the start, the timeout handler and the
    handover resend only start T3470 right after such a delivery. *)
Theorem identification_request_arms_only_after_send
    (w : World) (proc : ptr) (p : nas_emm_ident_proc_t)
    (Hp : procs w !! proc = Some (IdentProc p)) :
  (ctx_coll_ue_id (_emm_data w) !! ident_ue_id p = None ->
   _identification_request proc w = Ret RETURNerror w) /\
  (forall cp c,
     ctx_coll_ue_id (_emm_data w) !! ident_ue_id p = Some cp ->
     emm_contexts w !! cp = Some c ->
     let msg := identity_request_sap p c in
     let rc := emm_sap_send_rc (trace w) msg in
     exists w',
       _identification_request proc w = Ret rc w' /\
       if rc =? RETURNerror
       then w' = set_trace w (trace w ++ [Ev_emm_sap_send msg])
       else trace w' = trace w ++ [Ev_emm_sap_send msg;
                                   Ev_nas_start_T3470 (ident_ue_id p) proc] /\
            exists t, procs w' !! proc = Some (IdentProc (set_T3470 p t)) /\
                      nas_timer_id t <> NAS_TIMER_INACTIVE_ID) /\
  (forall ctx emm_proc type success failure,
     arms_after_request (emm_proc_identification ctx emm_proc type success failure)) /\
  (forall args, arms_after_request (_identification_t3470_handler args)) /\
  (forall ctx q, arms_after_request (_identification_non_delivered_ho ctx q)) /\
  arms_after_request (_identification_request proc).
Proof.
  split; [|split; [|split; [|split; [|split]]]].
  - intros Hs. apply (identification_request_absent _ _ _ Hp Hs).
  - intros cp c Hs Hc. cbv zeta.
    destruct (Z.eq_dec (emm_sap_send_rc (trace w) (identity_request_sap p c)) RETURNerror)
      as [Hrc|Hrc].
    + eexists. split.
      * rewrite Hrc at 1.
        apply (identification_request_refused _ _ _ _ _ Hp Hs Hc Hrc).
      * rewrite Hrc. reflexivity.
    + eexists. split.
      * apply (identification_request_sent _ _ _ _ _ Hp Hs Hc Hrc).
      * apply Z.eqb_neq in Hrc. rewrite Hrc. simpl. split; [reflexivity|].
        eexists. split; [apply lookup_insert_eq|]. simpl.
        unfold NAS_TIMER_INACTIVE_ID. lia.
  - intros. apply arms_emm_proc_identification.
  - intros. apply arms_identification_t3470_handler.
  - intros. apply arms_identification_non_delivered_ho.
  - apply arms_identification_request.
Qed.

(** C9. A non-delivery during handover, for a context that is in the store
    and an Identification procedure that is live, delivers the identity
    request of that procedure again and returns with the retransmission
    counter, and every field the request is built from, as they were. *)
Theorem identification_non_delivered_ho_resends
    (w : World) (emm_context proc cp : ptr) (p : nas_emm_ident_proc_t)
    (c : emm_data_context_t)
    (Hp : procs w !! proc = Some (IdentProc p))
    (Hs : ctx_coll_ue_id (_emm_data w) !! ident_ue_id p = Some cp)
    (Hc : emm_contexts w !! cp = Some c) :
  exists rc w' l p',
    _identification_non_delivered_ho (Some emm_context) (Some proc) w = Ret rc w' /\
    trace w' = trace w ++ Ev_emm_sap_send (identity_request_sap p c) :: l /\
    (forall m, Ev_emm_sap_send m ∉ l) /\
    procs w' !! proc = Some (IdentProc p') /\
    retransmission_count p' = retransmission_count p /\
    identity_request_sap p' c = identity_request_sap p c /\
    emm_contexts w' = emm_contexts w.
Proof.
  unfold _identification_non_delivered_ho.
  destruct (Z.eq_dec (emm_sap_send_rc (trace w) (identity_request_sap p c)) RETURNerror)
    as [Hrc|Hrc].
  - rewrite (identification_request_refused _ _ _ _ _ Hp Hs Hc Hrc).
    exists RETURNerror. eexists. exists [], p. simpl.
    repeat split; auto. intros m Hin. inversion Hin.
  - rewrite (identification_request_sent _ _ _ _ _ Hp Hs Hc Hrc).
    eexists. eexists. exists [Ev_nas_start_T3470 (ident_ue_id p) proc]. eexists. simpl.
    split; [reflexivity|]. split; [reflexivity|]. split.
    + intros m Hin. apply list_elem_of_singleton in Hin. discriminate.
    + split; [apply lookup_insert_eq|]. repeat split.
Qed.


(** ** Running the operations on a world *)

Lemma load_ctx_Ret w p c : emm_contexts w !! p = Some c -> load_ctx p w = Ret c w.
Proof. intros H. unfold load_ctx. now rewrite H. Qed.

Lemma load_ident_Ret w q p : procs w !! q = Some (IdentProc p) -> load_ident q w = Ret p w.
Proof. intros H. unfold load_ident. now rewrite H. Qed.

Lemma load_specific_Ret w q sp :
  procs w !! q = Some (SpecificProc sp) -> load_specific (Some q) w = Ret (q, sp) w.
Proof. intros H. unfold load_specific. now rewrite H. Qed.

Lemma upd_ctx_Ret w p c f :
  emm_contexts w !! p = Some c ->
  upd_ctx p f w = Ret tt (set_emm_contexts w (<[p:=f c]> (emm_contexts w))).
Proof. intros H. unfold upd_ctx. now rewrite (bind_Ret _ _ _ _ _ (load_ctx_Ret _ _ _ H)). Qed.

Lemma upd_ident_Ret w q p f :
  procs w !! q = Some (IdentProc p) ->
  upd_ident q f w = Ret tt (set_procs w (<[q:=IdentProc (f p)]> (procs w))).
Proof.
  intros H. unfold upd_ident. now rewrite (bind_Ret _ _ _ _ _ (load_ident_Ret _ _ _ H)).
Qed.

Lemma upd_specific_Ret w q sp f :
  procs w !! q = Some (SpecificProc sp) ->
  upd_specific (Some q) f w = Ret tt (set_procs w (<[q:=SpecificProc (f sp)]> (procs w))).
Proof.
  intros H. unfold upd_specific.
  now rewrite (bind_Ret _ _ _ _ _ (load_specific_Ret _ _ _ H)).
Qed.

Lemma get_nas_common_procedure_identification_Ret w ctx c :
  emm_contexts w !! ctx = Some c ->
  get_nas_common_procedure_identification ctx w = Ret (ident_proc_of w ctx) w.
Proof.
  intros H. unfold get_nas_common_procedure_identification, ident_proc_of.
  rewrite (bind_Ret _ _ _ _ _ (load_ctx_Ret _ _ _ H)). now rewrite H.
Qed.

Lemma ident_proc_of_is_ident w ctx q :
  ident_proc_of w ctx = Some q -> exists p, procs w !! q = Some (IdentProc p).
Proof.
  unfold ident_proc_of. destruct (emm_contexts w !! ctx); [|discriminate].
  apply find_ident_is_ident.
Qed.

Lemma nas_stop_T3470_Ret w ue q p :
  procs w !! q = Some (IdentProc p) ->
  nas_stop_T3470 ue q w =
  Ret tt (mk_World (emm_contexts w)
            (<[q:=IdentProc (set_T3470 p (set_timer_id (T3470 p) NAS_TIMER_INACTIVE_ID))]>
               (procs w))
            (_emm_data w) (mme_ue_contexts w) (next_timer_id w) (next_puid w)
            (trace w ++ [Ev_nas_stop_T3470 ue q])).
Proof.
  intros H. unfold nas_stop_T3470.
  now rewrite (bind_Ret _ _ _ _ _ (upd_ident_Ret _ _ _ _ H)).
Qed.

(** ** The timeout handler *)

Lemma uint_incr_below n : 0 <= n < UINT_MAX -> uint_incr n = n + 1.
Proof. intros H. unfold uint_incr. apply Z.mod_small. unfold UINT_MAX in *. lia. Qed.

Lemma uint_incr_range n : 0 <= uint_incr n <= UINT_MAX.
Proof.
  unfold uint_incr.
  assert (H : 0 <= (n + 1) mod (UINT_MAX + 1) < UINT_MAX + 1)
    by (apply Z.mod_pos_bound; unfold UINT_MAX; lia).
  lia.
Qed.

Lemma uint_incr_mod a :
  uint_incr (a mod (UINT_MAX + 1)) = (a + 1) mod (UINT_MAX + 1).
Proof. unfold uint_incr. apply Zplus_mod_idemp_l. Qed.

(** The counter after [n] timeouts. *)
Lemma iter_uint_incr_below n k :
  0 <= k -> k + Z.of_nat n <= UINT_MAX -> Nat.iter n uint_incr k = k + Z.of_nat n.
Proof.
  induction n as [|n IH]; intros Hk Hn.
  - simpl. lia.
  - rewrite Nat.iter_succ, IH by lia. rewrite uint_incr_below by lia. lia.
Qed.

Lemma iter_uint_incr_0 n :
  Nat.iter n uint_incr 0 = Z.of_nat n mod (UINT_MAX + 1).
Proof.
  induction n as [|n IH].
  - reflexivity.
  - rewrite Nat.iter_succ, IH, uint_incr_mod. f_equal. lia.
Qed.

Lemma iter_uint_incr_0_le n : Nat.iter n uint_incr 0 <= Z.of_nat n.
Proof.
  rewrite iter_uint_incr_0. apply Z.mod_le; [lia|]. unfold UINT_MAX. lia.
Qed.

(** The procedure as the handler leaves it before it tests the counter. *)
Lemma identification_t3470_handler_prefix w ctx c q p :
  emm_contexts w !! ctx = Some c ->
  ident_proc_of w ctx = Some q ->
  procs w !! q = Some (IdentProc p) ->
  _identification_t3470_handler (Some ctx) w =
  let p' := set_retransmission_count
              (set_T3470 p (set_timer_id (T3470 p) NAS_TIMER_INACTIVE_ID))
              (uint_incr (retransmission_count p)) in
  let w' := set_procs w (<[q:=IdentProc p']> (procs w)) in
  if uint_incr (retransmission_count p) <? IDENTIFICATION_COUNTER_MAX
  then (let* _ := _identification_request q in ret tt) w'
  else identification_abort_on_timeout ctx q p' w'.
Proof.
  intros Hc Hq Hp. unfold _identification_t3470_handler.
  rewrite (bind_Ret _ _ _ _ _ (get_nas_common_procedure_identification_Ret _ _ _ Hc)).
  rewrite Hq.
  rewrite (bind_Ret _ _ _ _ _ (upd_ident_Ret _ _ _ _ Hp)).
  erewrite bind_Ret by (apply upd_ident_Ret; simpl; apply lookup_insert_eq).
  erewrite bind_Ret by (apply load_ident_Ret; simpl; apply lookup_insert_eq).
  simpl. rewrite insert_insert_eq.
  destruct (_ <? _); reflexivity.
Qed.


Lemma lookup_foldr_delete_elem (m : gmap ptr nas_proc_t) (l : list ptr) x :
  x ∈ l -> foldr (fun q m => delete q m) m l !! x = None.
Proof.
  induction l as [|a l IH]; intros Hin; [inversion Hin|]. simpl.
  destruct (decide (a = x)) as [->|Hne].
  - apply lookup_delete_eq.
  - rewrite lookup_delete_ne by done. apply IH.
    apply elem_of_cons in Hin as [->|]; [done|assumption].
Qed.

Lemma ident_proc_of_elem w ctx c q :
  emm_contexts w !! ctx = Some c -> ident_proc_of w ctx = Some q ->
  q ∈ emm_common_procs c.
Proof.
  intros Hc. unfold ident_proc_of. rewrite Hc. intros H.
  apply find_some in H as [H _]. now apply list_elem_of_In.
Qed.

(** The abort of a procedure of the context: the primitive is delivered and
    the procedures are released; the read of [ident_proc->ue_id] that
    follows finds no object. *)
Lemma identification_abort_on_timeout_Fatal w ctx c q p :
  emm_contexts w !! ctx = Some c ->
  q ∈ emm_common_procs c ->
  identification_abort_on_timeout ctx q p w =
  Fatal
    (mk_World (<[ctx:=set_emm_common_procs c []]> (emm_contexts w))
       (foldr (fun x m => delete x m) (procs w) (emm_common_procs c))
       (_emm_data w) (mme_ue_contexts w) (next_timer_id w) (next_puid w)
       (trace w ++
        [Ev_emm_sap_send (common_proc_abort_sap (ident_ue_id p) ctx q
                            (previous_emm_fsm_state p))])).
Proof.
  intros Hc Hin.
  unfold identification_abort_on_timeout, nas_delete_all_emm_procedures,
    emm_sap_send, store_ctx, modify, bind, load_ctx, load_ident, ret.
  simpl. rewrite Hc. simpl.
  rewrite (lookup_foldr_delete_elem _ _ _ Hin). reflexivity.
Qed.

(** The handler at the maximum. *)
Lemma identification_t3470_handler_abort w ctx q c p :
  emm_contexts w !! ctx = Some c ->
  ident_proc_of w ctx = Some q ->
  procs w !! q = Some (IdentProc p) ->
  IDENTIFICATION_COUNTER_MAX <= uint_incr (retransmission_count p) ->
  _identification_t3470_handler (Some ctx) w =
  Fatal
    (mk_World (<[ctx:=set_emm_common_procs c []]> (emm_contexts w))
       (foldr (fun x m => delete x m)
          (<[q:=IdentProc
                  (set_retransmission_count
                     (set_T3470 p (set_timer_id (T3470 p) NAS_TIMER_INACTIVE_ID))
                     (uint_incr (retransmission_count p)))]> (procs w))
          (emm_common_procs c))
       (_emm_data w) (mme_ue_contexts w) (next_timer_id w) (next_puid w)
       (trace w ++
        [Ev_emm_sap_send (common_proc_abort_sap (ident_ue_id p) ctx q
                            (previous_emm_fsm_state p))])).
Proof.
  intros Hc Hq Hp Hmax.
  rewrite (identification_t3470_handler_prefix _ _ _ _ _ Hc Hq Hp). cbv zeta.
  apply Z.ltb_ge in Hmax. rewrite Hmax.
  rewrite (identification_abort_on_timeout_Fatal _ _ c) by
    (try exact Hc; now apply ident_proc_of_elem with (w := w) (ctx := ctx)).
  reflexivity.
Qed.

(** C3. When a timeout brings the counter to the maximum, the handler
    delivers EMMREG_COMMON_PROC_ABORT and releases every common procedure of
    the context.  It then reads the identifier of the subscriber through the
    pointer to the Identification procedure, which it has just released: the
    run stops there, and neither EMMCN_IMPLICIT_DETACH_UE nor the detach
    indication to the application layer is delivered. *)
Theorem identification_t3470_abort_at_maximum
    (w : World) (ctx q : ptr) (c : emm_data_context_t) (p : nas_emm_ident_proc_t)
    (Hc : emm_contexts w !! ctx = Some c)
    (Hq : ident_proc_of w ctx = Some q)
    (Hp : procs w !! q = Some (IdentProc p))
    (Hrange : 0 <= retransmission_count p < UINT_MAX)
    (Hmax : IDENTIFICATION_COUNTER_MAX <= retransmission_count p + 1) :
  let o := _identification_t3470_handler (Some ctx) w in
  exists w',
    o = Fatal w' /\
    new_events w o =
      [Ev_emm_sap_send (common_proc_abort_sap (ident_ue_id p) ctx q
                          (previous_emm_fsm_state p))] /\
    (exists c', emm_contexts w' !! ctx = Some c' /\ emm_common_procs c' = []) /\
    (forall x, x ∈ emm_common_procs c -> procs w' !! x = None) /\
    ident_proc_of w' ctx = None /\
    _emm_data w' = _emm_data w /\
    (forall m, primitive m = EMMCN_IMPLICIT_DETACH_UE -> Ev_emm_sap_send m ∉ new_events w o) /\
    (forall ue clr, Ev_nas_itti_esm_detach_ind ue clr ∉ new_events w o).
Proof.
  intros o. subst o.
  rewrite (identification_t3470_handler_abort w ctx q c p Hc Hq Hp)
    by (rewrite uint_incr_below by exact Hrange; exact Hmax).
  eexists. split; [reflexivity|].
  erewrite new_events_app by (simpl; reflexivity).
  simpl. split; [reflexivity|]. split; [|split; [|split; [|split; [|split]]]].
  - eexists. split; [apply lookup_insert_eq|reflexivity].
  - intros x Hx. now apply lookup_foldr_delete_elem.
  - unfold ident_proc_of. simpl. now rewrite lookup_insert_eq.
  - reflexivity.
  - intros m Hm Hin. apply list_elem_of_singleton in Hin. injection Hin as ->.
    discriminate Hm.
  - intros ue clr Hin. apply list_elem_of_singleton in Hin. discriminate Hin.
Qed.


(** ** Retransmissions *)

Lemma ident_proc_of_insert_ident w ctx q p p' :
  procs w !! q = Some (IdentProc p) ->
  ident_proc_of (set_procs w (<[q:=IdentProc p']> (procs w))) ctx = ident_proc_of w ctx.
Proof.
  intros Hp. unfold ident_proc_of. simpl.
  destruct (emm_contexts w !! ctx); [|reflexivity].
  now apply find_ident_insert with (p := p).
Qed.

(** A timeout below the maximum, for a context the store knows: the request
    is delivered again, and T3470 is started when the delivery did not
    report an error. *)
Lemma identification_t3470_handler_resend w ctx c q p :
  emm_contexts w !! ctx = Some c ->
  ident_proc_of w ctx = Some q ->
  procs w !! q = Some (IdentProc p) ->
  ctx_coll_ue_id (_emm_data w) !! ident_ue_id p = Some ctx ->
  uint_incr (retransmission_count p) < IDENTIFICATION_COUNTER_MAX ->
  let msg := identity_request_sap p c in
  let p1 := set_retransmission_count
              (set_T3470 p (set_timer_id (T3470 p) NAS_TIMER_INACTIVE_ID))
              (uint_incr (retransmission_count p)) in
  exists w',
    _identification_t3470_handler (Some ctx) w = Ret tt w' /\
    emm_contexts w' = emm_contexts w /\
    _emm_data w' = _emm_data w /\
    ident_proc_of w' ctx = Some q /\
    if emm_sap_send_rc (trace w) msg =? RETURNerror
    then procs w' = <[q:=IdentProc p1]> (procs w) /\
         trace w' = trace w ++ [Ev_emm_sap_send msg]
    else (exists t, procs w' = <[q:=IdentProc (set_T3470 p1 t)]> (procs w) /\
                    nas_timer_id t <> NAS_TIMER_INACTIVE_ID) /\
         trace w' = trace w ++ [Ev_emm_sap_send msg; Ev_nas_start_T3470 (ident_ue_id p) q].
Proof.
  intros Hc Hq Hp Hs Hlt msg p1.
  rewrite (identification_t3470_handler_prefix _ _ _ _ _ Hc Hq Hp). cbv zeta.
  apply Z.ltb_lt in Hlt. rewrite Hlt. fold p1.
  set (w1 := set_procs w (<[q:=IdentProc p1]> (procs w))).
  assert (Hp1 : procs w1 !! q = Some (IdentProc p1)) by apply lookup_insert_eq.
  assert (Hi1 : ident_proc_of w1 ctx = Some q)
    by (rewrite <- Hq; apply (ident_proc_of_insert_ident w ctx q p _ Hp)).
  destruct (emm_sap_send_rc (trace w) msg =? RETURNerror) eqn:Erc.
  - apply Z.eqb_eq in Erc.
    rewrite (bind_Ret _ _ _ _ _
               (identification_request_refused w1 q p1 ctx c Hp1 Hs Hc Erc)).
    eexists. split; [reflexivity|]. simpl. auto.
  - apply Z.eqb_neq in Erc.
    rewrite (bind_Ret _ _ _ _ _
               (identification_request_sent w1 q p1 ctx c Hp1 Hs Hc Erc)).
    eexists. split; [reflexivity|]. simpl. rewrite insert_insert_eq.
    split; [reflexivity|]. split; [reflexivity|]. split.
    + rewrite <- Hq. unfold ident_proc_of. simpl.
      destruct (emm_contexts w !! ctx); [|reflexivity].
      now apply find_ident_insert with (p := p).
    + split; [|reflexivity]. eexists. split; [reflexivity|]. simpl.
      unfold NAS_TIMER_INACTIVE_ID. lia.
Qed.

Section Retransmission.

(** The access stratum accepts the requests it is handed. *)
Hypothesis Hsend :
  forall h m, primitive m = EMMAS_SECURITY_REQ -> emm_sap_send_rc h m <> RETURNerror.

Lemma identification_t3470_handler_retry w ctx q ue k msg :
  awaiting_response w ctx q ue k msg ->
  uint_incr k < IDENTIFICATION_COUNTER_MAX ->
  exists w',
    _identification_t3470_handler (Some ctx) w = Ret tt w' /\
    awaiting_response w' ctx q ue (uint_incr k) msg /\
    trace w' = trace w ++ [Ev_emm_sap_send msg; Ev_nas_start_T3470 ue q].
Proof.
  intros (c & p & Hc & Hq & Hp & Hue & Hs & Hk & Ht & Hm) Hlt.
  subst k ue.
  destruct (identification_t3470_handler_resend w ctx c q p Hc Hq Hp Hs Hlt)
    as (w' & E & Hc' & Hd' & Hq' & Hcase).
  assert (Hrc : emm_sap_send_rc (trace w) (identity_request_sap p c) <> RETURNerror)
    by now apply Hsend.
  apply Z.eqb_neq in Hrc. rewrite Hrc in Hcase.
  destruct Hcase as ((t & Hprocs & Ht') & Htr).
  exists w'. split; [exact E|]. split.
  - exists c. eexists. rewrite Hc', Hd', Hprocs.
    split; [exact Hc|]. split; [exact Hq'|]. split; [apply lookup_insert_eq|].
    simpl. repeat split; auto.
  - now rewrite <- Hm.
Qed.

(** The handler at the maximum, for a context that awaits a response. *)
Lemma identification_t3470_handler_last w ctx q ue k msg :
  awaiting_response w ctx q ue k msg ->
  IDENTIFICATION_COUNTER_MAX <= uint_incr k ->
  exists w' prev,
    _identification_t3470_handler (Some ctx) w = Fatal w' /\
    ident_proc_of w' ctx = None /\
    procs w' !! q = None /\
    trace w' = trace w ++ [Ev_emm_sap_send (common_proc_abort_sap ue ctx q prev)].
Proof.
  intros (c & p & Hc & Hq & Hp & Hue & Hs & Hk & Ht & Hm) Hge.
  subst k ue.
  rewrite (identification_t3470_handler_abort w ctx q c p Hc Hq Hp Hge).
  eexists. exists (previous_emm_fsm_state p). split; [reflexivity|]. simpl.
  split; [|split; [|reflexivity]].
  - unfold ident_proc_of. simpl. now rewrite lookup_insert_eq.
  - apply lookup_foldr_delete_elem. now apply ident_proc_of_elem with (w := w) (ctx := ctx).
Qed.

Lemma timeouts_retry n : forall w ctx q ue k msg,
  awaiting_response w ctx q ue k msg ->
  (forall j, (j < n)%nat -> Nat.iter (S j) uint_incr k < IDENTIFICATION_COUNTER_MAX) ->
  exists w',
    timeouts n (Some ctx) w = Ret tt w' /\
    awaiting_response w' ctx q ue (Nat.iter n uint_incr k) msg /\
    trace w' = trace w ++
               concat (replicate n [Ev_emm_sap_send msg; Ev_nas_start_T3470 ue q]).
Proof.
  induction n as [|n IH]; intros w ctx q ue k msg Ha Hlt.
  - exists w. simpl. rewrite app_nil_r. auto.
  - destruct (identification_t3470_handler_retry w ctx q ue k msg Ha) as (w1 & E1 & A1 & T1).
    { apply (Hlt 0%nat). lia. }
    destruct (IH w1 ctx q ue (uint_incr k) msg A1) as (w2 & E2 & A2 & T2).
    { intros j Hj. rewrite <- Nat.iter_succ_r. apply Hlt. lia. }
    exists w2. split; [|split].
    + simpl. rewrite (bind_Ret _ _ _ _ _ E1). exact E2.
    + rewrite Nat.iter_succ_r. exact A2.
    + rewrite T2, T1. simpl. now rewrite <- app_assoc.
Qed.

(** [n] timeouts that leave the counter below the maximum, when the counter
    does not reach the top of its range. *)
Lemma timeouts_retry_below n w ctx q ue k msg :
  awaiting_response w ctx q ue k msg ->
  0 <= k ->
  k + Z.of_nat n < IDENTIFICATION_COUNTER_MAX ->
  k + Z.of_nat n <= UINT_MAX ->
  exists w',
    timeouts n (Some ctx) w = Ret tt w' /\
    awaiting_response w' ctx q ue (k + Z.of_nat n) msg /\
    trace w' = trace w ++
               concat (replicate n [Ev_emm_sap_send msg; Ev_nas_start_T3470 ue q]).
Proof.
  intros Ha Hk Hlt Hle.
  destruct (timeouts_retry n w ctx q ue k msg Ha) as (w' & E & A & T).
  { intros j Hj. rewrite iter_uint_incr_below by lia. lia. }
  rewrite iter_uint_incr_below in A by lia.
  exists w'. auto.
Qed.

(** [n] timeouts after a start, with [n] below the maximum. *)
Lemma timeouts_retry_from_0 n w ctx q ue msg :
  awaiting_response w ctx q ue 0 msg ->
  Z.of_nat n < IDENTIFICATION_COUNTER_MAX ->
  exists w',
    timeouts n (Some ctx) w = Ret tt w' /\
    awaiting_response w' ctx q ue (Nat.iter n uint_incr 0) msg /\
    trace w' = trace w ++
               concat (replicate n [Ev_emm_sap_send msg; Ev_nas_start_T3470 ue q]).
Proof.
  intros Ha Hlt. apply timeouts_retry; [exact Ha|].
  intros j Hj. pose proof (iter_uint_incr_0_le (S j)). lia.
Qed.

Lemma timeouts_snoc n args w w1 :
  timeouts n args w = Ret tt w1 ->
  timeouts (S n) args w = _identification_t3470_handler args w1.
Proof.
  revert w. induction n as [|n IH]; intros w E.
  - injection E as ->.
    change (timeouts 1 args w1)
      with ((let* _ := _identification_t3470_handler args in ret tt) w1).
    unfold bind. now destruct (_identification_t3470_handler args w1) as [[] w2|w2].
  - change (timeouts (S n) args w)
      with ((let* _ := _identification_t3470_handler args in timeouts n args) w) in E.
    change (timeouts (S (S n)) args w)
      with ((let* _ := _identification_t3470_handler args in timeouts (S n) args) w).
    unfold bind at 1. unfold bind at 1 in E.
    destruct (_identification_t3470_handler args w) as [[] w0|w0]; [|discriminate].
    now apply IH.
Qed.

Lemma timeouts_until_abort n : forall w ctx q ue k msg,
  awaiting_response w ctx q ue k msg ->
  0 <= k ->
  k + Z.of_nat n + 1 = IDENTIFICATION_COUNTER_MAX ->
  IDENTIFICATION_COUNTER_MAX <= UINT_MAX ->
  exists w' prev,
    timeouts (S n) (Some ctx) w = Fatal w' /\
    ident_proc_of w' ctx = None /\
    procs w' !! q = None /\
    trace w' = trace w ++
               concat (replicate n [Ev_emm_sap_send msg; Ev_nas_start_T3470 ue q]) ++
               [Ev_emm_sap_send (common_proc_abort_sap ue ctx q prev)].
Proof.
  intros w ctx q ue k msg Ha Hk Heq Hle.
  destruct (timeouts_retry_below n w ctx q ue k msg Ha) as (w1 & E1 & A1 & T1); [lia..|].
  destruct (identification_t3470_handler_last w1 ctx q ue _ msg A1)
    as (w2 & prev & E2 & I2 & P2 & T2).
  { rewrite uint_incr_below by lia. lia. }
  exists w2, prev. split; [|split; [exact I2|split; [exact P2|]]].
  - rewrite (timeouts_snoc _ _ _ _ E1). exact E2.
  - rewrite T2, T1. now rewrite <- app_assoc.
Qed.

End Retransmission.


(** ** Starting the procedure *)

Lemma nas_new_identification_procedure_Ret w ctx c :
  emm_contexts w !! ctx = Some c ->
  let q := fresh (dom (procs w)) in
  nas_new_identification_procedure ctx w =
  Ret q (mk_World (<[ctx:=set_emm_common_procs c (q :: emm_common_procs c)]> (emm_contexts w))
           (<[q:=IdentProc (new_ident_proc (next_puid w))]> (procs w))
           (_emm_data w) (mme_ue_contexts w) (next_timer_id w) (next_puid w + 1)
           (trace w)).
Proof.
  intros Hc q. unfold nas_new_identification_procedure.
  rewrite (bind_Ret _ _ _ _ _ (load_ctx_Ret _ _ _ Hc)). reflexivity.
Qed.

Lemma get_or_new_identification_procedure_found w ctx c q :
  emm_contexts w !! ctx = Some c ->
  ident_proc_of w ctx = Some q ->
  get_or_new_identification_procedure ctx w = Ret q w.
Proof.
  intros Hc Hq. unfold get_or_new_identification_procedure.
  rewrite (bind_Ret _ _ _ _ _ (get_nas_common_procedure_identification_Ret _ _ _ Hc)).
  now rewrite Hq.
Qed.

Lemma get_or_new_identification_procedure_new w ctx c :
  emm_contexts w !! ctx = Some c ->
  ident_proc_of w ctx = None ->
  let q := fresh (dom (procs w)) in
  get_or_new_identification_procedure ctx w =
  Ret q (mk_World (<[ctx:=set_emm_common_procs c (q :: emm_common_procs c)]> (emm_contexts w))
           (<[q:=IdentProc (new_ident_proc (next_puid w))]> (procs w))
           (_emm_data w) (mme_ue_contexts w) (next_timer_id w) (next_puid w + 1)
           (trace w)).
Proof.
  intros Hc Hq q. unfold get_or_new_identification_procedure.
  rewrite (bind_Ret _ _ _ _ _ (get_nas_common_procedure_identification_Ret _ _ _ Hc)).
  rewrite Hq. now apply nas_new_identification_procedure_Ret.
Qed.

(** Whether it was found or allocated, the procedure is live and is the one
    the context is known by. *)
Lemma get_or_new_identification_procedure_Ret w ctx c :
  emm_contexts w !! ctx = Some c ->
  exists q p0 c1 w1,
    get_or_new_identification_procedure ctx w = Ret q w1 /\
    emm_contexts w1 !! ctx = Some c1 /\
    procs w1 !! q = Some (IdentProc p0) /\
    ident_proc_of w1 ctx = Some q /\
    ue_id c1 = ue_id c /\
    _emm_fsm_state c1 = _emm_fsm_state c /\
    _security c1 = _security c /\
    _emm_data w1 = _emm_data w /\
    trace w1 = trace w.
Proof.
  intros Hc. destruct (ident_proc_of w ctx) as [q|] eqn:Hq.
  - destruct (ident_proc_of_is_ident _ _ _ Hq) as [p0 Hp].
    exists q, p0, c, w.
    rewrite (get_or_new_identification_procedure_found _ _ _ _ Hc Hq). auto 10.
  - rewrite (get_or_new_identification_procedure_new _ _ _ Hc Hq). cbv zeta.
    eexists. eexists. eexists. eexists. split; [reflexivity|]. simpl.
    split; [apply lookup_insert_eq|]. split; [apply lookup_insert_eq|].
    split; [|auto 10].
    unfold ident_proc_of. simpl. rewrite lookup_insert_eq. simpl.
    now rewrite lookup_insert_eq.
Qed.

Lemma emm_fsm_get_state_Ret w ctx c :
  emm_contexts w !! ctx = Some c -> emm_fsm_get_state ctx w = Ret (_emm_fsm_state c) w.
Proof.
  intros Hc. unfold emm_fsm_get_state. now rewrite (bind_Ret _ _ _ _ _ (load_ctx_Ret _ _ _ Hc)).
Qed.

Lemma identification_setup_and_send_sent w ctx c q p0 ue emm_proc type success failure :
  emm_contexts w !! ctx = Some c ->
  procs w !! q = Some (IdentProc p0) ->
  ctx_coll_ue_id (_emm_data w) !! ue = Some ctx ->
  let pin := init_ident_proc p0 type ue emm_proc (_emm_fsm_state c) success failure in
  let msg := identity_request_sap pin c in
  emm_sap_send_rc (trace w) msg <> RETURNerror ->
  identification_setup_and_send ctx ue q emm_proc type success failure w =
  Ret (emm_sap_send_rc (trace w ++ [Ev_emm_sap_send msg; Ev_nas_start_T3470 ue q])
         (common_proc_req_sap ue ctx))
      (mk_World (emm_contexts w)
         (<[q:=IdentProc (set_T3470 pin (mk_nas_timer (Z.of_N (next_timer_id w))
                                           (Some CB_identification_t3470_handler)
                                           (Some ctx)))]> (procs w))
         (_emm_data w) (mme_ue_contexts w) (N.succ (next_timer_id w)) (next_puid w)
         (trace w ++ [Ev_emm_sap_send msg; Ev_nas_start_T3470 ue q;
                      Ev_emm_sap_send (common_proc_req_sap ue ctx)])).
Proof.
  intros Hc Hp Hs pin msg Hrc. unfold identification_setup_and_send.
  rewrite (bind_Ret _ _ _ _ _ (emm_fsm_get_state_Ret _ _ _ Hc)).
  rewrite (bind_Ret _ _ _ _ _ (upd_ident_Ret _ _ _ _ Hp)).
  erewrite bind_Ret.
  2:{ apply identification_request_sent with (cp := ctx) (c := c); simpl.
      - apply lookup_insert_eq.
      - exact Hs.
      - exact Hc.
      - exact Hrc. }
  fold pin. fold msg. simpl.
  apply Z.eqb_neq in Hrc. rewrite Hrc. simpl.
  unfold emm_sap_send. simpl. rewrite insert_insert_eq, <- app_assoc. reflexivity.
Qed.

Lemma ident_proc_of_same_heap w w' ctx q p p' :
  emm_contexts w' = emm_contexts w ->
  procs w' = <[q:=IdentProc p']> (procs w) ->
  procs w !! q = Some (IdentProc p) ->
  ident_proc_of w' ctx = ident_proc_of w ctx.
Proof.
  intros Hc Hp Hq. unfold ident_proc_of. rewrite Hc, Hp.
  destruct (emm_contexts w !! ctx); [|reflexivity].
  now apply find_ident_insert with (p := p).
Qed.

(** A successful start leaves the context awaiting a response, with the
    counter at 0. *)
Lemma emm_proc_identification_sent w ctx c emm_proc type success failure :
  (forall h m, primitive m = EMMAS_SECURITY_REQ -> emm_sap_send_rc h m <> RETURNerror) ->
  emm_contexts w !! ctx = Some c ->
  common_procedure_permitted (_emm_fsm_state c) = true ->
  ctx_coll_ue_id (_emm_data w) !! ue_id c = Some ctx ->
  exists rc w' q msg,
    emm_proc_identification (Some ctx) emm_proc type success failure w = Ret rc w' /\
    awaiting_response w' ctx q (ue_id c) 0 msg /\
    primitive msg = EMMAS_SECURITY_REQ /\
    trace w' = trace w ++ [Ev_emm_sap_send msg; Ev_nas_start_T3470 (ue_id c) q;
                           Ev_emm_sap_send (common_proc_req_sap (ue_id c) ctx)].
Proof.
  intros Hsend Hc Hperm Hs. unfold emm_proc_identification.
  rewrite (bind_Ret _ _ _ _ _ (load_ctx_Ret _ _ _ Hc)). rewrite Hperm.
  destruct (get_or_new_identification_procedure_Ret w ctx c Hc)
    as (q & p0 & c1 & w1 & E1 & Hc1 & Hp1 & Hq1 & Hue & Hst & Hsec & Hd & Ht).
  rewrite (bind_Ret _ _ _ _ _ E1).
  rewrite (identification_setup_and_send_sent w1 ctx c1 q p0 (ue_id c)); auto.
  2:{ now rewrite Hd. }
  eexists. eexists. exists q.
  exists (identity_request_sap
            (init_ident_proc p0 type (ue_id c) emm_proc (_emm_fsm_state c1) success failure)
            c1).
  split; [reflexivity|]. simpl.
  split; [|split; [reflexivity|now rewrite Ht]].
  exists c1. eexists. split; [exact Hc1|]. split.
  - rewrite <- Hq1. eapply ident_proc_of_same_heap; [reflexivity|reflexivity|exact Hp1].
  - simpl. split; [apply lookup_insert_eq|]. simpl. rewrite Hd.
    repeat split; auto. unfold NAS_TIMER_INACTIVE_ID. lia.
Qed.

(** C1. A timeout for a context that awaits a response with the counter at
    [k], not at the top of its range, brings the counter to [k + 1].  When
    that is below the maximum the request is delivered again and the
    procedure stays the one of the context; T3470 is started again when the
    delivery did not report an error, and is left disarmed when it did.
    When [k + 1] is not below the maximum the handler delivers
    EMMREG_COMMON_PROC_ABORT and the procedure is released.  Hence, with an
    access stratum that accepts the requests and a maximum between 1 and
    [UINT_MAX], after a start each of the first [max - 1] timeouts resends
    and restarts T3470, and the [max]-th one delivers
    EMMREG_COMMON_PROC_ABORT and leaves the context without its
    Identification procedure. *)
Theorem identification_t3470_retransmits_then_aborts
    (Hmax : 1 <= IDENTIFICATION_COUNTER_MAX <= UINT_MAX) :
  (forall w ctx q ue k msg,
     awaiting_response w ctx q ue k msg ->
     0 <= k < UINT_MAX ->
     let o := _identification_t3470_handler (Some ctx) w in
     if k + 1 <? IDENTIFICATION_COUNTER_MAX
     then exists w' p',
            o = Ret tt w' /\
            ident_proc_of w' ctx = Some q /\
            procs w' !! q = Some (IdentProc p') /\
            retransmission_count p' = k + 1 /\
            if emm_sap_send_rc (trace w) msg =? RETURNerror
            then trace w' = trace w ++ [Ev_emm_sap_send msg] /\
                 nas_timer_id (T3470 p') = NAS_TIMER_INACTIVE_ID
            else trace w' = trace w ++ [Ev_emm_sap_send msg; Ev_nas_start_T3470 ue q] /\
                 awaiting_response w' ctx q ue (k + 1) msg
     else ident_proc_of (world_of o) ctx = None /\
          procs (world_of o) !! q = None /\
          exists prev l,
            trace (world_of o) =
            trace w ++ Ev_emm_sap_send (common_proc_abort_sap ue ctx q prev) :: l) /\
  ((forall h m, primitive m = EMMAS_SECURITY_REQ -> emm_sap_send_rc h m <> RETURNerror) ->
   forall w ctx c emm_proc type success failure,
     emm_contexts w !! ctx = Some c ->
     common_procedure_permitted (_emm_fsm_state c) = true ->
     ctx_coll_ue_id (_emm_data w) !! ue_id c = Some ctx ->
     exists rc w0 q msg,
       emm_proc_identification (Some ctx) emm_proc type success failure w = Ret rc w0 /\
       awaiting_response w0 ctx q (ue_id c) 0 msg /\
       (forall n, Z.of_nat n < IDENTIFICATION_COUNTER_MAX ->
          exists wn,
            timeouts n (Some ctx) w0 = Ret tt wn /\
            awaiting_response wn ctx q (ue_id c) (Z.of_nat n) msg /\
            trace wn = trace w0 ++
                       concat (replicate n [Ev_emm_sap_send msg;
                                            Ev_nas_start_T3470 (ue_id c) q])) /\
       let omax := timeouts (Z.to_nat IDENTIFICATION_COUNTER_MAX) (Some ctx) w0 in
       ident_proc_of (world_of omax) ctx = None /\
       procs (world_of omax) !! q = None /\
       exists prev l,
         trace (world_of omax) =
         trace w0 ++
         concat (replicate (Z.to_nat (IDENTIFICATION_COUNTER_MAX - 1))
                   [Ev_emm_sap_send msg; Ev_nas_start_T3470 (ue_id c) q]) ++
         Ev_emm_sap_send (common_proc_abort_sap (ue_id c) ctx q prev) :: l).
Proof.
  split.
  - intros w ctx q ue k msg Ha Hk o. subst o.
    pose proof (uint_incr_below k Hk) as Hinc.
    destruct Ha as (c & p & Hc & Hq & Hp & Hue & Hs & Hcnt & Ht & Hm).
    destruct (k + 1 <? IDENTIFICATION_COUNTER_MAX) eqn:E.
    + apply Z.ltb_lt in E. subst k ue.
      destruct (identification_t3470_handler_resend w ctx c q p Hc Hq Hp Hs)
        as (w' & E1 & Hc' & Hd' & Hq' & Hcase); [lia|].
      rewrite Hm in Hcase.
      destruct (emm_sap_send_rc (trace w) msg =? RETURNerror).
      * destruct Hcase as (Hprocs & Htr).
        exists w'. eexists. split; [exact E1|]. split; [exact Hq'|].
        split; [rewrite Hprocs; apply lookup_insert_eq|]. simpl.
        split; [exact Hinc|]. split; [exact Htr|reflexivity].
      * destruct Hcase as ((t & Hprocs & Ht') & Htr).
        exists w'. eexists. split; [exact E1|]. split; [exact Hq'|].
        split; [rewrite Hprocs; apply lookup_insert_eq|]. simpl.
        split; [exact Hinc|]. split; [exact Htr|].
        exists c. eexists. rewrite Hc', Hd', Hprocs.
        split; [exact Hc|]. split; [exact Hq'|]. split; [apply lookup_insert_eq|].
        simpl. repeat split; auto.
    + apply Z.ltb_ge in E. subst k ue.
      rewrite (identification_t3470_handler_abort w ctx q c p Hc Hq Hp) by lia.
      simpl. split; [|split].
      * unfold ident_proc_of. simpl. now rewrite lookup_insert_eq.
      * apply lookup_foldr_delete_elem.
        now apply ident_proc_of_elem with (w := w) (ctx := ctx).
      * now exists (previous_emm_fsm_state p), [].
  - intros Hsend w ctx c emm_proc type success failure Hc Hperm Hs.
    destruct (emm_proc_identification_sent w ctx c emm_proc type success failure
                Hsend Hc Hperm Hs) as (rc & w0 & q & msg & E0 & A0 & _ & _).
    exists rc, w0, q, msg. split; [exact E0|]. split; [exact A0|]. split.
    + intros n Hn.
      destruct (timeouts_retry_below Hsend n w0 ctx q (ue_id c) 0 msg A0)
        as (wn & En & An & Tn); [lia..|].
      exists wn. auto.
    + destruct (timeouts_until_abort Hsend (Z.to_nat (IDENTIFICATION_COUNTER_MAX - 1))
                  w0 ctx q (ue_id c) 0 msg A0) as (wm & prev & Em & Im & Pm & Tm); [lia..|].
      replace (Z.to_nat IDENTIFICATION_COUNTER_MAX)
        with (S (Z.to_nat (IDENTIFICATION_COUNTER_MAX - 1))) by lia.
      cbv zeta. rewrite Em. simpl.
      split; [exact Im|]. split; [exact Pm|]. exists prev, []. exact Tm.
Qed.


Lemma set_T3470_same p : set_T3470 p (T3470 p) = p.
Proof. now destruct p. Qed.

(** Every way [identification_setup_and_send] can end, for a live context
    and a live procedure: the request was delivered and accepted, and then
    T3470 runs and EMM-REG was notified; or it was not, and then neither
    happened. *)
Lemma identification_setup_and_send_cases w ctx c q p0 ue emm_proc type success failure :
  emm_contexts w !! ctx = Some c ->
  procs w !! q = Some (IdentProc p0) ->
  let pin := init_ident_proc p0 type ue emm_proc (_emm_fsm_state c) success failure in
  let o := identification_setup_and_send ctx ue q emm_proc type success failure w in
  exists t n l,
    world_of o =
      mk_World (emm_contexts w) (<[q:=IdentProc (set_T3470 pin t)]> (procs w))
        (_emm_data w) (mme_ue_contexts w) n (next_puid w) (trace w ++ l) /\
    ((exists msg,
        primitive msg = EMMAS_SECURITY_REQ /\
        emm_sap_send_rc (trace w) msg <> RETURNerror /\
        l = [Ev_emm_sap_send msg; Ev_nas_start_T3470 ue q;
             Ev_emm_sap_send (common_proc_req_sap ue ctx)] /\
        returned o = Some (emm_sap_send_rc
                             (trace w ++ [Ev_emm_sap_send msg; Ev_nas_start_T3470 ue q])
                             (common_proc_req_sap ue ctx)) /\
        nas_timer_id t <> NAS_TIMER_INACTIVE_ID)
     \/
     ((l = [] \/ exists msg, emm_sap_send_rc (trace w) msg = RETURNerror /\
                             l = [Ev_emm_sap_send msg]) /\
      (returned o = Some RETURNerror \/
       (returned o = None /\
        exists cp, ctx_coll_ue_id (_emm_data w) !! ue = Some cp /\
                   emm_contexts w !! cp = None)) /\
      t = T3470 p0)).
Proof.
  intros Hc Hp pin o. subst o. unfold identification_setup_and_send.
  rewrite (bind_Ret _ _ _ _ _ (emm_fsm_get_state_Ret _ _ _ Hc)).
  rewrite (bind_Ret _ _ _ _ _ (upd_ident_Ret _ _ _ _ Hp)). fold pin.
  set (w2 := set_procs w (<[q:=IdentProc pin]> (procs w))).
  assert (Hp2 : procs w2 !! q = Some (IdentProc pin)) by apply lookup_insert_eq.
  destruct (ctx_coll_ue_id (_emm_data w) !! ue) as [cp|] eqn:Hs.
  2:{ rewrite (bind_Ret _ _ _ _ _ (identification_request_absent w2 q pin Hp2 Hs)).
      exists (T3470 p0), (next_timer_id w), []. simpl. rewrite app_nil_r. split.
      - reflexivity.
      - right. auto. }
  destruct (emm_contexts w !! cp) as [sc|] eqn:Hsc.
  2:{ exists (T3470 p0), (next_timer_id w), [].
      unfold bind, _identification_request, bind, load_ident, emm_data_context_get, load_ctx.
      rewrite Hp2. subst w2. simpl. rewrite Hs. simpl. rewrite Hsc. simpl.
      rewrite app_nil_r. split.
      - reflexivity.
      - right. split; [auto|]. split; [|reflexivity]. right. split; [reflexivity|].
        now exists cp. }
  destruct (Z.eq_dec (emm_sap_send_rc (trace w) (identity_request_sap pin sc)) RETURNerror)
    as [Hrc|Hrc].
  - rewrite (bind_Ret _ _ _ _ _ (identification_request_refused w2 q pin cp sc Hp2 Hs Hsc Hrc)).
    exists (T3470 p0), (next_timer_id w), [Ev_emm_sap_send (identity_request_sap pin sc)].
    simpl. split; [reflexivity|]. right. split; [right; eauto|]. auto.
  - rewrite (bind_Ret _ _ _ _ _ (identification_request_sent w2 q pin cp sc Hp2 Hs Hsc Hrc)).
    simpl. apply Z.eqb_neq in Hrc as Hrc'. rewrite Hrc'. simpl.
    eexists. eexists. eexists. split.
    + rewrite insert_insert_eq, <- app_assoc. reflexivity.
    + left. exists (identity_request_sap pin sc). simpl.
      repeat split; auto. unfold NAS_TIMER_INACTIVE_ID. lia.
Qed.

(** C6. For a context whose registration state is neither EMM_DEREGISTERED
    nor EMM_REGISTERED the start returns RETURNerror in the world it was
    called in: no side effect.  When the state is one of the two, either the
    initial request was delivered and accepted, and then the calls of the
    start are the request, the start of T3470 and the notification
    EMMREG_COMMON_PROC_REQ to the registration layer; or it was not, and then
    the start makes no further call and does not return a result other than
    RETURNerror. *)
Theorem emm_proc_identification_state_gate
    (w : World) (ctx : ptr) (c : emm_data_context_t) (emm_proc : option ptr)
    (type : identity_type2_t) (success failure : option callback_t)
    (Hc : emm_contexts w !! ctx = Some c) :
  let o := emm_proc_identification (Some ctx) emm_proc type success failure w in
  (_emm_fsm_state c <> EMM_DEREGISTERED -> _emm_fsm_state c <> EMM_REGISTERED ->
   o = Ret RETURNerror w) /\
  (_emm_fsm_state c = EMM_DEREGISTERED \/ _emm_fsm_state c = EMM_REGISTERED ->
   (exists msg q,
      primitive msg = EMMAS_SECURITY_REQ /\
      emm_sap_send_rc (trace w) msg <> RETURNerror /\
      new_events w o = [Ev_emm_sap_send msg; Ev_nas_start_T3470 (ue_id c) q;
                        Ev_emm_sap_send (common_proc_req_sap (ue_id c) ctx)] /\
      returned o = Some (emm_sap_send_rc
                           (trace w ++ [Ev_emm_sap_send msg;
                                        Ev_nas_start_T3470 (ue_id c) q])
                           (common_proc_req_sap (ue_id c) ctx)))
   \/
   ((new_events w o = [] \/
     exists msg, emm_sap_send_rc (trace w) msg = RETURNerror /\
                 new_events w o = [Ev_emm_sap_send msg]) /\
    (returned o = Some RETURNerror \/ returned o = None))).
Proof.
  intros o. subst o. unfold emm_proc_identification.
  rewrite (bind_Ret _ _ _ _ _ (load_ctx_Ret _ _ _ Hc)). split.
  - intros H1 H2. destruct (_emm_fsm_state c); try reflexivity; congruence.
  - intros Hst.
    assert (Hperm : common_procedure_permitted (_emm_fsm_state c) = true)
      by (destruct Hst as [-> | ->]; reflexivity).
    rewrite Hperm.
    destruct (get_or_new_identification_procedure_Ret w ctx c Hc)
      as (q & p0 & c1 & w1 & E1 & Hc1 & Hp1 & Hq1 & Hue & Hs1 & Hsec & Hd & Ht).
    rewrite (bind_Ret _ _ _ _ _ E1).
    destruct (identification_setup_and_send_cases w1 ctx c1 q p0 (ue_id c)
                emm_proc type success failure Hc1 Hp1)
      as (t & n & l & Hw & [(msg & Hm & Hrc & Hl & Hr & _) | (Hl & Hr & _)]).
    + left. exists msg, q. rewrite Ht in *. repeat split; auto.
      apply new_events_app. rewrite Hw. simpl. now rewrite Hl.
    + right. split.
      * destruct Hl as [-> | (msg & Hrc & ->)]; [left|right; exists msg; rewrite <- Ht; split; [exact Hrc|]];
          apply new_events_app; rewrite Hw; simpl; now rewrite Ht.
      * destruct Hr as [Hr | [Hr _]]; auto.
Qed.


(** ** One instance per context *)

Lemma filter_ident_insert (m : gmap ptr nas_proc_t) q p p' (l : list ptr) :
  m !! q = Some (IdentProc p) ->
  filter (fun x => is_ident_proc (<[q:=IdentProc p']> m !! x) = true) l =
  filter (fun x => is_ident_proc (m !! x) = true) l.
Proof.
  intros H. apply list_filter_iff. intros x.
  now rewrite (is_ident_proc_insert m q p p' x H).
Qed.

Lemma find_Some_filter_one {A} (f : A -> bool) (l : list A) q :
  find f l = Some q ->
  (length (filter (fun x => f x = true) l) <= 1)%nat ->
  filter (fun x => f x = true) l = [q].
Proof.
  induction l as [|a l IH]; simpl; [discriminate|].
  destruct (f a) eqn:E.
  - intros [= ->]. rewrite filter_cons_True by exact E. simpl. intros Hlen.
    destruct (filter _ l); [reflexivity|simpl in Hlen; lia].
  - intros Hq. rewrite filter_cons_False by (rewrite E; discriminate). now apply IH.
Qed.

Lemma find_None_filter_nil {A} (f : A -> bool) (l : list A) :
  find f l = None -> filter (fun x => f x = true) l = [].
Proof.
  induction l as [|a l IH]; simpl; [reflexivity|].
  destruct (f a) eqn:E; [discriminate|].
  intros H. rewrite filter_cons_False by (rewrite E; discriminate). now apply IH.
Qed.

Lemma filter_ident_insert_fresh (m : gmap ptr nas_proc_t) q v (l : list ptr) :
  m !! q = None ->
  (forall x, x ∈ l -> is_Some (m !! x)) ->
  filter (fun x => is_ident_proc (<[q:=v]> m !! x) = true) l =
  filter (fun x => is_ident_proc (m !! x) = true) l.
Proof.
  intros Hq. induction l as [|a l IH]; intros Hl; [reflexivity|].
  assert (Ha : <[q:=v]> m !! a = m !! a).
  { apply lookup_insert_ne. intros ->.
    destruct (Hl a) as [y Hy]; [left|]. congruence. }
  rewrite !filter_cons, Ha, IH; [reflexivity|].
  intros x Hx. apply Hl. now right.
Qed.

Lemma ident_instances_same_heap w w' ctx q p p' :
  emm_contexts w' = emm_contexts w ->
  procs w' = <[q:=IdentProc p']> (procs w) ->
  procs w !! q = Some (IdentProc p) ->
  ident_instances w' ctx = ident_instances w ctx.
Proof.
  intros Hc Hp Hq. unfold ident_instances. rewrite Hc, Hp.
  destruct (emm_contexts w !! ctx); [|reflexivity].
  now apply filter_ident_insert with (p := p).
Qed.

(** The procedure the start works on: found, in a world left as it was, or
    allocated at a fresh address; it is then the only Identification
    procedure of the context, provided there was at most one before. *)
Lemma get_or_new_identification_procedure_instance w ctx c :
  emm_contexts w !! ctx = Some c ->
  exists q p0 c1 w1,
    get_or_new_identification_procedure ctx w = Ret q w1 /\
    emm_contexts w1 !! ctx = Some c1 /\
    procs w1 !! q = Some (IdentProc p0) /\
    ident_proc_of w1 ctx = Some q /\
    ue_id c1 = ue_id c /\
    _emm_fsm_state c1 = _emm_fsm_state c /\
    _emm_data w1 = _emm_data w /\
    (forall cp, is_Some (emm_contexts w !! cp) -> is_Some (emm_contexts w1 !! cp)) /\
    (ident_proc_of w ctx = Some q /\ w1 = w \/ ident_proc_of w ctx = None) /\
    ((length (ident_instances w ctx) <= 1)%nat ->
     (forall x, x ∈ emm_common_procs c -> is_Some (procs w !! x)) ->
     ident_instances w1 ctx = [q]).
Proof.
  intros Hc. destruct (ident_proc_of w ctx) as [q|] eqn:Hq.
  - destruct (ident_proc_of_is_ident _ _ _ Hq) as [p0 Hp].
    exists q, p0, c, w.
    rewrite (get_or_new_identification_procedure_found _ _ _ _ Hc Hq).
    repeat split; auto.
    intros Hone _. unfold ident_instances, ident_proc_of in *. rewrite Hc in *.
    now apply find_Some_filter_one.
  - rewrite (get_or_new_identification_procedure_new _ _ _ Hc Hq). cbv zeta.
    set (q := fresh (dom (procs w))).
    assert (Hfresh : procs w !! q = None) by (apply not_elem_of_dom, is_fresh).
    eexists. eexists. eexists. eexists. split; [reflexivity|]. simpl.
    split; [apply lookup_insert_eq|]. split; [apply lookup_insert_eq|].
    split; [|split; [reflexivity|split; [reflexivity|split; [reflexivity|split; [|split]]]]].
    + unfold ident_proc_of. simpl. rewrite lookup_insert_eq. simpl.
      now rewrite lookup_insert_eq.
    + intros cp Hcp. apply lookup_insert_is_Some'. now right.
    + now right.
    + intros _ Hlive. unfold ident_instances. simpl. rewrite lookup_insert_eq. simpl.
      rewrite filter_cons_True by (now rewrite lookup_insert_eq).
      rewrite filter_ident_insert_fresh by assumption.
      unfold ident_proc_of in Hq. rewrite Hc in Hq.
      now rewrite (find_None_filter_nil _ _ Hq).
Qed.

(** A start that does not stop on a dangling store entry returns, having
    worked on the procedure [q] alone. *)
Lemma emm_proc_identification_returns w ctx c emm_proc type success failure :
  emm_contexts w !! ctx = Some c ->
  common_procedure_permitted (_emm_fsm_state c) = true ->
  (forall cp, ctx_coll_ue_id (_emm_data w) !! ue_id c = Some cp ->
              is_Some (emm_contexts w !! cp)) ->
  exists q p0 c1 w1 rc w' t,
    emm_proc_identification (Some ctx) emm_proc type success failure w = Ret rc w' /\
    emm_contexts w1 !! ctx = Some c1 /\
    ue_id c1 = ue_id c /\
    _emm_fsm_state c1 = _emm_fsm_state c /\
    procs w1 !! q = Some (IdentProc p0) /\
    emm_contexts w' = emm_contexts w1 /\
    procs w' = <[q:=IdentProc (set_T3470
                                 (init_ident_proc p0 type (ue_id c) emm_proc
                                    (_emm_fsm_state c1) success failure) t)]> (procs w1) /\
    _emm_data w' = _emm_data w /\
    ident_proc_of w1 ctx = Some q /\
    (forall cp, is_Some (emm_contexts w !! cp) -> is_Some (emm_contexts w1 !! cp)) /\
    (ident_proc_of w ctx = Some q /\ w1 = w \/ ident_proc_of w ctx = None) /\
    ((length (ident_instances w ctx) <= 1)%nat ->
     (forall x, x ∈ emm_common_procs c -> is_Some (procs w !! x)) ->
     ident_instances w1 ctx = [q]).
Proof.
  intros Hc Hperm Hstore. unfold emm_proc_identification.
  rewrite (bind_Ret _ _ _ _ _ (load_ctx_Ret _ _ _ Hc)). rewrite Hperm.
  destruct (get_or_new_identification_procedure_instance w ctx c Hc)
    as (q & p0 & c1 & w1 & E1 & Hc1 & Hp1 & Hq1 & Hue & Hs1 & Hd & Hmono & Hcase & Hinst).
  rewrite (bind_Ret _ _ _ _ _ E1).
  destruct (identification_setup_and_send_cases w1 ctx c1 q p0 (ue_id c)
              emm_proc type success failure Hc1 Hp1)
    as (t & n & l & Hw & Hcases).
  destruct (identification_setup_and_send ctx (ue_id c) q emm_proc type success failure w1)
    as [rc w'|w'] eqn:E2.
  - simpl in Hw. exists q, p0, c1, w1, rc, w', t. rewrite Hw. simpl.
    repeat split; auto.
  - exfalso. simpl in Hcases.
    destruct Hcases as [(msg & _ & _ & _ & Hr & _) | (_ & [Hr | (_ & cp & Hs & Hn)] & _)];
      try discriminate.
    rewrite Hd in Hs. destruct (Hmono cp (Hstore cp Hs)) as [y Hy]. congruence.
Qed.

(** C8. Two starts in succession for one context, in a state that permits
    them, return having worked on one and the same Identification procedure:
    the second call finds the procedure of the first, allocates nothing, and
    leaves the retransmission counter at the 0 the first call set; and a
    context that had at most one Identification procedure has exactly that
    one after each call. *)
Theorem emm_proc_identification_twice_reuses_procedure
    (w : World) (ctx : ptr) (c : emm_data_context_t)
    (emm_proc emm_proc' : option ptr) (type type' : identity_type2_t)
    (success failure success' failure' : option callback_t)
    (Hc : emm_contexts w !! ctx = Some c)
    (Hperm : common_procedure_permitted (_emm_fsm_state c) = true)
    (Hstore : forall cp, ctx_coll_ue_id (_emm_data w) !! ue_id c = Some cp ->
                         is_Some (emm_contexts w !! cp))
    (Hone : (length (ident_instances w ctx) <= 1)%nat)
    (Hlive : forall x, x ∈ emm_common_procs c -> is_Some (procs w !! x)) :
  exists q rc1 w1 rc2 w2 p1 p2,
    emm_proc_identification (Some ctx) emm_proc type success failure w = Ret rc1 w1 /\
    emm_proc_identification (Some ctx) emm_proc' type' success' failure' w1 = Ret rc2 w2 /\
    ident_proc_of w1 ctx = Some q /\
    ident_proc_of w2 ctx = Some q /\
    ident_instances w1 ctx = [q] /\
    ident_instances w2 ctx = [q] /\
    dom (procs w2) = dom (procs w1) /\
    emm_contexts w2 = emm_contexts w1 /\
    procs w1 !! q = Some (IdentProc p1) /\
    procs w2 !! q = Some (IdentProc p2) /\
    retransmission_count p1 = 0 /\
    retransmission_count p2 = retransmission_count p1.
Proof.
  destruct (emm_proc_identification_returns w ctx c emm_proc type success failure
              Hc Hperm Hstore)
    as (q & p0 & c1 & wg & rc1 & w1 & t1 & E1 & Hc1 & Hue1 & Hs1 & Hp0 & Hctx1 & Hprocs1
        & Hd1 & Hq1 & Hmono1 & _ & Hinst1).
  assert (Hc1' : emm_contexts w1 !! ctx = Some c1) by now rewrite Hctx1.
  assert (Hq1' : ident_proc_of w1 ctx = Some q).
  { rewrite <- Hq1. eapply ident_proc_of_same_heap; [exact Hctx1|exact Hprocs1|exact Hp0]. }
  assert (Hp1 : procs w1 !! q =
                Some (IdentProc (set_T3470
                                   (init_ident_proc p0 type (ue_id c) emm_proc
                                      (_emm_fsm_state c1) success failure) t1)))
    by (rewrite Hprocs1; apply lookup_insert_eq).
  destruct (emm_proc_identification_returns w1 ctx c1 emm_proc' type' success' failure'
              Hc1')
    as (q2 & p02 & c2 & wg2 & rc2 & w2 & t2 & E2 & Hc2 & Hue2 & Hs2 & Hp02 & Hctx2 & Hprocs2
        & Hd2 & Hq2 & Hmono2 & Hcase2 & Hinst2).
  { now rewrite Hs1. }
  { intros cp Hcp. rewrite Hctx1. apply Hmono1, Hstore.
    now rewrite Hd1, Hue1 in Hcp. }
  destruct Hcase2 as [[Hq2' ->] | Hnone]; [|congruence].
  assert (q2 = q) by congruence. subst q2.
  rewrite Hp1 in Hp02. injection Hp02 as <-.
  exists q, rc1, w1, rc2, w2. eexists. eexists.
  split; [exact E1|]. split; [exact E2|]. split; [exact Hq1'|].
  assert (Hi1 : ident_instances w1 ctx = [q]).
  { rewrite <- (Hinst1 Hone Hlive).
    eapply ident_instances_same_heap; [exact Hctx1|exact Hprocs1|exact Hp0]. }
  split; [|split; [exact Hi1|split; [|split; [|split; [exact Hctx2|split; [exact Hp1|split]]]]]].
  - rewrite <- Hq1'. eapply ident_proc_of_same_heap; [exact Hctx2|exact Hprocs2|exact Hp1].
  - rewrite <- Hi1. eapply ident_instances_same_heap; [exact Hctx2|exact Hprocs2|exact Hp1].
  - rewrite Hprocs2. apply dom_insert_lookup_L. now rewrite Hp1.
  - rewrite Hprocs2. apply lookup_insert_eq.
  - split; reflexivity.
Qed.


(** ** The response *)

(** Rewriting of the lookups a run goes through. *)
Ltac run_lookups :=
  repeat (simpl;
          first [ rewrite lookup_insert_eq
                | rewrite lookup_insert_ne by (assumption || (apply not_eq_sym; assumption))
                | match goal with
                  | H : ?m !! ?k = _ |- context [?m !! ?k] => rewrite H
                  end ]).

Lemma complete_emm_duplicate_Ret w ue cp c q p dp d pp sp :
  emm_contexts w !! cp = Some c ->
  procs w !! q = Some (IdentProc p) ->
  emm_contexts w !! dp = Some d ->
  parent p = Some pp ->
  procs w !! pp = Some (SpecificProc sp) ->
  complete_emm_duplicate ue cp q dp w =
  Ret RETURNok
    (mk_World (<[dp:=set_emm_cause d EMM_CAUSE_ILLEGAL_UE]> (emm_contexts w))
       (<[pp:=SpecificProc
                (mk_specific_proc
                   (mk_nas_timer (Z.of_N (next_timer_id w)) (retry_cb sp) (Some cp))
                   (retry_cb sp) (ue_id d))]> (procs w))
       (_emm_data w) (mme_ue_contexts w) (N.succ (next_timer_id w)) (next_puid w)
       (trace w ++
        [Ev_nas_stop_T_retry_specific_procedure (ue_id c) pp;
         Ev_nas_start_T_retry_specific_procedure (ue_id c) pp;
         Ev_emm_sap_send (implicit_detach_sap (ue_id d) EMM_CAUSE_ILLEGAL_UE 0);
         Ev_emm_sap_send (common_proc_cnf_sap ue cp q false (previous_emm_fsm_state p))])).
Proof.
  intros Hc Hp Hd Hpar Hsp.
  assert (Hne : pp <> q) by (intros ->; congruence).
  unfold complete_emm_duplicate, nas_stop_T_retry_specific_procedure,
    nas_start_T_retry_specific_procedure, upd_specific, upd_ctx, common_proc_cnf,
    nas_timer_start, emm_sap_send, store_specific, store_ctx, log, modify, bind,
    load_ctx, load_ident, load_specific, ret.
  run_lookups. rewrite !Hpar. run_lookups.
  rewrite !insert_insert_eq. simpl. rewrite <- !app_assoc. reflexivity.
Qed.

(** The response with an IMSI another context holds, for a procedure whose
    parent is a specific procedure. *)
Lemma complete_imsi_held_by_other_context_with_parent
    (w : World) (ue : mme_ue_s1ap_id_t) (cp q dp pp : ptr)
    (c d : emm_data_context_t) (p : nas_emm_ident_proc_t) (sp : nas_emm_specific_proc_t)
    (i : imsi_t) (imei : option imei_t) (imeisv : option imeisv_t) (tmsi : option Z)
    (Hs : ctx_coll_ue_id (_emm_data w) !! ue = Some cp)
    (Hc : emm_contexts w !! cp = Some c)
    (Hq : ident_proc_of w cp = Some q)
    (Hp : procs w !! q = Some (IdentProc p))
    (Hdup : ctx_coll_imsi (_emm_data w) !! imsi_to_imsi64 i = Some dp)
    (Hd : emm_contexts w !! dp = Some d)
    (Hne : ue_id d <> ue_id c)
    (Hpar : parent p = Some pp)
    (Hsp : procs w !! pp = Some (SpecificProc sp)) :
  exists w',
    emm_proc_identification_complete ue (Some i) imei imeisv tmsi w = Ret RETURNok w' /\
    new_events w (emm_proc_identification_complete ue (Some i) imei imeisv tmsi w) =
      [Ev_nas_stop_T3470 ue q;
       Ev_nas_stop_T_retry_specific_procedure (ue_id c) pp;
       Ev_nas_start_T_retry_specific_procedure (ue_id c) pp;
       Ev_emm_sap_send (implicit_detach_sap (ue_id d) EMM_CAUSE_ILLEGAL_UE 0);
       Ev_emm_sap_send (common_proc_cnf_sap ue cp q false (previous_emm_fsm_state p))] /\
    (exists t, procs w' !! pp =
                 Some (SpecificProc (mk_specific_proc t (retry_cb sp) (ue_id d))) /\
               nas_timer_id t <> NAS_TIMER_INACTIVE_ID /\
               nas_timer_args t = Some cp) /\
    emm_contexts w' !! dp = Some (set_emm_cause d EMM_CAUSE_ILLEGAL_UE) /\
    emm_contexts w' !! cp = Some c /\
    _emm_data w' = _emm_data w.
Proof.
  assert (Hqp : pp <> q) by (intros ->; congruence).
  assert (Hdc : dp <> cp) by (intros ->; congruence).
  unfold emm_proc_identification_complete, emm_proc_identification_complete_with.
  rewrite (bind_Ret _ _ _ (Some cp) w) by (unfold emm_data_context_get; now rewrite Hs).
  rewrite (bind_Ret _ _ _ _ _ (get_nas_common_procedure_identification_Ret _ _ _ Hc)).
  rewrite Hq.
  rewrite (bind_Ret _ _ _ _ _ (nas_stop_T3470_Ret _ ue _ _ Hp)).
  unfold complete_after_stop, complete_update_identity, complete_imsi.
  erewrite bind_Ret.
  2:{ erewrite bind_Ret by (apply load_ctx_Ret; exact Hc).
      erewrite bind_Ret by (unfold emm_data_context_get_by_imsi; simpl; rewrite Hdup; reflexivity).
      erewrite bind_Ret.
      2:{ erewrite bind_Ret by (apply load_ctx_Ret; exact Hd). reflexivity. }
      apply Z.eqb_neq in Hne. rewrite Hne. simpl.
      erewrite bind_Ret.
      2:{ apply complete_emm_duplicate_Ret with (c := c) (d := d) (pp := pp) (sp := sp);
          simpl; [exact Hc|apply lookup_insert_eq|exact Hd|exact Hpar|].
          now rewrite lookup_insert_ne by (apply not_eq_sym; exact Hqp). }
      reflexivity. }
  eexists. split; [reflexivity|]. simpl. split; [|split; [|split; [|split]]].
  - apply new_events_app. simpl. now rewrite <- app_assoc.
  - eexists. split; [apply lookup_insert_eq|]. simpl. split; [|reflexivity].
    unfold NAS_TIMER_INACTIVE_ID. lia.
  - apply lookup_insert_eq.
  - now rewrite lookup_insert_ne.
  - reflexivity.
Qed.

(** The conflict branch dereferences the parent of the procedure without a
    test: when the parent is no specific procedure, the first access stops
    the run. *)
Lemma complete_emm_duplicate_Fatal w ue cp c q p dp :
  emm_contexts w !! cp = Some c ->
  procs w !! q = Some (IdentProc p) ->
  load_specific (parent p) w = Fatal w ->
  complete_emm_duplicate ue cp q dp w = Fatal w.
Proof.
  intros Hc Hp Hl. unfold complete_emm_duplicate.
  rewrite (bind_Ret _ _ _ _ _ (load_ctx_Ret _ _ _ Hc)).
  rewrite (bind_Ret _ _ _ _ _ (load_ident_Ret _ _ _ Hp)).
  unfold nas_stop_T_retry_specific_procedure, bind. now rewrite Hl.
Qed.

Lemma complete_imsi_held_by_other_context_without_parent
    (w : World) (ue : mme_ue_s1ap_id_t) (cp q dp : ptr)
    (c d : emm_data_context_t) (p : nas_emm_ident_proc_t)
    (i : imsi_t) (imei : option imei_t) (imeisv : option imeisv_t) (tmsi : option Z)
    (Hs : ctx_coll_ue_id (_emm_data w) !! ue = Some cp)
    (Hc : emm_contexts w !! cp = Some c)
    (Hq : ident_proc_of w cp = Some q)
    (Hp : procs w !! q = Some (IdentProc p))
    (Hdup : ctx_coll_imsi (_emm_data w) !! imsi_to_imsi64 i = Some dp)
    (Hd : emm_contexts w !! dp = Some d)
    (Hne : ue_id d <> ue_id c)
    (Hpar : match parent p with
            | Some pp => match procs w !! pp with
                         | Some (SpecificProc _) => False
                         | _ => True
                         end
            | None => True
            end) :
  emm_proc_identification_complete ue (Some i) imei imeisv tmsi w =
  Fatal (mk_World (emm_contexts w)
           (<[q:=IdentProc (set_T3470 p (set_timer_id (T3470 p) NAS_TIMER_INACTIVE_ID))]>
              (procs w))
           (_emm_data w) (mme_ue_contexts w) (next_timer_id w) (next_puid w)
           (trace w ++ [Ev_nas_stop_T3470 ue q])).
Proof.
  unfold emm_proc_identification_complete, emm_proc_identification_complete_with.
  rewrite (bind_Ret _ _ _ (Some cp) w) by (unfold emm_data_context_get; now rewrite Hs).
  rewrite (bind_Ret _ _ _ _ _ (get_nas_common_procedure_identification_Ret _ _ _ Hc)).
  rewrite Hq.
  rewrite (bind_Ret _ _ _ _ _ (nas_stop_T3470_Ret _ ue _ _ Hp)).
  set (w1 := mk_World _ _ _ _ _ _ _).
  unfold complete_after_stop, complete_update_identity, complete_imsi.
  unfold bind at 1. unfold bind at 1.
  rewrite (load_ctx_Ret w1 cp c Hc).
  unfold emm_data_context_get_by_imsi at 1. unfold bind at 1.
  change (_emm_data w1) with (_emm_data w). rewrite Hdup.
  unfold bind at 1. unfold bind at 1.
  rewrite (load_ctx_Ret w1 dp d Hd). unfold ret at 1.
  apply Z.eqb_neq in Hne. rewrite Hne. cbn [negb]. cbv beta iota.
  unfold bind at 1.
  rewrite (complete_emm_duplicate_Fatal w1 ue cp c q
             (set_T3470 p (set_timer_id (T3470 p) NAS_TIMER_INACTIVE_ID)) dp Hc).
  - reflexivity.
  - apply lookup_insert_eq.
  - simpl. unfold load_specific. destruct (parent p) as [pp|]; [|reflexivity].
    destruct (decide (pp = q)) as [->|Hpq].
    + subst w1. simpl. now rewrite lookup_insert_eq.
    + subst w1. simpl. rewrite lookup_insert_ne by (apply not_eq_sym; exact Hpq).
      destruct (procs w !! pp) as [[| |]|]; try reflexivity. destruct Hpar.
Qed.

(** C2. A response that carries an IMSI which the store already holds for a
    context with another identifier.  When the parent of the procedure is a
    specific procedure: T3470 is stopped, the retry timer of the parent is
    stopped and started again, the parent records the identifier of the
    other context, that context gets the cause "illegal UE" and an
    EMMCN_IMPLICIT_DETACH_UE with detach type 0 is delivered for it, the
    procedure is concluded by EMMREG_COMMON_PROC_CNF with notify = false and
    free_proc = true, and neither the completing context nor the store is
    changed: the IMSI is not committed and not indexed.  When the procedure
    has no parent, as after a start with no owning procedure, or the parent
    is no specific procedure, the access to the retry timer of the parent
    that follows the stop of T3470 stops the run: the other context keeps
    its cause and nothing is delivered. *)
Theorem identification_complete_imsi_held_by_other_context
    (w : World) (ue : mme_ue_s1ap_id_t) (cp q dp : ptr)
    (c d : emm_data_context_t) (p : nas_emm_ident_proc_t)
    (i : imsi_t) (imei : option imei_t) (imeisv : option imeisv_t) (tmsi : option Z)
    (Hs : ctx_coll_ue_id (_emm_data w) !! ue = Some cp)
    (Hc : emm_contexts w !! cp = Some c)
    (Hq : ident_proc_of w cp = Some q)
    (Hp : procs w !! q = Some (IdentProc p))
    (Hdup : ctx_coll_imsi (_emm_data w) !! imsi_to_imsi64 i = Some dp)
    (Hd : emm_contexts w !! dp = Some d)
    (Hne : ue_id d <> ue_id c) :
  let o := emm_proc_identification_complete ue (Some i) imei imeisv tmsi w in
  let stopped :=
    o = Fatal (mk_World (emm_contexts w)
                 (<[q:=IdentProc (set_T3470 p (set_timer_id (T3470 p)
                                                 NAS_TIMER_INACTIVE_ID))]> (procs w))
                 (_emm_data w) (mme_ue_contexts w) (next_timer_id w) (next_puid w)
                 (trace w ++ [Ev_nas_stop_T3470 ue q])) /\
    new_events w o = [Ev_nas_stop_T3470 ue q] /\
    emm_contexts (world_of o) !! dp = Some d in
  match parent p with
  | Some pp =>
      match procs w !! pp with
      | Some (SpecificProc sp) =>
          exists w',
            o = Ret RETURNok w' /\
            new_events w o =
              [Ev_nas_stop_T3470 ue q;
               Ev_nas_stop_T_retry_specific_procedure (ue_id c) pp;
               Ev_nas_start_T_retry_specific_procedure (ue_id c) pp;
               Ev_emm_sap_send (implicit_detach_sap (ue_id d) EMM_CAUSE_ILLEGAL_UE 0);
               Ev_emm_sap_send (common_proc_cnf_sap ue cp q false
                                  (previous_emm_fsm_state p))] /\
            (exists t, procs w' !! pp =
                         Some (SpecificProc (mk_specific_proc t (retry_cb sp) (ue_id d))) /\
                       nas_timer_id t <> NAS_TIMER_INACTIVE_ID /\
                       nas_timer_args t = Some cp) /\
            emm_contexts w' !! dp = Some (set_emm_cause d EMM_CAUSE_ILLEGAL_UE) /\
            emm_contexts w' !! cp = Some c /\
            _emm_data w' = _emm_data w
      | _ => stopped
      end
  | None => stopped
  end.
Proof.
  intros o stopped.
  assert (Hstop :
    match parent p with
    | Some pp => match procs w !! pp with
                 | Some (SpecificProc _) => False
                 | _ => True
                 end
    | None => True
    end -> stopped).
  { intros Hpar. subst stopped o.
    rewrite (complete_imsi_held_by_other_context_without_parent
               w ue cp q dp c d p i imei imeisv tmsi Hs Hc Hq Hp Hdup Hd Hne Hpar).
    split; [reflexivity|]. split; [|exact Hd].
    apply new_events_app. reflexivity. }
  destruct (parent p) as [pp|] eqn:Hpar; [|now apply Hstop].
  destruct (procs w !! pp) as [[ip|sp|ty]|] eqn:Hsp; try now apply Hstop.
  exact (complete_imsi_held_by_other_context_with_parent
           w ue cp q dp pp c d p sp i imei imeisv tmsi Hs Hc Hq Hp Hdup Hd Hne Hpar Hsp).
Qed.


Lemma complete_commit_imsi_Ret w cp c i i64 :
  emm_contexts w !! cp = Some c ->
  complete_commit_imsi cp i i64 w =
  Ret tt (mk_World (<[cp:=set_imsi c i i64]> (emm_contexts w)) (procs w)
            (mk_emm_data (ctx_coll_ue_id (_emm_data w))
                         (<[i64:=cp]> (ctx_coll_imsi (_emm_data w))))
            (mme_ue_contexts w) (next_timer_id w) (next_puid w) (trace w)).
Proof.
  intros Hc.
  unfold complete_commit_imsi, emm_ctx_set_valid_imsi, emm_data_context_upsert_imsi,
    emm_data_context_get_by_imsi, upd_ctx, store_ctx, modify, bind, load_ctx, ret.
  run_lookups. reflexivity.
Qed.

(** The IMSI branch when neither store holds the IMSI for another
    identifier. *)
Lemma complete_imsi_no_conflict w ue cp c q i :
  emm_contexts w !! cp = Some c ->
  (forall dp, ctx_coll_imsi (_emm_data w) !! imsi_to_imsi64 i = Some dp ->
              exists d, emm_contexts w !! dp = Some d /\ ue_id d = ue_id c) ->
  (forall uc, mme_ue_contexts w !! imsi_to_imsi64 i = Some uc ->
              mme_ue_s1ap_id uc = ue_id c) ->
  complete_imsi ue cp q i w =
  Ret None (mk_World (<[cp:=set_imsi c i (imsi_to_imsi64 i)]> (emm_contexts w)) (procs w)
              (mk_emm_data (ctx_coll_ue_id (_emm_data w))
                           (<[imsi_to_imsi64 i:=cp]> (ctx_coll_imsi (_emm_data w))))
              (mme_ue_contexts w) (next_timer_id w) (next_puid w) (trace w)).
Proof.
  intros Hc Hemm Hmme. unfold complete_imsi.
  rewrite (bind_Ret _ _ _ _ _ (load_ctx_Ret _ _ _ Hc)).
  unfold emm_data_context_get_by_imsi at 1. unfold bind at 1.
  assert (Hcommit :
    (let* _ := complete_commit_imsi cp i (imsi_to_imsi64 i) in ret None) w =
    Ret (@None Z)
        (mk_World (<[cp:=set_imsi c i (imsi_to_imsi64 i)]> (emm_contexts w)) (procs w)
           (mk_emm_data (ctx_coll_ue_id (_emm_data w))
                        (<[imsi_to_imsi64 i:=cp]> (ctx_coll_imsi (_emm_data w))))
           (mme_ue_contexts w) (next_timer_id w) (next_puid w) (trace w))).
  { now rewrite (bind_Ret _ _ _ _ _ (complete_commit_imsi_Ret _ _ _ _ _ Hc)). }
  assert (Hrest :
    (let* ue_context_duplicate_imsi := mme_ue_context_exists_imsi (imsi_to_imsi64 i) in
     match ue_context_duplicate_imsi with
     | Some uc =>
         if negb (mme_ue_s1ap_id uc =? ue_id c)
         then let* rc := complete_mme_app_duplicate ue cp q uc in ret (Some rc)
         else let* _ := complete_commit_imsi cp i (imsi_to_imsi64 i) in ret None
     | None => let* _ := complete_commit_imsi cp i (imsi_to_imsi64 i) in ret None
     end) w =
    Ret (@None Z)
        (mk_World (<[cp:=set_imsi c i (imsi_to_imsi64 i)]> (emm_contexts w)) (procs w)
           (mk_emm_data (ctx_coll_ue_id (_emm_data w))
                        (<[imsi_to_imsi64 i:=cp]> (ctx_coll_imsi (_emm_data w))))
           (mme_ue_contexts w) (next_timer_id w) (next_puid w) (trace w))).
  { unfold mme_ue_context_exists_imsi at 1. unfold bind at 1.
    destruct (mme_ue_contexts w !! imsi_to_imsi64 i) as [uc|] eqn:Hu; [|exact Hcommit].
    rewrite (Hmme uc eq_refl), Z.eqb_refl. exact Hcommit. }
  destruct (ctx_coll_imsi (_emm_data w) !! imsi_to_imsi64 i) as [dp|] eqn:Hdp.
  - destruct (Hemm dp eq_refl) as (d & Hd & Hue).
    erewrite bind_Ret.
    2:{ erewrite bind_Ret by (apply load_ctx_Ret; exact Hd). reflexivity. }
    rewrite Hue, Z.eqb_refl. exact Hrest.
  - erewrite bind_Ret by reflexivity. exact Hrest.
Qed.

(** C5. A response that carries an IMSI which neither the EMM store nor the
    MME_APP index holds for another identifier: the IMSI is committed to the
    completing context and indexed, so that the lookup by that IMSI returns
    this context, and after the stop of T3470 the one primitive delivered is
    EMMREG_COMMON_PROC_CNF with notify = true and free_proc = true. *)
Theorem identification_complete_imsi_no_conflict
    (w : World) (ue : mme_ue_s1ap_id_t) (cp q : ptr)
    (c : emm_data_context_t) (p : nas_emm_ident_proc_t)
    (i : imsi_t) (imei : option imei_t) (imeisv : option imeisv_t) (tmsi : option Z)
    (Hs : ctx_coll_ue_id (_emm_data w) !! ue = Some cp)
    (Hc : emm_contexts w !! cp = Some c)
    (Hq : ident_proc_of w cp = Some q)
    (Hp : procs w !! q = Some (IdentProc p))
    (Hemm : forall dp, ctx_coll_imsi (_emm_data w) !! imsi_to_imsi64 i = Some dp ->
                       exists d, emm_contexts w !! dp = Some d /\ ue_id d = ue_id c)
    (Hmme : forall uc, mme_ue_contexts w !! imsi_to_imsi64 i = Some uc ->
                       mme_ue_s1ap_id uc = ue_id c) :
  let cnf := common_proc_cnf_sap ue cp q true (previous_emm_fsm_state p) in
  exists w',
    emm_proc_identification_complete ue (Some i) imei imeisv tmsi w =
      Ret (emm_sap_send_rc (trace w ++ [Ev_nas_stop_T3470 ue q]) cnf) w' /\
    emm_contexts w' !! cp = Some (set_imsi c i (imsi_to_imsi64 i)) /\
    emm_data_context_get_by_imsi (imsi_to_imsi64 i) w' = Ret (Some cp) w' /\
    new_events w (emm_proc_identification_complete ue (Some i) imei imeisv tmsi w) =
      [Ev_nas_stop_T3470 ue q; Ev_emm_sap_send cnf] /\
    u cnf = emm_reg (mk_emm_reg ue (Some cp) true true (Some q) (previous_emm_fsm_state p)).
Proof.
  intros cnf. unfold emm_proc_identification_complete, emm_proc_identification_complete_with.
  rewrite (bind_Ret _ _ _ (Some cp) w) by (unfold emm_data_context_get; now rewrite Hs).
  rewrite (bind_Ret _ _ _ _ _ (get_nas_common_procedure_identification_Ret _ _ _ Hc)).
  rewrite Hq.
  rewrite (bind_Ret _ _ _ _ _ (nas_stop_T3470_Ret _ ue _ _ Hp)).
  unfold complete_after_stop, complete_update_identity.
  erewrite bind_Ret.
  2:{ apply complete_imsi_no_conflict with (c := c); simpl; assumption. }
  unfold common_proc_cnf.
  erewrite bind_Ret by (apply load_ident_Ret; simpl; apply lookup_insert_eq).
  unfold emm_sap_send. simpl.
  eexists. split; [reflexivity|]. simpl. split; [apply lookup_insert_eq|]. split.
  - unfold emm_data_context_get_by_imsi. simpl. now rewrite lookup_insert_eq.
  - split; [|reflexivity].
    apply new_events_app. simpl. now rewrite <- app_assoc.
Qed.


(** ** T3470 after the response *)

Lemma preserves_ret {A} I (a : A) : preserves I (ret a).
Proof. intros w a' w' HI [= _ <-]. exact HI. Qed.

Lemma preserves_fatal {A} I : preserves I (@fatal A).
Proof. intros w a w' _ H. discriminate. Qed.

Lemma preserves_bind {A B} I (m : M A) (k : A -> M B) :
  preserves I m -> (forall a, preserves I (k a)) -> preserves I (let* x := m in k x).
Proof.
  intros Hm Hk w b w' HI. unfold bind.
  destruct (m w) as [a w1|w1] eqn:E; [|discriminate].
  intros H. exact (Hk a w1 b w' (Hm w a w1 HI E) H).
Qed.

(** An operation that returns in the world it started in. *)
Lemma preserves_read {A} I (m : M A) :
  (forall w a w', m w = Ret a w' -> w' = w) -> preserves I m.
Proof. intros H w a w' HI E. now rewrite (H w a w' E). Qed.

Lemma preserves_modify I f : (forall w, I w -> I (f w)) -> preserves I (modify f).
Proof. intros H w [] w' HI [= <-]. now apply H. Qed.

Lemma load_ctx_read p w a w' : load_ctx p w = Ret a w' -> w' = w.
Proof. unfold load_ctx. destruct (_ !! _); now intros [= _ <-]. Qed.

Lemma load_ident_read p w a w' : load_ident p w = Ret a w' -> w' = w.
Proof. unfold load_ident. destruct (_ !! _) as [[]|]; now intros [= _ <-]. Qed.

Lemma load_specific_read p w a w' :
  load_specific p w = Ret a w' ->
  w' = w /\ p = Some (fst a) /\ procs w !! fst a = Some (SpecificProc (snd a)).
Proof.
  unfold load_specific. destruct p as [x|]; [|discriminate].
  destruct (procs w !! x) as [[]|] eqn:E; try discriminate.
  intros [= <- <-]. auto.
Qed.

Section Disarmed.

Variable q : ptr.

Lemma T3470_disarmed_same_procs w w' :
  procs w' = procs w -> T3470_disarmed q w -> T3470_disarmed q w'.
Proof. intros H (p & Hp & Ht). exists p. now rewrite H. Qed.

Lemma disarmed_load_ctx p : preserves (T3470_disarmed q) (load_ctx p).
Proof. apply preserves_read, load_ctx_read. Qed.

Lemma disarmed_load_ident p : preserves (T3470_disarmed q) (load_ident p).
Proof. apply preserves_read, load_ident_read. Qed.

Lemma disarmed_load_specific p : preserves (T3470_disarmed q) (load_specific p).
Proof. apply preserves_read. intros w a w' H. now apply load_specific_read in H. Qed.

Lemma disarmed_emm_data_context_get_by_imsi i :
  preserves (T3470_disarmed q) (emm_data_context_get_by_imsi i).
Proof. apply preserves_read. now intros w a w' [= _ <-]. Qed.

Lemma disarmed_mme_ue_context_exists_imsi i :
  preserves (T3470_disarmed q) (mme_ue_context_exists_imsi i).
Proof. apply preserves_read. now intros w a w' [= _ <-]. Qed.

Lemma disarmed_nas_timer_start : preserves (T3470_disarmed q) nas_timer_start.
Proof. intros w a w' HI [= _ <-]. now apply T3470_disarmed_same_procs with (w := w). Qed.

Lemma disarmed_emm_sap_send msg : preserves (T3470_disarmed q) (emm_sap_send msg).
Proof. intros w a w' HI [= _ <-]. now apply T3470_disarmed_same_procs with (w := w). Qed.

Lemma disarmed_log e : preserves (T3470_disarmed q) (log e).
Proof.
  apply preserves_modify. intros w. now apply T3470_disarmed_same_procs.
Qed.

Lemma disarmed_store_ctx p c : preserves (T3470_disarmed q) (store_ctx p c).
Proof.
  apply preserves_modify. intros w. now apply T3470_disarmed_same_procs.
Qed.

(** A store through a pointer to a specific procedure leaves the
    Identification procedure alone: the two are different objects. *)
Lemma disarmed_upd_specific p f : preserves (T3470_disarmed q) (upd_specific p f).
Proof.
  intros w [] w' (ip & Hip & Ht). unfold upd_specific, bind.
  destruct (load_specific p w) as [r w1|w1] eqn:E; [|discriminate].
  apply load_specific_read in E as (-> & _ & Hr).
  intros [= <-]. exists ip. split; [|exact Ht]. simpl.
  rewrite lookup_insert_ne; [exact Hip|]. intros Heq. rewrite Heq in Hr. congruence.
Qed.

End Disarmed.

Create HintDb disarmed discriminated.
#[local] Hint Resolve preserves_ret preserves_fatal disarmed_load_ctx disarmed_load_ident
  disarmed_load_specific disarmed_emm_data_context_get_by_imsi
  disarmed_mme_ue_context_exists_imsi disarmed_nas_timer_start disarmed_emm_sap_send
  disarmed_log disarmed_store_ctx disarmed_upd_specific : disarmed.

Ltac disarmed_walk :=
  repeat first
    [ solve [eauto with disarmed]
    | apply preserves_bind; [|intros ?]
    | apply preserves_modify; intros ? ?;
      eapply T3470_disarmed_same_procs; [reflexivity|eassumption]
    | match goal with
      | |- preserves _ (match ?x with _ => _ end) => destruct x
      | |- preserves _ (if ?b then _ else _) => destruct b
      end ].

Lemma disarmed_complete_after_stop q ue emm_ctx imsi imei imeisv tmsi :
  preserves (T3470_disarmed q)
    (complete_after_stop ue emm_ctx q imsi imei imeisv tmsi).
Proof.
  unfold complete_after_stop, complete_update_identity, complete_imsi,
    complete_emm_duplicate, complete_mme_app_duplicate, complete_commit_imsi,
    common_proc_cnf, nas_stop_T_retry_specific_procedure,
    nas_start_T_retry_specific_procedure, nas_itti_esm_detach_ind,
    emm_ctx_set_valid_imsi, emm_ctx_set_valid_imei, emm_ctx_set_valid_imeisv,
    emm_data_context_upsert_imsi, upd_ctx.
  disarmed_walk.
Qed.

Lemma T3470_expiry_disarmed q w :
  T3470_disarmed q w -> T3470_expiry q w = Ret tt w.
Proof.
  intros (p & Hp & Ht). unfold T3470_expiry. rewrite Hp, Ht. reflexivity.
Qed.

(** C4. When the context and its Identification procedure are found, the
    routine that stops T3470 is run in the world the completion was called
    in, whatever that routine does, and everything else the completion does
    is done after it, in the world it leaves: no identity update, no
    conflict handling and no notification comes before the stop.  The stop
    of the Timer Service changes nothing but the handle of T3470 and is the
    first call of the completion, whatever the response carries and however
    the completion ends.  When the completion returns, T3470 of the
    procedure is disarmed, so that its expiry runs no handler: it returns in
    the same world, with no call made. *)
Theorem identification_complete_stops_T3470_first
    (w : World) (ue : mme_ue_s1ap_id_t) (cp q : ptr)
    (c : emm_data_context_t) (p : nas_emm_ident_proc_t)
    (imsi : option imsi_t) (imei : option imei_t) (imeisv : option imeisv_t)
    (tmsi : option Z)
    (Hs : ctx_coll_ue_id (_emm_data w) !! ue = Some cp)
    (Hc : emm_contexts w !! cp = Some c)
    (Hq : ident_proc_of w cp = Some q)
    (Hp : procs w !! q = Some (IdentProc p)) :
  let o := emm_proc_identification_complete ue imsi imei imeisv tmsi w in
  (forall stop_T3470 : mme_ue_s1ap_id_t -> ptr -> M unit,
     emm_proc_identification_complete_with stop_T3470 ue imsi imei imeisv tmsi w =
     (let* _ := stop_T3470 ue q in
      complete_after_stop ue cp q imsi imei imeisv tmsi) w) /\
  (exists w1,
     nas_stop_T3470 ue q w = Ret tt w1 /\
     emm_contexts w1 = emm_contexts w /\
     _emm_data w1 = _emm_data w /\
     mme_ue_contexts w1 = mme_ue_contexts w /\
     procs w1 = <[q:=IdentProc (set_T3470 p (set_timer_id (T3470 p)
                                               NAS_TIMER_INACTIVE_ID))]> (procs w) /\
     trace w1 = trace w ++ [Ev_nas_stop_T3470 ue q] /\
     o = complete_after_stop ue cp q imsi imei imeisv tmsi w1) /\
  (exists l, new_events w o = Ev_nas_stop_T3470 ue q :: l) /\
  (forall rc w', o = Ret rc w' ->
     T3470_disarmed q w' /\
     T3470_expiry q w' = Ret tt w' /\
     new_events w' (T3470_expiry q w') = []).
Proof.
  intros o.
  assert (Hwith : forall stop_T3470 : mme_ue_s1ap_id_t -> ptr -> M unit,
            emm_proc_identification_complete_with stop_T3470 ue imsi imei imeisv tmsi w =
            (let* _ := stop_T3470 ue q in
             complete_after_stop ue cp q imsi imei imeisv tmsi) w).
  { intros stop_T3470. unfold emm_proc_identification_complete_with.
    rewrite (bind_Ret _ _ _ (Some cp) w) by (unfold emm_data_context_get; now rewrite Hs).
    rewrite (bind_Ret _ _ _ _ _ (get_nas_common_procedure_identification_Ret _ _ _ Hc)).
    now rewrite Hq. }
  split; [exact Hwith|].
  subst o. unfold emm_proc_identification_complete. rewrite Hwith.
  rewrite (bind_Ret _ _ _ _ _ (nas_stop_T3470_Ret _ ue _ _ Hp)).
  set (w1 := mk_World _ _ _ _ _ _ _).
  split; [|split].
  - exists w1. split; [apply (nas_stop_T3470_Ret _ ue _ _ Hp)|]. subst w1. simpl.
    repeat split; reflexivity.
  - destruct (arms_complete_after_stop ue cp q imsi imei imeisv tmsi w1) as (l & Hl & _).
    exists l. apply new_events_app. rewrite Hl. subst w1. simpl.
    now rewrite <- app_assoc.
  - intros rc w' E.
    assert (Hdis : T3470_disarmed q w').
    { apply (disarmed_complete_after_stop q ue cp imsi imei imeisv tmsi w1 rc w'); [|exact E].
      eexists. split; [apply lookup_insert_eq|reflexivity]. }
    split; [exact Hdis|].
    rewrite (T3470_expiry_disarmed q w' Hdis). split; [reflexivity|].
    apply new_events_app. simpl. now rewrite app_nil_r.
Qed.

(** ** The calls each function makes *)

Lemma calls_ret {A} P (a : A) : calls_only P (ret a).
Proof. intros w. exists []. simpl. now rewrite app_nil_r. Qed.

Lemma calls_fatal {A} P : calls_only P (@fatal A).
Proof. intros w. exists []. simpl. now rewrite app_nil_r. Qed.

Lemma calls_bind {A B} P (m : M A) (k : A -> M B) :
  calls_only P m -> (forall a, calls_only P (k a)) ->
  calls_only P (let* x := m in k x).
Proof.
  intros Hm Hk w. unfold bind. destruct (Hm w) as (l1 & E1 & C1).
  destruct (m w) as [a w1|w1]; simpl in E1.
  - destruct (Hk a w1) as (l2 & E2 & C2). exists (l1 ++ l2). split.
    + rewrite E2, E1. now rewrite app_assoc.
    + rewrite forallb_app, C1, C2. reflexivity.
  - exists l1. now split.
Qed.

Lemma calls_silent {A} P (m : M A) :
  (forall w, trace (world_of (m w)) = trace w) -> calls_only P m.
Proof. intros H w. exists []. rewrite H. simpl. now rewrite app_nil_r. Qed.

Lemma calls_log P e : P e = true -> calls_only P (log e).
Proof. intros H w. exists [e]. simpl. now rewrite H. Qed.

Lemma calls_emm_sap_send P msg :
  P (Ev_emm_sap_send msg) = true -> calls_only P (emm_sap_send msg).
Proof. intros H w. exists [Ev_emm_sap_send msg]. simpl. now rewrite H. Qed.

Lemma trace_load_ctx p w : trace (world_of (load_ctx p w)) = trace w.
Proof. unfold load_ctx. now destruct (_ !! _). Qed.

Lemma trace_load_ident p w : trace (world_of (load_ident p w)) = trace w.
Proof. unfold load_ident. now destruct (_ !! _) as [[]|]. Qed.

Lemma trace_load_specific p w : trace (world_of (load_specific p w)) = trace w.
Proof.
  unfold load_specific. destruct p; [|reflexivity]. now destruct (_ !! _) as [[]|].
Qed.

(** The operations are unfolded down to [bind], the loads, [modify], [log]
    and [emm_sap_send]. *)
Ltac unfold_functions :=
  unfold emm_proc_identification_complete, emm_proc_identification_complete_with, complete_after_stop,
    complete_update_identity, complete_imsi, complete_emm_duplicate,
    complete_mme_app_duplicate, complete_commit_imsi, common_proc_cnf,
    emm_proc_identification, get_or_new_identification_procedure,
    identification_setup_and_send, _identification_t3470_handler,
    identification_abort_on_timeout, _identification_ll_failure,
    _identification_non_delivered_ho, _identification_abort,
    _identification_request.

Ltac unfold_collaborators :=
  unfold nas_stop_T3470, nas_start_T3470, nas_start_T_retry_specific_procedure,
    nas_stop_T_retry_specific_procedure, nas_itti_esm_detach_ind,
    nas_delete_all_emm_procedures, nas_new_identification_procedure,
    get_nas_common_procedure_identification, emm_fsm_get_state,
    emm_ctx_set_valid_imsi, emm_ctx_set_valid_imei, emm_ctx_set_valid_imeisv,
    emm_data_context_upsert_imsi, upd_ctx, upd_ident, upd_specific,
    store_ctx, store_ident, store_specific.

Ltac calls_walk :=
  repeat first
    [ apply calls_ret
    | apply calls_fatal
    | apply calls_silent;
      solve [ first [ apply trace_load_ctx | apply trace_load_ident
                    | apply trace_load_specific | intros; reflexivity ] ]
    | apply calls_log; reflexivity
    | apply calls_emm_sap_send; reflexivity
    | apply calls_bind; [|intros ?]
    | match goal with
      | |- calls_only _ (match ?x with _ => _ end) => destruct x
      | |- calls_only _ (if ?b then _ else _) => destruct b
      end ].

Ltac calls_auto := unfold_functions; unfold_collaborators; calls_walk.

(** X1. In every world and however it ends, the completion of the
    identification calls nothing but the stop of T3470, the stop and start
    of the retry timer, the detach indication to the application layer and
    the delivery of EMMCN_IMPLICIT_DETACH_UE and EMMREG_COMMON_PROC_CNF: it
    never starts T3470 and never delivers an identity request, a
    common-procedure request or an abort. *)
Theorem identification_complete_calls
    (ue : mme_ue_s1ap_id_t) (imsi : option imsi_t) (imei : option imei_t)
    (imeisv : option imeisv_t) (tmsi : option Z) :
  calls_only complete_call (emm_proc_identification_complete ue imsi imei imeisv tmsi).
Proof. calls_auto. Qed.

(** X2. In every world and however they end, the only call of
    [_identification_abort] to the EMM-SAP dispatcher, the NAS timers or the
    ITTI detach indication is the stop of T3470, and
    [_identification_ll_failure] makes no call to any of the three: neither
    delivers a primitive, so neither notifies the registration layer. *)
Theorem identification_abort_and_ll_failure_do_not_notify
    (emm_context proc : option ptr) :
  calls_only abort_call (_identification_abort emm_context proc) /\
  calls_only no_call (_identification_ll_failure emm_context proc).
Proof. split; calls_auto. Qed.

(** X3. In every world and however they end, the start calls nothing but
    the delivery of EMMAS_SECURITY_REQ and EMMREG_COMMON_PROC_REQ and the
    start of T3470; the handover resend nothing but the delivery of
    EMMAS_SECURITY_REQ and the start of T3470; the timeout handler nothing
    but these two, the delivery of EMMREG_COMMON_PROC_ABORT and
    EMMCN_IMPLICIT_DETACH_UE and the detach indication.  None of the three
    stops a timer or delivers EMMREG_COMMON_PROC_CNF. *)
Theorem identification_sending_paths_calls
    (emm_context emm_proc : option ptr) (type : identity_type2_t)
    (success failure : option callback_t) :
  calls_only start_call
    (emm_proc_identification emm_context emm_proc type success failure) /\
  calls_only request_call (_identification_non_delivered_ho emm_context emm_proc) /\
  calls_only timeout_call (_identification_t3470_handler emm_context).
Proof. repeat split; calls_auto. Qed.

(** X4. Every primitive the functions of the file hand to [emm_sap_send]
    fills the member of the union that belongs to the SAP of the primitive,
    by the grouping of [emm_primitive_t]: EMMREG primitives carry [emm_reg],
    EMMAS primitives [emm_as], EMMCN primitives [emm_cn]. *)
Theorem identification_primitives_fill_their_sap
    (emm_context emm_proc : option ptr) (type : identity_type2_t)
    (success failure : option callback_t)
    (ue : mme_ue_s1ap_id_t) (imsi : option imsi_t) (imei : option imei_t)
    (imeisv : option imeisv_t) (tmsi : option Z) :
  calls_only sap_member_matches
    (emm_proc_identification emm_context emm_proc type success failure) /\
  calls_only sap_member_matches
    (emm_proc_identification_complete ue imsi imei imeisv tmsi) /\
  calls_only sap_member_matches (_identification_t3470_handler emm_context) /\
  calls_only sap_member_matches (_identification_non_delivered_ho emm_context emm_proc) /\
  calls_only sap_member_matches (_identification_ll_failure emm_context emm_proc) /\
  calls_only sap_member_matches (_identification_abort emm_context emm_proc).
Proof. repeat split; calls_auto. Qed.

(** ** Lower-layer failure and abort *)

Lemma lookup_foldr_delete_Some (m : gmap ptr nas_proc_t) (l : list ptr) x v :
  foldr (fun q m => delete q m) m l !! x = Some v -> m !! x = Some v.
Proof.
  induction l as [|a l IH]; simpl; [auto|].
  destruct (decide (a = x)) as [->|Hne].
  - now rewrite lookup_delete_eq.
  - rewrite lookup_delete_ne by exact Hne. exact IH.
Qed.

Lemma nas_delete_all_emm_procedures_Ret w ctx c :
  emm_contexts w !! ctx = Some c ->
  nas_delete_all_emm_procedures ctx w =
  Ret tt (mk_World (<[ctx:=set_emm_common_procs c []]> (emm_contexts w))
            (foldr (fun x m => delete x m) (procs w) (emm_common_procs c))
            (_emm_data w) (mme_ue_contexts w) (next_timer_id w) (next_puid w)
            (trace w)).
Proof.
  intros Hc. unfold nas_delete_all_emm_procedures.
  rewrite (bind_Ret _ _ _ _ _ (load_ctx_Ret _ _ _ Hc)). reflexivity.
Qed.

Lemma emm_proc_identification_complete_no_procedure w ue cp c imsi imei imeisv tmsi :
  ctx_coll_ue_id (_emm_data w) !! ue = Some cp ->
  emm_contexts w !! cp = Some c ->
  ident_proc_of w cp = None ->
  emm_proc_identification_complete ue imsi imei imeisv tmsi w = Ret RETURNerror w.
Proof.
  intros Hs Hc Hq. unfold emm_proc_identification_complete, emm_proc_identification_complete_with.
  rewrite (bind_Ret _ _ _ (Some cp) w) by (unfold emm_data_context_get; now rewrite Hs).
  rewrite (bind_Ret _ _ _ _ _ (get_nas_common_procedure_identification_Ret _ _ _ Hc)).
  now rewrite Hq.
Qed.

Lemma identification_t3470_handler_no_procedure w ctx c :
  emm_contexts w !! ctx = Some c ->
  ident_proc_of w ctx = None ->
  _identification_t3470_handler (Some ctx) w = Ret tt w.
Proof.
  intros Hc Hq. unfold _identification_t3470_handler.
  rewrite (bind_Ret _ _ _ _ _ (get_nas_common_procedure_identification_Ret _ _ _ Hc)).
  now rewrite Hq.
Qed.

(** X6. After a lower-layer failure the late events of the released
    procedure are ignored: an expiry of T3470 for it runs no handler, the
    timeout handler called for the context returns at once, and a response
    for the identifier of the context is dropped with RETURNerror; none of
    them changes the world or makes a call. *)
Theorem identification_ll_failure_then_late_events
    (w : World) (ctx proc q : ptr) (c : emm_data_context_t) (ue : mme_ue_s1ap_id_t)
    (imsi : option imsi_t) (imei : option imei_t) (imeisv : option imeisv_t)
    (tmsi : option Z)
    (Hc : emm_contexts w !! ctx = Some c)
    (Hq : q ∈ emm_common_procs c)
    (Hs : ctx_coll_ue_id (_emm_data w) !! ue = Some ctx) :
  exists w',
    _identification_ll_failure (Some ctx) (Some proc) w = Ret RETURNerror w' /\
    T3470_expiry q w' = Ret tt w' /\
    _identification_t3470_handler (Some ctx) w' = Ret tt w' /\
    emm_proc_identification_complete ue imsi imei imeisv tmsi w' = Ret RETURNerror w'.
Proof.
  unfold _identification_ll_failure.
  rewrite (bind_Ret _ _ _ _ _ (nas_delete_all_emm_procedures_Ret _ _ _ Hc)).
  eexists. split; [reflexivity|].
  set (w' := mk_World _ _ _ _ _ _ _).
  assert (Hc' : emm_contexts w' !! ctx = Some (set_emm_common_procs c []))
    by apply lookup_insert_eq.
  assert (Hn : ident_proc_of w' ctx = None).
  { unfold ident_proc_of. now rewrite Hc'. }
  split; [|split].
  - unfold T3470_expiry. subst w'. simpl.
    now rewrite (lookup_foldr_delete_elem _ _ _ Hq).
  - now apply identification_t3470_handler_no_procedure with (c := set_emm_common_procs c []).
  - now apply emm_proc_identification_complete_no_procedure
      with (cp := ctx) (c := set_emm_common_procs c []).
Qed.

Lemma identification_abort_Ret w ctx q p :
  procs w !! q = Some (IdentProc p) ->
  _identification_abort (Some ctx) (Some q) w =
  Ret RETURNerror
    (mk_World (emm_contexts w)
       (<[q:=IdentProc (set_T3470 p (set_timer_id (T3470 p) NAS_TIMER_INACTIVE_ID))]>
          (procs w))
       (_emm_data w) (mme_ue_contexts w) (next_timer_id w) (next_puid w)
       (trace w ++ [Ev_nas_stop_T3470 (ident_ue_id p) q])).
Proof.
  intros Hp. unfold _identification_abort.
  rewrite (bind_Ret _ _ _ _ _ (load_ident_Ret _ _ _ Hp)).
  now rewrite (bind_Ret _ _ _ _ _ (nas_stop_T3470_Ret _ (ident_ue_id p) _ _ Hp)).
Qed.

(** X7. [_identification_abort] on a live Identification procedure stops
    T3470 and does nothing else: the procedure keeps every other field, is
    still the procedure of its context, no primitive is delivered, and the
    function returns RETURNerror; on a pointer that holds no Identification
    procedure the type assertion is fatal in the unchanged world. *)
Theorem identification_abort_only_stops_T3470 (w : World) (ctx q : ptr) :
  match procs w !! q with
  | Some (IdentProc p) =>
      _identification_abort (Some ctx) (Some q) w =
      Ret RETURNerror
        (mk_World (emm_contexts w)
           (<[q:=IdentProc (set_T3470 p (set_timer_id (T3470 p) NAS_TIMER_INACTIVE_ID))]>
              (procs w))
           (_emm_data w) (mme_ue_contexts w) (next_timer_id w) (next_puid w)
           (trace w ++ [Ev_nas_stop_T3470 (ident_ue_id p) q])) /\
      forall other,
        ident_proc_of (world_of (_identification_abort (Some ctx) (Some q) w)) other =
        ident_proc_of w other
  | _ => _identification_abort (Some ctx) (Some q) w = Fatal w
  end.
Proof.
  destruct (procs w !! q) as [[p| |]|] eqn:Hp;
    try (unfold _identification_abort, bind, load_ident; now rewrite Hp).
  split; [now apply identification_abort_Ret|].
  intros other. rewrite (identification_abort_Ret w ctx q p Hp). simpl.
  eapply ident_proc_of_same_heap; [reflexivity|reflexivity|exact Hp].
Qed.

(** X8. After [_identification_abort] an expiry of T3470 for the procedure
    runs no handler and makes no call, and a second abort changes nothing
    but the trace: the heap, the contexts and the store are those the first
    abort left. *)
Theorem identification_abort_then_expiry_and_abort
    (w : World) (ctx q : ptr) (p : nas_emm_ident_proc_t)
    (Hp : procs w !! q = Some (IdentProc p)) :
  exists w1 w2,
    _identification_abort (Some ctx) (Some q) w = Ret RETURNerror w1 /\
    T3470_expiry q w1 = Ret tt w1 /\
    _identification_abort (Some ctx) (Some q) w1 = Ret RETURNerror w2 /\
    procs w2 = procs w1 /\
    emm_contexts w2 = emm_contexts w1 /\
    _emm_data w2 = _emm_data w1 /\
    trace w2 = trace w1 ++ [Ev_nas_stop_T3470 (ident_ue_id p) q].
Proof.
  rewrite (identification_abort_Ret w ctx q p Hp).
  eexists. eexists. split; [reflexivity|]. split.
  - apply T3470_expiry_disarmed. eexists. split; [apply lookup_insert_eq|reflexivity].
  - erewrite identification_abort_Ret by (simpl; apply lookup_insert_eq).
    split; [reflexivity|]. simpl. rewrite insert_insert_eq. auto.
Qed.

(** X9. A timeout that finds no context pointer, or a live context without
    Identification procedure, is ignored: the handler returns in the world
    it was called in. *)
Theorem identification_t3470_handler_stale_is_noop
    (w : World) (args : option ptr)
    (Hstale : args = None \/
              exists ctx c, args = Some ctx /\ emm_contexts w !! ctx = Some c /\
                            ident_proc_of w ctx = None) :
  _identification_t3470_handler args w = Ret tt w.
Proof.
  destruct Hstale as [-> | (ctx & c & -> & Hc & Hq)]; [reflexivity|].
  now apply identification_t3470_handler_no_procedure with (c := c).
Qed.

(** ** The other branches of the completion *)

(** The completion, for a context and a procedure that are found, up to
    the stop of T3470. *)
Lemma emm_proc_identification_complete_found w ue cp c q p imsi imei imeisv tmsi :
  ctx_coll_ue_id (_emm_data w) !! ue = Some cp ->
  emm_contexts w !! cp = Some c ->
  ident_proc_of w cp = Some q ->
  procs w !! q = Some (IdentProc p) ->
  emm_proc_identification_complete ue imsi imei imeisv tmsi w =
  complete_after_stop ue cp q imsi imei imeisv tmsi
    (mk_World (emm_contexts w)
       (<[q:=IdentProc (set_T3470 p (set_timer_id (T3470 p) NAS_TIMER_INACTIVE_ID))]>
          (procs w))
       (_emm_data w) (mme_ue_contexts w) (next_timer_id w) (next_puid w)
       (trace w ++ [Ev_nas_stop_T3470 ue q])).
Proof.
  intros Hs Hc Hq Hp. unfold emm_proc_identification_complete, emm_proc_identification_complete_with.
  rewrite (bind_Ret _ _ _ (Some cp) w) by (unfold emm_data_context_get; now rewrite Hs).
  rewrite (bind_Ret _ _ _ _ _ (get_nas_common_procedure_identification_Ret _ _ _ Hc)).
  rewrite Hq.
  now rewrite (bind_Ret _ _ _ _ _ (nas_stop_T3470_Ret _ ue _ _ Hp)).
Qed.

Lemma common_proc_cnf_Ret w ue cp q p notif :
  procs w !! q = Some (IdentProc p) ->
  common_proc_cnf ue cp q notif w =
  Ret (emm_sap_send_rc (trace w)
         (common_proc_cnf_sap ue cp q notif (previous_emm_fsm_state p)))
      (set_trace w (trace w ++
         [Ev_emm_sap_send (common_proc_cnf_sap ue cp q notif (previous_emm_fsm_state p))])).
Proof.
  intros Hp. unfold common_proc_cnf.
  now rewrite (bind_Ret _ _ _ _ _ (load_ident_Ret _ _ _ Hp)).
Qed.

Lemma complete_mme_app_duplicate_Ret w ue cp c q p uc pp sp :
  emm_contexts w !! cp = Some c ->
  procs w !! q = Some (IdentProc p) ->
  parent p = Some pp ->
  procs w !! pp = Some (SpecificProc sp) ->
  complete_mme_app_duplicate ue cp q uc w =
  Ret RETURNok
    (mk_World (emm_contexts w)
       (<[pp:=SpecificProc
                (mk_specific_proc
                   (mk_nas_timer (Z.of_N (next_timer_id w)) (retry_cb sp) (Some cp))
                   (retry_cb sp) (mme_ue_s1ap_id uc))]> (procs w))
       (_emm_data w) (mme_ue_contexts w) (N.succ (next_timer_id w)) (next_puid w)
       (trace w ++
        [Ev_nas_itti_esm_detach_ind (mme_ue_s1ap_id uc) false;
         Ev_nas_stop_T_retry_specific_procedure (ue_id c) pp;
         Ev_nas_start_T_retry_specific_procedure (ue_id c) pp;
         Ev_emm_sap_send (common_proc_cnf_sap ue cp q false (previous_emm_fsm_state p))])).
Proof.
  intros Hc Hp Hpar Hsp.
  assert (Hne : pp <> q) by (intros ->; congruence).
  unfold complete_mme_app_duplicate, nas_stop_T_retry_specific_procedure,
    nas_start_T_retry_specific_procedure, nas_itti_esm_detach_ind, upd_specific,
    common_proc_cnf, nas_timer_start, emm_sap_send, store_specific, log, modify, bind,
    load_ctx, load_ident, load_specific, ret.
  run_lookups. rewrite !Hpar. run_lookups.
  rewrite !insert_insert_eq. simpl. rewrite <- !app_assoc. reflexivity.
Qed.

(** X10. A response that carries an IMSI which no other EMM context holds
    but which the MME_APP index holds for another identifier, for a
    procedure whose parent is a specific procedure: after the stop of T3470
    the application layer gets the detach indication for that identifier,
    the retry timer of the parent is stopped and started again, the parent
    records the identifier, and the procedure is concluded by
    EMMREG_COMMON_PROC_CNF with notify = false; no EMMCN_IMPLICIT_DETACH_UE
    is delivered, no context and no store entry is changed, and the
    function returns RETURNok. *)
Theorem identification_complete_imsi_held_by_mme_app_context
    (w : World) (ue : mme_ue_s1ap_id_t) (cp q pp : ptr)
    (c : emm_data_context_t) (p : nas_emm_ident_proc_t) (sp : nas_emm_specific_proc_t)
    (uc : ue_context_t)
    (i : imsi_t) (imei : option imei_t) (imeisv : option imeisv_t) (tmsi : option Z)
    (Hs : ctx_coll_ue_id (_emm_data w) !! ue = Some cp)
    (Hc : emm_contexts w !! cp = Some c)
    (Hq : ident_proc_of w cp = Some q)
    (Hp : procs w !! q = Some (IdentProc p))
    (Hemm : forall dp, ctx_coll_imsi (_emm_data w) !! imsi_to_imsi64 i = Some dp ->
                       exists d, emm_contexts w !! dp = Some d /\ ue_id d = ue_id c)
    (Hmme : mme_ue_contexts w !! imsi_to_imsi64 i = Some uc)
    (Hne : mme_ue_s1ap_id uc <> ue_id c)
    (Hpar : parent p = Some pp)
    (Hsp : procs w !! pp = Some (SpecificProc sp)) :
  exists w',
    emm_proc_identification_complete ue (Some i) imei imeisv tmsi w = Ret RETURNok w' /\
    new_events w (emm_proc_identification_complete ue (Some i) imei imeisv tmsi w) =
      [Ev_nas_stop_T3470 ue q;
       Ev_nas_itti_esm_detach_ind (mme_ue_s1ap_id uc) false;
       Ev_nas_stop_T_retry_specific_procedure (ue_id c) pp;
       Ev_nas_start_T_retry_specific_procedure (ue_id c) pp;
       Ev_emm_sap_send (common_proc_cnf_sap ue cp q false (previous_emm_fsm_state p))] /\
    (exists t, procs w' !! pp =
                 Some (SpecificProc (mk_specific_proc t (retry_cb sp) (mme_ue_s1ap_id uc))) /\
               nas_timer_id t <> NAS_TIMER_INACTIVE_ID /\
               nas_timer_args t = Some cp) /\
    emm_contexts w' = emm_contexts w /\
    _emm_data w' = _emm_data w /\
    mme_ue_contexts w' = mme_ue_contexts w.
Proof.
  assert (Hqp : pp <> q) by (intros ->; congruence).
  rewrite (emm_proc_identification_complete_found _ _ _ _ _ _ _ _ _ _ Hs Hc Hq Hp).
  unfold complete_after_stop, complete_update_identity, complete_imsi.
  erewrite bind_Ret.
  2:{ erewrite bind_Ret by (apply load_ctx_Ret; exact Hc).
      unfold emm_data_context_get_by_imsi at 1. unfold bind at 1. simpl.
      assert (Hrest :
        forall w0, mme_ue_contexts w0 = mme_ue_contexts w ->
          (let* ue_context_duplicate_imsi :=
             mme_ue_context_exists_imsi (imsi_to_imsi64 i) in
           match ue_context_duplicate_imsi with
           | Some uc0 =>
               if negb (mme_ue_s1ap_id uc0 =? ue_id c)
               then let* rc := complete_mme_app_duplicate ue cp q uc0 in ret (Some rc)
               else let* _ := complete_commit_imsi cp i (imsi_to_imsi64 i) in ret None
           | None => let* _ := complete_commit_imsi cp i (imsi_to_imsi64 i) in ret None
           end) w0 =
          (let* rc := complete_mme_app_duplicate ue cp q uc in ret (Some rc)) w0).
      { intros w0 Hw0. unfold mme_ue_context_exists_imsi at 1. unfold bind at 1.
        rewrite Hw0, Hmme. apply Z.eqb_neq in Hne. now rewrite Hne. }
      destruct (ctx_coll_imsi (_emm_data w) !! imsi_to_imsi64 i) as [dp|] eqn:Hdp.
      - destruct (Hemm dp eq_refl) as (d & Hd & Hue).
        erewrite bind_Ret.
        2:{ erewrite bind_Ret by (apply load_ctx_Ret; exact Hd). reflexivity. }
        rewrite Hue, Z.eqb_refl. simpl. rewrite Hrest by reflexivity.
        erewrite bind_Ret.
        2:{ apply complete_mme_app_duplicate_Ret with (c := c) (pp := pp) (sp := sp);
            simpl; [exact Hc|apply lookup_insert_eq|exact Hpar|].
            now rewrite lookup_insert_ne by (apply not_eq_sym; exact Hqp). }
        reflexivity.
      - erewrite bind_Ret by reflexivity. rewrite Hrest by reflexivity.
        erewrite bind_Ret.
        2:{ apply complete_mme_app_duplicate_Ret with (c := c) (pp := pp) (sp := sp);
            simpl; [exact Hc|apply lookup_insert_eq|exact Hpar|].
            now rewrite lookup_insert_ne by (apply not_eq_sym; exact Hqp). }
        reflexivity. }
  eexists. split; [reflexivity|]. simpl. split; [|split; [|auto]].
  - apply new_events_app. simpl. now rewrite <- app_assoc.
  - eexists. split; [apply lookup_insert_eq|]. simpl. split; [|reflexivity].
    unfold NAS_TIMER_INACTIVE_ID. lia.
Qed.

(** X11. A response without IMSI, for a context and a procedure that are
    found: an IMEI is recorded on the context, whatever IMEISV or TMSI comes
    with it; an IMEISV is recorded when there is no IMEI, whatever TMSI
    comes with it.  In both cases nothing else of the context, no other
    context and no store entry changes, and after the stop of T3470 the
    one primitive delivered is EMMREG_COMMON_PROC_CNF with notify = true,
    whose result code the function returns. *)
Theorem identification_complete_records_imei_or_imeisv
    (w : World) (ue : mme_ue_s1ap_id_t) (cp q : ptr)
    (c : emm_data_context_t) (p : nas_emm_ident_proc_t)
    (Hs : ctx_coll_ue_id (_emm_data w) !! ue = Some cp)
    (Hc : emm_contexts w !! cp = Some c)
    (Hq : ident_proc_of w cp = Some q)
    (Hp : procs w !! q = Some (IdentProc p)) :
  let cnf := common_proc_cnf_sap ue cp q true (previous_emm_fsm_state p) in
  let rc := emm_sap_send_rc (trace w ++ [Ev_nas_stop_T3470 ue q]) cnf in
  (forall imei imeisv tmsi,
     exists w',
       emm_proc_identification_complete ue None (Some imei) imeisv tmsi w = Ret rc w' /\
       emm_contexts w' = <[cp:=set_imei c imei]> (emm_contexts w) /\
       _emm_data w' = _emm_data w /\
       trace w' = trace w ++ [Ev_nas_stop_T3470 ue q; Ev_emm_sap_send cnf]) /\
  (forall imeisv tmsi,
     exists w',
       emm_proc_identification_complete ue None None (Some imeisv) tmsi w = Ret rc w' /\
       emm_contexts w' = <[cp:=set_imeisv c imeisv]> (emm_contexts w) /\
       _emm_data w' = _emm_data w /\
       trace w' = trace w ++ [Ev_nas_stop_T3470 ue q; Ev_emm_sap_send cnf]).
Proof.
  intros cnf rc. split; intros;
    rewrite (emm_proc_identification_complete_found _ _ _ _ _ _ _ _ _ _ Hs Hc Hq Hp);
    unfold complete_after_stop, complete_update_identity,
      emm_ctx_set_valid_imei, emm_ctx_set_valid_imeisv.
  - erewrite bind_Ret.
    2:{ erewrite bind_Ret by (apply upd_ctx_Ret; exact Hc). reflexivity. }
    cbv beta iota.
    erewrite common_proc_cnf_Ret by (simpl; apply lookup_insert_eq).
    eexists. split; [reflexivity|]. simpl. rewrite <- app_assoc. auto.
  - erewrite bind_Ret.
    2:{ erewrite bind_Ret by (apply upd_ctx_Ret; exact Hc). reflexivity. }
    cbv beta iota.
    erewrite common_proc_cnf_Ret by (simpl; apply lookup_insert_eq).
    eexists. split; [reflexivity|]. simpl. rewrite <- app_assoc. auto.
Qed.

(** X12. A response that carries no identity at all, for a context and a
    procedure that are found, still concludes the procedure as a success:
    T3470 is stopped, EMMREG_COMMON_PROC_CNF with notify = true is
    delivered and its result code returned, and every context and the store
    are left as they were. *)
Theorem identification_complete_without_identity
    (w : World) (ue : mme_ue_s1ap_id_t) (cp q : ptr)
    (c : emm_data_context_t) (p : nas_emm_ident_proc_t)
    (Hs : ctx_coll_ue_id (_emm_data w) !! ue = Some cp)
    (Hc : emm_contexts w !! cp = Some c)
    (Hq : ident_proc_of w cp = Some q)
    (Hp : procs w !! q = Some (IdentProc p)) :
  let cnf := common_proc_cnf_sap ue cp q true (previous_emm_fsm_state p) in
  exists w',
    emm_proc_identification_complete ue None None None None w =
      Ret (emm_sap_send_rc (trace w ++ [Ev_nas_stop_T3470 ue q]) cnf) w' /\
    emm_contexts w' = emm_contexts w /\
    _emm_data w' = _emm_data w /\
    T3470_disarmed q w' /\
    trace w' = trace w ++ [Ev_nas_stop_T3470 ue q; Ev_emm_sap_send cnf].
Proof.
  intros cnf.
  rewrite (emm_proc_identification_complete_found _ _ _ _ _ _ _ _ _ _ Hs Hc Hq Hp).
  unfold complete_after_stop, complete_update_identity.
  erewrite bind_Ret by reflexivity. cbv beta iota.
  erewrite common_proc_cnf_Ret by (simpl; apply lookup_insert_eq).
  eexists. split; [reflexivity|]. simpl. rewrite <- app_assoc.
  repeat split. eexists. split; [apply lookup_insert_eq|reflexivity].
Qed.

(** X13. A response that carries a TMSI and nothing else is fatal for a
    context and a procedure that are found: the assertion fails after the
    stop of T3470, which is the only call made, and no conclusion is
    delivered.  A TMSI that comes with an IMSI, an IMEI or an IMEISV is
    not looked at: the completion behaves as without it, in every world. *)
Theorem identification_complete_tmsi_alone_is_fatal
    (w : World) (ue : mme_ue_s1ap_id_t) (cp q : ptr)
    (c : emm_data_context_t) (p : nas_emm_ident_proc_t) (tmsi : Z)
    (Hs : ctx_coll_ue_id (_emm_data w) !! ue = Some cp)
    (Hc : emm_contexts w !! cp = Some c)
    (Hq : ident_proc_of w cp = Some q)
    (Hp : procs w !! q = Some (IdentProc p)) :
  emm_proc_identification_complete ue None None None (Some tmsi) w =
    Fatal (mk_World (emm_contexts w)
             (<[q:=IdentProc (set_T3470 p (set_timer_id (T3470 p) NAS_TIMER_INACTIVE_ID))]>
                (procs w))
             (_emm_data w) (mme_ue_contexts w) (next_timer_id w) (next_puid w)
             (trace w ++ [Ev_nas_stop_T3470 ue q])) /\
  (forall w0 ue0 imsi imei imeisv,
     imsi <> None \/ imei <> None \/ imeisv <> None ->
     emm_proc_identification_complete ue0 imsi imei imeisv (Some tmsi) w0 =
     emm_proc_identification_complete ue0 imsi imei imeisv None w0).
Proof.
  split.
  - rewrite (emm_proc_identification_complete_found _ _ _ _ _ _ _ _ _ _ Hs Hc Hq Hp).
    reflexivity.
  - intros w0 ue0 imsi imei imeisv H.
    destruct imsi, imei, imeisv; try reflexivity.
    destruct H as [H | [H | H]]; congruence.
Qed.

(** ** When the send routine fails *)

(** X14. A timeout below the maximum whose resend fails — the store no
    longer knows the identifier of the procedure, or the delivery of the
    request reports an error — still counts: the counter is incremented, by
    the increment of an [unsigned int], but T3470 is left disarmed and is
    not started, so its expiry will run no handler again; the procedure
    stays the procedure of the context. *)
Theorem identification_t3470_handler_resend_fails
    (w : World) (ctx q : ptr) (c : emm_data_context_t) (p : nas_emm_ident_proc_t)
    (Hc : emm_contexts w !! ctx = Some c)
    (Hq : ident_proc_of w ctx = Some q)
    (Hp : procs w !! q = Some (IdentProc p))
    (Hlt : uint_incr (retransmission_count p) < IDENTIFICATION_COUNTER_MAX)
    (Hfail : ctx_coll_ue_id (_emm_data w) !! ident_ue_id p = None \/
             exists cp sc,
               ctx_coll_ue_id (_emm_data w) !! ident_ue_id p = Some cp /\
               emm_contexts w !! cp = Some sc /\
               emm_sap_send_rc (trace w) (identity_request_sap p sc) = RETURNerror) :
  exists w',
    _identification_t3470_handler (Some ctx) w = Ret tt w' /\
    procs w' =
      <[q:=IdentProc (set_retransmission_count
                        (set_T3470 p (set_timer_id (T3470 p) NAS_TIMER_INACTIVE_ID))
                        (uint_incr (retransmission_count p)))]> (procs w) /\
    emm_contexts w' = emm_contexts w /\
    ident_proc_of w' ctx = Some q /\
    T3470_disarmed q w' /\
    T3470_expiry q w' = Ret tt w' /\
    (forall ue x, Ev_nas_start_T3470 ue x ∉
                  new_events w (_identification_t3470_handler (Some ctx) w)).
Proof.
  rewrite (identification_t3470_handler_prefix _ _ _ _ _ Hc Hq Hp). cbv zeta.
  apply Z.ltb_lt in Hlt. rewrite Hlt.
  set (p' := set_retransmission_count _ _).
  set (w2 := set_procs w _).
  assert (Hp2 : procs w2 !! q = Some (IdentProc p')) by apply lookup_insert_eq.
  assert (Hdis : forall w', procs w' = procs w2 -> T3470_disarmed q w').
  { intros w' Hw'. exists p'. rewrite Hw'. split; [exact Hp2|reflexivity]. }
  assert (Hof : forall w', procs w' = procs w2 -> emm_contexts w' = emm_contexts w ->
                           ident_proc_of w' ctx = Some q).
  { intros w' Hw' Hc'. rewrite <- Hq.
    eapply ident_proc_of_same_heap; [exact Hc'|exact Hw'|exact Hp]. }
  destruct Hfail as [Hs | (cp & sc & Hs & Hsc & Hrc)].
  - rewrite (bind_Ret _ _ _ _ _ (identification_request_absent w2 q p' Hp2 Hs)).
    exists w2. split; [reflexivity|]. split; [reflexivity|]. split; [reflexivity|].
    split; [now apply Hof|]. split; [now apply Hdis|].
    split; [apply T3470_expiry_disarmed; now apply Hdis|].
    intros ue x. erewrite new_events_app by (simpl; now rewrite app_nil_r).
    apply not_elem_of_nil.
  - rewrite (bind_Ret _ _ _ _ _
               (identification_request_refused w2 q p' cp sc Hp2 Hs Hsc Hrc)).
    eexists. split; [reflexivity|]. simpl.
    split; [reflexivity|]. split; [reflexivity|].
    split; [now apply Hof|]. split; [now apply Hdis|].
    split; [apply T3470_expiry_disarmed; now apply Hdis|].
    intros ue x. erewrite new_events_app by reflexivity.
    intros Hin. apply list_elem_of_singleton in Hin. discriminate.
Qed.

(** X15. A start in a permitted state for a context the store does not
    know returns RETURNerror and makes no call, yet it is no no-op: the
    context has an Identification procedure afterwards, allocated when
    there was none, set up with the requested type, the parent, the
    callbacks and the counter 0. *)
Theorem emm_proc_identification_unknown_context_sets_up
    (w : World) (ctx : ptr) (c : emm_data_context_t) (emm_proc : option ptr)
    (type : identity_type2_t) (success failure : option callback_t)
    (Hc : emm_contexts w !! ctx = Some c)
    (Hperm : common_procedure_permitted (_emm_fsm_state c) = true)
    (Hs : ctx_coll_ue_id (_emm_data w) !! ue_id c = None) :
  exists w' q p0,
    emm_proc_identification (Some ctx) emm_proc type success failure w =
      Ret RETURNerror w' /\
    trace w' = trace w /\
    ident_proc_of w' ctx = Some q /\
    procs w' !! q =
      Some (IdentProc (init_ident_proc p0 type (ue_id c) emm_proc (_emm_fsm_state c)
                         success failure)) /\
    (ident_proc_of w ctx = None ->
     procs w !! q = None /\ p0 = new_ident_proc (next_puid w)) /\
    (ident_proc_of w ctx = Some q -> procs w !! q = Some (IdentProc p0)).
Proof.
  unfold emm_proc_identification.
  rewrite (bind_Ret _ _ _ _ _ (load_ctx_Ret _ _ _ Hc)). rewrite Hperm.
  destruct (ident_proc_of w ctx) as [q|] eqn:Hq.
  - destruct (ident_proc_of_is_ident _ _ _ Hq) as [p0 Hp].
    rewrite (bind_Ret _ _ _ _ _ (get_or_new_identification_procedure_found _ _ _ _ Hc Hq)).
    unfold identification_setup_and_send.
    rewrite (bind_Ret _ _ _ _ _ (emm_fsm_get_state_Ret _ _ _ Hc)).
    rewrite (bind_Ret _ _ _ _ _ (upd_ident_Ret _ _ _ _ Hp)).
    erewrite bind_Ret
      by (apply identification_request_absent with (p := init_ident_proc p0 type (ue_id c)
                 emm_proc (_emm_fsm_state c) success failure);
          [apply lookup_insert_eq|exact Hs]).
    simpl. eexists. exists q, p0. split; [reflexivity|]. simpl.
    split; [reflexivity|]. split.
    + rewrite <- Hq. eapply ident_proc_of_same_heap; [reflexivity|reflexivity|exact Hp].
    + split; [apply lookup_insert_eq|]. split; [discriminate|]. now intros _.
  - rewrite (bind_Ret _ _ _ _ _ (get_or_new_identification_procedure_new _ _ _ Hc Hq)).
    set (q := fresh (dom (procs w))).
    assert (Hfresh : procs w !! q = None) by (apply not_elem_of_dom, is_fresh).
    unfold identification_setup_and_send.
    erewrite bind_Ret by (apply emm_fsm_get_state_Ret; simpl; apply lookup_insert_eq).
    erewrite bind_Ret by (apply upd_ident_Ret; simpl; apply lookup_insert_eq).
    erewrite bind_Ret
      by (apply identification_request_absent
            with (p := init_ident_proc (new_ident_proc (next_puid w)) type (ue_id c)
                         emm_proc (_emm_fsm_state c) success failure);
          [simpl; apply lookup_insert_eq|exact Hs]).
    simpl. eexists. exists q, (new_ident_proc (next_puid w)).
    split; [reflexivity|]. simpl. split; [reflexivity|]. split.
    + unfold ident_proc_of. simpl. rewrite lookup_insert_eq. simpl.
      now rewrite lookup_insert_eq.
    + split; [apply lookup_insert_eq|]. split; [auto|discriminate].
Qed.

(** ** Handover resends between timeouts *)

Lemma identification_non_delivered_ho_awaiting w ctx q ue k msg :
  (forall h m, primitive m = EMMAS_SECURITY_REQ -> emm_sap_send_rc h m <> RETURNerror) ->
  awaiting_response w ctx q ue k msg ->
  exists rc w',
    _identification_non_delivered_ho (Some ctx) (Some q) w = Ret rc w' /\
    awaiting_response w' ctx q ue k msg /\
    trace w' = trace w ++ [Ev_emm_sap_send msg; Ev_nas_start_T3470 ue q].
Proof.
  intros Hsend (c & p & Hc & Hq & Hp & Hue & Hs & Hk & Ht & Hm).
  unfold _identification_non_delivered_ho. subst ue k.
  rewrite (identification_request_sent w q p ctx c Hp Hs Hc) by now apply Hsend.
  eexists. eexists. split; [reflexivity|]. simpl. split.
  - exists c. eexists. simpl. split; [exact Hc|]. split.
    + rewrite <- Hq. eapply ident_proc_of_same_heap; [reflexivity|reflexivity|exact Hp].
    + split; [apply lookup_insert_eq|]. simpl.
      repeat split; auto. unfold NAS_TIMER_INACTIVE_ID. lia.
  - now rewrite <- Hm.
Qed.

Lemma handover_resends_awaiting n : forall w ctx q ue k msg,
  (forall h m, primitive m = EMMAS_SECURITY_REQ -> emm_sap_send_rc h m <> RETURNerror) ->
  awaiting_response w ctx q ue k msg ->
  exists w',
    handover_resends n ctx q w = Ret tt w' /\
    awaiting_response w' ctx q ue k msg /\
    trace w' = trace w ++
               concat (replicate n [Ev_emm_sap_send msg; Ev_nas_start_T3470 ue q]).
Proof.
  induction n as [|n IH]; intros w ctx q ue k msg Hsend Ha.
  - exists w. simpl. rewrite app_nil_r. auto.
  - destruct (identification_non_delivered_ho_awaiting w ctx q ue k msg Hsend Ha)
      as (rc & w1 & E1 & A1 & T1).
    destruct (IH w1 ctx q ue k msg Hsend A1) as (w2 & E2 & A2 & T2).
    exists w2. split; [|split; [exact A2|]].
    + change (handover_resends (S n) ctx q w)
        with ((let* _ := _identification_non_delivered_ho (Some ctx) (Some q) in
               handover_resends n ctx q) w).
      now rewrite (bind_Ret _ _ _ _ _ E1).
    + rewrite T2, T1. simpl. now rewrite <- app_assoc.
Qed.

(** X16. With an access stratum that accepts the requests and a maximum of
    at most [UINT_MAX]: any number [n] of non-deliveries during handover,
    reported while a context awaits a response with the counter at [k],
    resend the request [n] times and leave the context awaiting with the
    counter still at [k]; the abort then comes, as without them, at the
    timeout that brings the counter to the maximum, after [max - k - 1]
    further retransmissions.  That timeout delivers
    EMMREG_COMMON_PROC_ABORT, releases the procedure and stops on the read
    of the released procedure. *)
Theorem identification_handover_resends_keep_the_retry_budget
    (Hsend : forall h m, primitive m = EMMAS_SECURITY_REQ ->
                         emm_sap_send_rc h m <> RETURNerror)
    (w : World) (ctx q : ptr) (ue : mme_ue_s1ap_id_t) (k : Z) (msg : emm_sap_t)
    (n m : nat)
    (Ha : awaiting_response w ctx q ue k msg)
    (Hk0 : 0 <= k)
    (Hk : k + Z.of_nat m + 1 = IDENTIFICATION_COUNTER_MAX)
    (Hle : IDENTIFICATION_COUNTER_MAX <= UINT_MAX) :
  exists w1 w2 prev,
    handover_resends n ctx q w = Ret tt w1 /\
    awaiting_response w1 ctx q ue k msg /\
    trace w1 = trace w ++
               concat (replicate n [Ev_emm_sap_send msg; Ev_nas_start_T3470 ue q]) /\
    timeouts (S m) (Some ctx) w1 = Fatal w2 /\
    ident_proc_of w2 ctx = None /\
    procs w2 !! q = None /\
    trace w2 = trace w1 ++
               concat (replicate m [Ev_emm_sap_send msg; Ev_nas_start_T3470 ue q]) ++
               [Ev_emm_sap_send (common_proc_abort_sap ue ctx q prev)].
Proof.
  destruct (handover_resends_awaiting n w ctx q ue k msg Hsend Ha) as (w1 & E1 & A1 & T1).
  destruct (timeouts_until_abort Hsend m w1 ctx q ue k msg A1 Hk0 Hk Hle)
    as (w2 & prev & E2 & I2 & P2 & T2).
  exists w1, w2, prev. auto 10.
Qed.

(** ** What the functions keep *)

Lemma keeps_ret {A} I (a : A) : keeps I (ret a).
Proof. intros w HI. exact HI. Qed.

Lemma keeps_fatal {A} I : keeps I (@fatal A).
Proof. intros w HI. exact HI. Qed.

Lemma keeps_bind {A B} I (m : M A) (k : A -> M B) :
  keeps I m -> (forall a, keeps I (k a)) -> keeps I (let* x := m in k x).
Proof.
  intros Hm Hk w HI. unfold bind. specialize (Hm w HI).
  destruct (m w) as [a w1|w1]; simpl in Hm; [now apply Hk|exact Hm].
Qed.

(** An operation that ends in the world it started in. *)
Lemma keeps_read {A} I (m : M A) : (forall w, world_of (m w) = w) -> keeps I m.
Proof. intros H w HI. now rewrite H. Qed.

Lemma keeps_modify I f : (forall w, I w -> I (f w)) -> keeps I (modify f).
Proof. intros H w HI. now apply H. Qed.

Lemma keeps_emm_sap_send I msg :
  (forall w t, I w -> I (set_trace w t)) -> keeps I (emm_sap_send msg).
Proof. intros H w HI. now apply H. Qed.

Lemma keeps_nas_timer_start I :
  (forall w n, I w -> I (set_next_timer_id w n)) -> keeps I nas_timer_start.
Proof. intros H w HI. now apply H. Qed.

Lemma world_load_ctx p w : world_of (load_ctx p w) = w.
Proof. unfold load_ctx. now destruct (_ !! _). Qed.

Lemma world_load_ident p w : world_of (load_ident p w) = w.
Proof. unfold load_ident. now destruct (_ !! _) as [[]|]. Qed.

Lemma world_load_specific p w : world_of (load_specific p w) = w.
Proof.
  unfold load_specific. destruct p; [|reflexivity]. now destruct (_ !! _) as [[]|].
Qed.

(** Structural walk for an invariant that every update met on the way keeps
    by conversion. *)
Ltac keeps_walk :=
  repeat first
    [ apply keeps_ret
    | apply keeps_fatal
    | apply keeps_read;
      solve [ first [ apply world_load_ctx | apply world_load_ident
                    | apply world_load_specific | intros; reflexivity ] ]
    | apply keeps_modify; intros ? ?; assumption
    | apply keeps_emm_sap_send; intros ? ? ?; assumption
    | apply keeps_nas_timer_start; intros ? ? ?; assumption
    | apply keeps_bind; [|intros ?]
    | match goal with
      | |- keeps _ (match ?x with _ => _ end) => destruct x
      | |- keeps _ (if ?b then _ else _) => destruct b
      end ].

Ltac keeps_auto := unfold_functions; unfold_collaborators; unfold log; keeps_walk.

Lemma keeps_store_emm_proc_identification d mm ctx emm_proc type success failure :
  keeps (fun w => _emm_data w = d /\ mme_ue_contexts w = mm)
    (emm_proc_identification ctx emm_proc type success failure).
Proof. keeps_auto. Qed.

Lemma keeps_store_identification_t3470_handler d mm args :
  keeps (fun w => _emm_data w = d /\ mme_ue_contexts w = mm)
    (_identification_t3470_handler args).
Proof. keeps_auto. Qed.

Lemma keeps_store_identification_non_delivered_ho d mm ctx proc :
  keeps (fun w => _emm_data w = d /\ mme_ue_contexts w = mm)
    (_identification_non_delivered_ho ctx proc).
Proof. keeps_auto. Qed.

Lemma keeps_store_identification_ll_failure d mm ctx proc :
  keeps (fun w => _emm_data w = d /\ mme_ue_contexts w = mm)
    (_identification_ll_failure ctx proc).
Proof. keeps_auto. Qed.

Lemma keeps_store_identification_abort d mm ctx proc :
  keeps (fun w => _emm_data w = d /\ mme_ue_contexts w = mm)
    (_identification_abort ctx proc).
Proof. keeps_auto. Qed.

Lemma keeps_store_emm_proc_identification_complete a mm ue imsi imei imeisv tmsi :
  keeps (fun w => ctx_coll_ue_id (_emm_data w) = a /\ mme_ue_contexts w = mm)
    (emm_proc_identification_complete ue imsi imei imeisv tmsi).
Proof. keeps_auto. Qed.

(** X17. In every world and however they end, the start, the timeout
    handler, the handover resend, the lower-layer failure and the abort
    leave the context store and the MME_APP index exactly as they were; the
    completion leaves the index by identifier and the MME_APP index as they
    were.  No function of the file adds a context to the store or removes
    one from it. *)
Theorem identification_leaves_the_stores
    (w : World) (emm_context emm_proc : option ptr) (type : identity_type2_t)
    (success failure : option callback_t)
    (ue : mme_ue_s1ap_id_t) (imsi : option imsi_t) (imei : option imei_t)
    (imeisv : option imeisv_t) (tmsi : option Z) :
  let same_stores (w' : World) :=
    _emm_data w' = _emm_data w /\ mme_ue_contexts w' = mme_ue_contexts w in
  same_stores (world_of (emm_proc_identification emm_context emm_proc type
                           success failure w)) /\
  same_stores (world_of (_identification_t3470_handler emm_context w)) /\
  same_stores (world_of (_identification_non_delivered_ho emm_context emm_proc w)) /\
  same_stores (world_of (_identification_ll_failure emm_context emm_proc w)) /\
  same_stores (world_of (_identification_abort emm_context emm_proc w)) /\
  (let w' := world_of (emm_proc_identification_complete ue imsi imei imeisv tmsi w) in
   ctx_coll_ue_id (_emm_data w') = ctx_coll_ue_id (_emm_data w) /\
   mme_ue_contexts w' = mme_ue_contexts w).
Proof.
  intros same_stores. subst same_stores. cbv beta.
  split; [|split; [|split; [|split; [|split]]]].
  - now apply keeps_store_emm_proc_identification.
  - now apply keeps_store_identification_t3470_handler.
  - now apply keeps_store_identification_non_delivered_ho.
  - now apply keeps_store_identification_ll_failure.
  - now apply keeps_store_identification_abort.
  - now apply keeps_store_emm_proc_identification_complete.
Qed.

(** ** The bound on the retransmission counter *)

Section CounterBound.

Hypothesis Hmax : 1 <= IDENTIFICATION_COUNTER_MAX.

Lemma counters_bounded_same_procs w w' :
  procs w' = procs w -> counters_bounded w -> counters_bounded w'.
Proof. intros H Hcb q p Hq. apply (Hcb q p). now rewrite <- H. Qed.

Lemma counters_bounded_insert_ident w q p :
  0 <= retransmission_count p < IDENTIFICATION_COUNTER_MAX ->
  counters_bounded w ->
  counters_bounded (set_procs w (<[q:=IdentProc p]> (procs w))).
Proof.
  intros Hp Hcb x px. simpl. intros Hx. destruct (decide (q = x)) as [->|Hne].
  - rewrite lookup_insert_eq in Hx. now injection Hx as <-.
  - rewrite lookup_insert_ne in Hx by exact Hne. now apply (Hcb x).
Qed.

Lemma keeps_bound_upd_ident q f :
  (forall p, 0 <= retransmission_count p < IDENTIFICATION_COUNTER_MAX ->
             0 <= retransmission_count (f p) < IDENTIFICATION_COUNTER_MAX) ->
  keeps counters_bounded (upd_ident q f).
Proof.
  intros Hf w Hcb. unfold upd_ident, bind, load_ident.
  destruct (procs w !! q) as [[p| |]|] eqn:Hq; try exact Hcb.
  unfold store_ident, modify. simpl.
  apply counters_bounded_insert_ident; [|exact Hcb]. apply Hf. now apply (Hcb q).
Qed.

Lemma keeps_bound_upd_specific q f : keeps counters_bounded (upd_specific q f).
Proof.
  intros w Hcb. unfold upd_specific, bind, load_specific.
  destruct q as [x|]; [|exact Hcb].
  destruct (procs w !! x) as [[| |]|] eqn:Hx; try exact Hcb.
  unfold store_specific, modify. simpl.
  intros y py Hy. simpl in Hy. destruct (decide (x = y)) as [->|Hne].
  - rewrite lookup_insert_eq in Hy. discriminate.
  - rewrite lookup_insert_ne in Hy by exact Hne. now apply (Hcb y).
Qed.

Lemma keeps_bound_nas_new_identification_procedure ctx :
  keeps counters_bounded (nas_new_identification_procedure ctx).
Proof.
  intros w Hcb. unfold nas_new_identification_procedure, bind, load_ctx.
  destruct (emm_contexts w !! ctx); [|exact Hcb].
  unfold get_world, store_ctx, modify, ret. simpl.
  intros y py Hy. simpl in Hy.
  destruct (decide (fresh (dom (procs w)) = y)) as [Heq|Hne].
  - rewrite Heq, lookup_insert_eq in Hy. injection Hy as <-. simpl. lia.
  - rewrite lookup_insert_ne in Hy by exact Hne. now apply (Hcb y).
Qed.

Lemma keeps_bound_nas_delete_all_emm_procedures ctx :
  keeps counters_bounded (nas_delete_all_emm_procedures ctx).
Proof.
  intros w Hcb. unfold nas_delete_all_emm_procedures, bind, load_ctx.
  destruct (emm_contexts w !! ctx); [|exact Hcb].
  unfold store_ctx, modify. simpl.
  intros y py Hy. simpl in Hy. apply lookup_foldr_delete_Some in Hy. now apply (Hcb y).
Qed.

Ltac bound_walk :=
  repeat first
    [ apply keeps_ret
    | apply keeps_fatal
    | apply keeps_bound_upd_ident; intros ? ?; simpl; first [assumption | lia]
    | apply keeps_bound_upd_specific
    | apply keeps_bound_nas_new_identification_procedure
    | apply keeps_bound_nas_delete_all_emm_procedures
    | apply keeps_read;
      solve [ first [ apply world_load_ctx | apply world_load_ident
                    | apply world_load_specific | intros; reflexivity ] ]
    | apply keeps_modify; intros ? ?; assumption
    | apply keeps_emm_sap_send; intros ? ? ?; assumption
    | apply keeps_nas_timer_start; intros ? ? ?; assumption
    | apply keeps_bind; [|intros ?]
    | match goal with
      | |- keeps _ (match ?x with _ => _ end) => destruct x
      | |- keeps _ (if ?b then _ else _) => destruct b
      end ].

Ltac bound_auto :=
  unfold_functions;
  unfold nas_stop_T3470, nas_start_T3470, nas_start_T_retry_specific_procedure,
    nas_stop_T_retry_specific_procedure, nas_itti_esm_detach_ind,
    get_nas_common_procedure_identification, emm_fsm_get_state,
    emm_ctx_set_valid_imsi, emm_ctx_set_valid_imei, emm_ctx_set_valid_imeisv,
    emm_data_context_upsert_imsi, upd_ctx, store_ctx, log;
  bound_walk.

Lemma keeps_bound_identification_request q :
  keeps counters_bounded (_identification_request q).
Proof. bound_auto. Qed.

Lemma keeps_bound_emm_proc_identification ctx emm_proc type success failure :
  keeps counters_bounded (emm_proc_identification ctx emm_proc type success failure).
Proof. bound_auto. Qed.

Lemma keeps_bound_emm_proc_identification_complete ue imsi imei imeisv tmsi :
  keeps counters_bounded (emm_proc_identification_complete ue imsi imei imeisv tmsi).
Proof. bound_auto. Qed.

Lemma keeps_bound_identification_non_delivered_ho ctx proc :
  keeps counters_bounded (_identification_non_delivered_ho ctx proc).
Proof. bound_auto. Qed.

Lemma keeps_bound_identification_ll_failure ctx proc :
  keeps counters_bounded (_identification_ll_failure ctx proc).
Proof. bound_auto. Qed.

Lemma keeps_bound_identification_abort ctx proc :
  keeps counters_bounded (_identification_abort ctx proc).
Proof. bound_auto. Qed.

(** The handler writes a counter at or above the maximum into the procedure
    just before it releases it, so the bound is re-established by the
    release. *)
Lemma keeps_bound_identification_t3470_handler args :
  keeps counters_bounded (_identification_t3470_handler args).
Proof.
  intros w Hcb. destruct args as [ctx|]; [|exact Hcb].
  destruct (emm_contexts w !! ctx) as [c|] eqn:Hc.
  2:{ unfold _identification_t3470_handler, get_nas_common_procedure_identification,
        bind, load_ctx. now rewrite Hc. }
  destruct (ident_proc_of w ctx) as [q|] eqn:Hq.
  2:{ now rewrite (identification_t3470_handler_no_procedure _ _ _ Hc Hq). }
  destruct (ident_proc_of_is_ident _ _ _ Hq) as [p Hp].
  rewrite (identification_t3470_handler_prefix _ _ _ _ _ Hc Hq Hp). cbv zeta.
  destruct (uint_incr (retransmission_count p) <? IDENTIFICATION_COUNTER_MAX) eqn:E.
  - apply Z.ltb_lt in E.
    apply (keeps_bind counters_bounded (_identification_request q) (fun _ => ret tt)).
    + apply keeps_bound_identification_request.
    + intros _. apply keeps_ret.
    + apply counters_bounded_insert_ident; [|exact Hcb]. simpl.
      pose proof (uint_incr_range (retransmission_count p)). lia.
  - rewrite (identification_abort_on_timeout_Fatal _ _ c)
      by (try exact Hc; now apply ident_proc_of_elem with (w := w) (ctx := ctx)).
    simpl.
    intros y py Hy. simpl in Hy.
    destruct (decide (y = q)) as [->|Hne].
    + rewrite lookup_foldr_delete_elem in Hy; [discriminate|].
      now apply ident_proc_of_elem with (w := w) (ctx := ctx).
    + apply lookup_foldr_delete_Some in Hy.
      rewrite lookup_insert_ne in Hy by (apply not_eq_sym; exact Hne).
      now apply (Hcb y).
Qed.

End CounterBound.

(** X18. With a configured maximum of at least 1: if the retransmission
    counter of every live Identification procedure is at least 0 and below
    the maximum, then it is so again after each function of the file, in
    every world and however the function ends.  The timeout that reaches the
    maximum releases the procedure, so no live procedure ever holds a
    counter at the maximum. *)
Theorem identification_counter_stays_below_maximum
    (Hmax : 1 <= IDENTIFICATION_COUNTER_MAX)
    (w : World) (Hcb : counters_bounded w)
    (emm_context emm_proc : option ptr) (type : identity_type2_t)
    (success failure : option callback_t)
    (ue : mme_ue_s1ap_id_t) (imsi : option imsi_t) (imei : option imei_t)
    (imeisv : option imeisv_t) (tmsi : option Z) :
  counters_bounded (world_of (emm_proc_identification emm_context emm_proc type
                                success failure w)) /\
  counters_bounded (world_of (emm_proc_identification_complete ue imsi imei imeisv
                                tmsi w)) /\
  counters_bounded (world_of (_identification_t3470_handler emm_context w)) /\
  counters_bounded (world_of (_identification_non_delivered_ho emm_context emm_proc w)) /\
  counters_bounded (world_of (_identification_ll_failure emm_context emm_proc w)) /\
  counters_bounded (world_of (_identification_abort emm_context emm_proc w)).
Proof.
  split; [|split; [|split; [|split; [|split]]]].
  - now apply keeps_bound_emm_proc_identification.
  - now apply keeps_bound_emm_proc_identification_complete.
  - now apply keeps_bound_identification_t3470_handler.
  - now apply keeps_bound_identification_non_delivered_ho.
  - now apply keeps_bound_identification_ll_failure.
  - now apply keeps_bound_identification_abort.
Qed.

(** ** From the start to the response *)

Lemma keeps_store_timeouts d mm n args :
  keeps (fun w => _emm_data w = d /\ mme_ue_contexts w = mm) (timeouts n args).
Proof.
  induction n as [|n IH]; simpl; [apply keeps_ret|].
  apply keeps_bind; [apply keeps_store_identification_t3470_handler|intros _; exact IH].
Qed.

(** X19. With an access stratum that accepts the requests: a start in a
    permitted state for a context of the store, then [n] timeouts with [n]
    below the maximum, then a response with an IMSI that neither the IMSI
    index nor the MME_APP index holds.  The calls are, in this order, the
    request, the start of T3470 and EMMREG_COMMON_PROC_REQ; [n] times the
    request and the start of T3470; the stop of T3470 and one
    EMMREG_COMMON_PROC_CNF with notify = true.  Afterwards the context holds
    the IMSI, the lookup by the IMSI returns the context, and an expiry of
    T3470 runs no handler. *)
Theorem identification_start_timeouts_response
    (Hsend : forall h m, primitive m = EMMAS_SECURITY_REQ ->
                         emm_sap_send_rc h m <> RETURNerror)
    (w : World) (ctx : ptr) (c : emm_data_context_t) (emm_proc : option ptr)
    (type : identity_type2_t) (success failure : option callback_t)
    (i : imsi_t) (n : nat)
    (Hc : emm_contexts w !! ctx = Some c)
    (Hperm : common_procedure_permitted (_emm_fsm_state c) = true)
    (Hs : ctx_coll_ue_id (_emm_data w) !! ue_id c = Some ctx)
    (Hn : Z.of_nat n < IDENTIFICATION_COUNTER_MAX)
    (Hemm : ctx_coll_imsi (_emm_data w) !! imsi_to_imsi64 i = None)
    (Hmme : mme_ue_contexts w !! imsi_to_imsi64 i = None) :
  exists rc0 w0 wn rc wend q msg prev c',
    emm_proc_identification (Some ctx) emm_proc type success failure w = Ret rc0 w0 /\
    timeouts n (Some ctx) w0 = Ret tt wn /\
    emm_proc_identification_complete (ue_id c) (Some i) None None None wn = Ret rc wend /\
    trace wend =
      trace w ++
      [Ev_emm_sap_send msg; Ev_nas_start_T3470 (ue_id c) q;
       Ev_emm_sap_send (common_proc_req_sap (ue_id c) ctx)] ++
      concat (replicate n [Ev_emm_sap_send msg; Ev_nas_start_T3470 (ue_id c) q]) ++
      [Ev_nas_stop_T3470 (ue_id c) q;
       Ev_emm_sap_send (common_proc_cnf_sap (ue_id c) ctx q true prev)] /\
    primitive msg = EMMAS_SECURITY_REQ /\
    emm_contexts wend !! ctx = Some (set_imsi c' i (imsi_to_imsi64 i)) /\
    emm_data_context_get_by_imsi (imsi_to_imsi64 i) wend = Ret (Some ctx) wend /\
    T3470_expiry q wend = Ret tt wend.
Proof.
  destruct (emm_proc_identification_sent w ctx c emm_proc type success failure
              Hsend Hc Hperm Hs) as (rc0 & w0 & q & msg & E0 & A0 & Hmsg & T0).
  destruct (timeouts_retry_from_0 Hsend n w0 ctx q (ue_id c) msg A0 Hn)
    as (wn & En & An & Tn).
  assert (F0 : _emm_data w0 = _emm_data w /\ mme_ue_contexts w0 = mme_ue_contexts w).
  { pose proof (keeps_store_emm_proc_identification (_emm_data w) (mme_ue_contexts w)
                  (Some ctx) emm_proc type success failure w (conj eq_refl eq_refl)) as H.
    now rewrite E0 in H. }
  assert (Fn : _emm_data wn = _emm_data w /\ mme_ue_contexts wn = mme_ue_contexts w).
  { pose proof (keeps_store_timeouts (_emm_data w) (mme_ue_contexts w) n (Some ctx)
                  w0 F0) as H.
    now rewrite En in H. }
  destruct Fn as [Fd Fm].
  destruct An as (c' & p' & Hc' & Hq' & Hp' & Hue' & Hs' & _ & _ & _).
  exists rc0, w0, wn. eexists. eexists. exists q, msg, (previous_emm_fsm_state p'), c'.
  split; [exact E0|]. split; [exact En|].
  rewrite (emm_proc_identification_complete_found _ _ _ _ _ _ _ _ _ _ Hs' Hc' Hq' Hp').
  unfold complete_after_stop, complete_update_identity.
  erewrite bind_Ret.
  2:{ apply complete_imsi_no_conflict with (c := c'); simpl.
      - exact Hc'.
      - intros dp Hdp. rewrite Fd, Hemm in Hdp. discriminate.
      - intros uc Huc. rewrite Fm, Hmme in Huc. discriminate. }
  cbv beta iota.
  erewrite common_proc_cnf_Ret by (simpl; apply lookup_insert_eq).
  split; [reflexivity|]. simpl.
  split; [rewrite Tn, T0, <- !app_assoc; reflexivity|].
  split; [exact Hmsg|]. split; [apply lookup_insert_eq|]. split.
  - unfold emm_data_context_get_by_imsi. simpl. now rewrite lookup_insert_eq.
  - apply T3470_expiry_disarmed. eexists. simpl.
    split; [apply lookup_insert_eq|reflexivity].
Qed.

End Identification.


(** ** The theorems at the small configuration *)

Lemma ex_rc_accepts h m :
  primitive m = EMMAS_SECURITY_REQ -> ex_rc h m <> RETURNerror.
Proof. intros _ H. discriminate H. Qed.

Lemma ex_world_awaiting_awaits k :
  awaiting_response (ex_world_awaiting k) 1%positive 1%positive 7 k
    (identity_request_sap (ex_proc k) ex_ctx_awaiting).
Proof.
  exists ex_ctx_awaiting, (ex_proc k).
  repeat split; try reflexivity. discriminate.
Qed.

Lemma identification_t3470_retransmits_then_aborts_witness :
  1 <= 5 <= UINT_MAX /\
  exists rc w0 q msg,
    emm_proc_identification ex_rc (Some 1%positive) None IDENTITY_TYPE_2_IMSI None None
      ex_world = Ret rc w0 /\
    awaiting_response w0 1%positive q 7 0 msg /\
    (exists w4, timeouts 5 ex_rc 4 (Some 1%positive) w0 = Ret tt w4 /\
                awaiting_response w4 1%positive q 7 4 msg) /\
    ident_proc_of (world_of (timeouts 5 ex_rc 5 (Some 1%positive) w0)) 1%positive = None.
Proof.
  assert (Hmax : 1 <= 5 <= UINT_MAX) by (unfold UINT_MAX; lia).
  split; [exact Hmax|].
  destruct (identification_t3470_retransmits_then_aborts 5 ex_rc Hmax) as [_ H].
  destruct (H ex_rc_accepts ex_world 1%positive ex_ctx None IDENTITY_TYPE_2_IMSI None None
              eq_refl eq_refl eq_refl)
    as (rc & w0 & q & msg & E & A & Hn & Im & _).
  exists rc, w0, q, msg. split; [exact E|]. split; [exact A|]. split.
  - destruct (Hn 4%nat ltac:(simpl; lia)) as (w4 & E4 & A4 & _).
    exists w4. split; [exact E4|exact A4].
  - exact Im.
Defined.

(** With an access stratum that refuses the request, a timeout that leaves
    the counter below the maximum delivers the request and does not start
    T3470 again. *)
Lemma identification_t3470_retransmits_then_aborts_counterexample :
  awaiting_response (ex_world_awaiting 0) 1%positive 1%positive 7 0
    (identity_request_sap (ex_proc 0) ex_ctx_awaiting) /\
  0 + 1 < 5 /\
  exists w' p',
    _identification_t3470_handler 5 ex_rc_refuse (Some 1%positive) (ex_world_awaiting 0) =
      Ret tt w' /\
    procs w' !! 1%positive = Some (IdentProc p') /\
    retransmission_count p' = 1 /\
    nas_timer_id (T3470 p') = NAS_TIMER_INACTIVE_ID /\
    new_events (ex_world_awaiting 0)
      (_identification_t3470_handler 5 ex_rc_refuse (Some 1%positive) (ex_world_awaiting 0)) =
      [Ev_emm_sap_send (identity_request_sap (ex_proc 0) ex_ctx_awaiting)].
Proof.
  split; [apply ex_world_awaiting_awaits|]. split; [lia|].
  exists (world_of (_identification_t3470_handler 5 ex_rc_refuse (Some 1%positive)
                      (ex_world_awaiting 0))),
         (set_retransmission_count
            (set_T3470 (ex_proc 0) (set_timer_id (T3470 (ex_proc 0)) NAS_TIMER_INACTIVE_ID))
            1).
  repeat split; vm_compute; reflexivity.
Qed.

Lemma identification_complete_imsi_held_by_other_context_witness :
  emm_proc_identification ex_rc (Some 1%positive) None IDENTITY_TYPE_2_IMSI None None
    ex_world_two = Ret RETURNok ex_world_started /\
  ue_id ex_ctx_other <> ue_id ex_ctx_started /\
  returned (emm_proc_identification_complete ex_rc ex_imsi_to_imsi64 7 (Some [1; 2; 3])
              None None None ex_world_started) = None /\
  new_events ex_world_started
    (emm_proc_identification_complete ex_rc ex_imsi_to_imsi64 7 (Some [1; 2; 3])
       None None None ex_world_started) = [Ev_nas_stop_T3470 7 1%positive] /\
  emm_contexts
    (world_of (emm_proc_identification_complete ex_rc ex_imsi_to_imsi64 7 (Some [1; 2; 3])
                 None None None ex_world_started)) !! 3%positive = Some ex_ctx_other.
Proof.
  split; [vm_compute; reflexivity|]. split; [discriminate|].
  destruct (identification_complete_imsi_held_by_other_context ex_rc ex_imsi_to_imsi64
              ex_world_started 7 1%positive 1%positive 3%positive
              ex_ctx_started ex_ctx_other ex_proc_started [1; 2; 3] None None None
              eq_refl eq_refl eq_refl eq_refl eq_refl eq_refl ltac:(discriminate))
    as (E & N & D).
  split; [exact (f_equal returned E)|]. split; [exact N|exact D].
Defined.

Lemma identification_t3470_abort_at_maximum_witness :
  0 <= retransmission_count (ex_proc 4) < UINT_MAX /\
  5 <= retransmission_count (ex_proc 4) + 1 /\
  exists w',
    _identification_t3470_handler 5 ex_rc (Some 1%positive) (ex_world_awaiting 4) = Fatal w' /\
    new_events (ex_world_awaiting 4)
      (_identification_t3470_handler 5 ex_rc (Some 1%positive) (ex_world_awaiting 4)) =
      [Ev_emm_sap_send (common_proc_abort_sap 7 1%positive 1%positive EMM_DEREGISTERED)] /\
    ident_proc_of w' 1%positive = None.
Proof.
  assert (Hr : 0 <= retransmission_count (ex_proc 4) < UINT_MAX)
    by (unfold UINT_MAX; simpl; lia).
  split; [exact Hr|]. split; [simpl; lia|].
  destruct (identification_t3470_abort_at_maximum 5 ex_rc (ex_world_awaiting 4)
              1%positive 1%positive ex_ctx_awaiting (ex_proc 4)
              eq_refl eq_refl eq_refl Hr ltac:(simpl; lia))
    as (w' & E & N & _ & _ & Hi & _).
  exists w'. split; [exact E|]. split; [exact N|exact Hi].
Defined.

Lemma identification_complete_stops_T3470_first_witness :
  ident_proc_of (ex_world_awaiting 0) 1%positive = Some 1%positive /\
  emm_proc_identification_complete_with ex_rc ex_imsi_to_imsi64 (fun _ _ => fatal)
    7 None (Some [4; 5]) None None (ex_world_awaiting 0) = Fatal (ex_world_awaiting 0) /\
  exists l,
    new_events (ex_world_awaiting 0)
      (emm_proc_identification_complete ex_rc ex_imsi_to_imsi64 7 None (Some [4; 5])
         None None (ex_world_awaiting 0)) =
    Ev_nas_stop_T3470 7 1%positive :: l.
Proof.
  split; [reflexivity|].
  destruct (identification_complete_stops_T3470_first 5 ex_rc ex_imsi_to_imsi64
              (ex_world_awaiting 0) 7 1%positive 1%positive ex_ctx_awaiting (ex_proc 0)
              None (Some [4; 5]) None None eq_refl eq_refl eq_refl eq_refl)
    as (Hwith & _ & Hfirst & _).
  split; [exact (Hwith (fun _ _ => fatal))|exact Hfirst].
Defined.

Lemma identification_complete_imsi_no_conflict_witness :
  ctx_coll_imsi (_emm_data (ex_world_awaiting 0)) !! ex_imsi_to_imsi64 [4; 5; 6] = None /\
  exists w',
    returned (emm_proc_identification_complete ex_rc ex_imsi_to_imsi64 7 (Some [4; 5; 6])
                None None None (ex_world_awaiting 0)) = Some RETURNok /\
    emm_data_context_get_by_imsi (ex_imsi_to_imsi64 [4; 5; 6]) w' = Ret (Some 1%positive) w'.
Proof.
  split; [reflexivity|].
  destruct (identification_complete_imsi_no_conflict ex_rc ex_imsi_to_imsi64
              (ex_world_awaiting 0) 7 1%positive 1%positive ex_ctx_awaiting (ex_proc 0)
              [4; 5; 6] None None None eq_refl eq_refl eq_refl eq_refl
              ltac:(intros dp H; discriminate H) ltac:(intros uc H; discriminate H))
    as (w' & E & _ & Hl & _).
  exists w'. split; [exact (f_equal returned E)|exact Hl].
Defined.

Lemma emm_proc_identification_state_gate_witness :
  emm_contexts ex_world !! 1%positive = Some ex_ctx /\
  exists msg q,
    new_events ex_world
      (emm_proc_identification ex_rc (Some 1%positive) None IDENTITY_TYPE_2_IMSI None None
         ex_world) =
    [Ev_emm_sap_send msg; Ev_nas_start_T3470 7 q;
     Ev_emm_sap_send (common_proc_req_sap 7 1%positive)].
Proof.
  split; [reflexivity|].
  destruct (proj2 (emm_proc_identification_state_gate ex_rc ex_world 1%positive ex_ctx None
                     IDENTITY_TYPE_2_IMSI None None eq_refl) (or_introl eq_refl))
    as [(msg & q & _ & _ & Hn & _) | ([Hn | (msg & _ & Hn)] & _)].
  - exists msg, q. exact Hn.
  - discriminate Hn.
  - discriminate Hn.
Defined.

Lemma identification_complete_stale_is_noop_witness :
  ctx_coll_ue_id (_emm_data ex_world) !! 42 = None /\
  emm_proc_identification_complete ex_rc ex_imsi_to_imsi64 42 (Some [1; 2; 3])
    None None None ex_world = Ret RETURNerror ex_world.
Proof.
  split; [reflexivity|].
  exact (proj1 (identification_complete_stale_is_noop ex_rc ex_imsi_to_imsi64 ex_world 42
                  (Some [1; 2; 3]) None None None (or_introl eq_refl))).
Defined.

Lemma emm_proc_identification_twice_reuses_procedure_witness :
  (length (ident_instances ex_world 1%positive) <= 1)%nat /\
  exists q rc1 w1 rc2 w2,
    emm_proc_identification ex_rc (Some 1%positive) None IDENTITY_TYPE_2_IMSI None None
      ex_world = Ret rc1 w1 /\
    emm_proc_identification ex_rc (Some 1%positive) None IDENTITY_TYPE_2_IMEI None None
      w1 = Ret rc2 w2 /\
    ident_instances w1 1%positive = [q] /\
    ident_instances w2 1%positive = [q].
Proof.
  assert (Hone : (length (ident_instances ex_world 1%positive) <= 1)%nat)
    by (vm_compute; lia).
  split; [exact Hone|].
  destruct (emm_proc_identification_twice_reuses_procedure ex_rc ex_world 1%positive ex_ctx
              None None IDENTITY_TYPE_2_IMSI IDENTITY_TYPE_2_IMEI None None None None
              eq_refl eq_refl
              ltac:(intros cp H; injection H as <-; eexists; reflexivity)
              Hone
              ltac:(intros x H; destruct (not_elem_of_nil x H)))
    as (q & rc1 & w1 & rc2 & w2 & p1 & p2 & E1 & E2 & _ & _ & I1 & I2 & _).
  exists q, rc1, w1, rc2, w2. repeat split; assumption.
Defined.

Lemma identification_non_delivered_ho_resends_witness :
  procs (ex_world_awaiting 2) !! 1%positive = Some (IdentProc (ex_proc 2)) /\
  exists rc w' l p',
    _identification_non_delivered_ho ex_rc (Some 1%positive) (Some 1%positive)
      (ex_world_awaiting 2) = Ret rc w' /\
    trace w' = Ev_emm_sap_send (identity_request_sap (ex_proc 2) ex_ctx_awaiting) :: l /\
    procs w' !! 1%positive = Some (IdentProc p') /\
    retransmission_count p' = 2.
Proof.
  split; [reflexivity|].
  destruct (identification_non_delivered_ho_resends ex_rc (ex_world_awaiting 2)
              1%positive 1%positive 1%positive (ex_proc 2) ex_ctx_awaiting
              eq_refl eq_refl eq_refl)
    as (rc & w' & l & p' & E & T & _ & P & K & _).
  exists rc, w', l, p'. repeat split; assumption.
Defined.

Lemma identification_request_arms_only_after_send_witness :
  procs (ex_world_awaiting 0) !! 1%positive = Some (IdentProc (ex_proc 0)) /\
  arms_after_request ex_rc (_identification_t3470_handler 5 ex_rc (Some 1%positive)) /\
  exists w',
    _identification_request ex_rc 1%positive (ex_world_awaiting 0) = Ret RETURNok w' /\
    trace w' = [Ev_emm_sap_send (identity_request_sap (ex_proc 0) ex_ctx_awaiting);
                Ev_nas_start_T3470 7 1%positive].
Proof.
  split; [reflexivity|].
  destruct (identification_request_arms_only_after_send 5 ex_rc (ex_world_awaiting 0)
              1%positive (ex_proc 0) eq_refl)
    as (_ & Hsent & _ & Hh & _).
  split; [apply Hh|].
  destruct (Hsent 1%positive ex_ctx_awaiting eq_refl eq_refl) as (w' & E & T & _).
  exists w'. split; assumption.
Defined.

Lemma identification_ll_failure_then_late_events_witness :
  1%positive ∈ emm_common_procs ex_ctx_awaiting /\
  exists w',
    _identification_ll_failure (Some 1%positive) (Some 1%positive) (ex_world_awaiting 0) =
      Ret RETURNerror w' /\
    T3470_expiry 5 ex_rc 1%positive w' = Ret tt w' /\
    emm_proc_identification_complete ex_rc ex_imsi_to_imsi64 7 (Some [4; 5; 6])
      None None None w' = Ret RETURNerror w'.
Proof.
  assert (Hq : 1%positive ∈ emm_common_procs ex_ctx_awaiting)
    by (apply list_elem_of_singleton; reflexivity).
  split; [exact Hq|].
  destruct (identification_ll_failure_then_late_events 5 ex_rc ex_imsi_to_imsi64
              (ex_world_awaiting 0) 1%positive 1%positive 1%positive ex_ctx_awaiting 7
              (Some [4; 5; 6]) None None None eq_refl Hq eq_refl)
    as (w' & E & X & _ & C).
  exists w'. repeat split; assumption.
Defined.

Lemma identification_abort_then_expiry_and_abort_witness :
  procs (ex_world_awaiting 0) !! 1%positive = Some (IdentProc (ex_proc 0)) /\
  exists w1 w2,
    _identification_abort (Some 1%positive) (Some 1%positive) (ex_world_awaiting 0) =
      Ret RETURNerror w1 /\
    T3470_expiry 5 ex_rc 1%positive w1 = Ret tt w1 /\
    _identification_abort (Some 1%positive) (Some 1%positive) w1 = Ret RETURNerror w2 /\
    procs w2 = procs w1.
Proof.
  split; [reflexivity|].
  destruct (identification_abort_then_expiry_and_abort 5 ex_rc (ex_world_awaiting 0)
              1%positive 1%positive (ex_proc 0) eq_refl)
    as (w1 & w2 & E1 & X & E2 & P & _).
  exists w1, w2. repeat split; assumption.
Defined.

Lemma identification_t3470_handler_stale_is_noop_witness :
  ident_proc_of ex_world 1%positive = None /\
  _identification_t3470_handler 5 ex_rc (Some 1%positive) ex_world = Ret tt ex_world /\
  _identification_t3470_handler 5 ex_rc None ex_world = Ret tt ex_world.
Proof.
  split; [reflexivity|]. split.
  - apply (identification_t3470_handler_stale_is_noop 5 ex_rc ex_world (Some 1%positive)).
    right. exists 1%positive, ex_ctx. repeat split; reflexivity.
  - exact (identification_t3470_handler_stale_is_noop 5 ex_rc ex_world None (or_introl eq_refl)).
Defined.

Lemma identification_complete_imsi_held_by_mme_app_context_witness :
  mme_ue_contexts ex_world_mme_app !! ex_imsi_to_imsi64 [4; 5; 6] = Some (mk_ue_context 9) /\
  exists w',
    emm_proc_identification_complete ex_rc ex_imsi_to_imsi64 7 (Some [4; 5; 6])
      None None None ex_world_mme_app = Ret RETURNok w' /\
    emm_contexts w' = emm_contexts ex_world_mme_app /\
    _emm_data w' = _emm_data ex_world_mme_app.
Proof.
  split; [reflexivity|].
  destruct (identification_complete_imsi_held_by_mme_app_context ex_rc ex_imsi_to_imsi64
              ex_world_mme_app 7 1%positive 1%positive 2%positive ex_ctx_awaiting
              (ex_proc 0) ex_parent (mk_ue_context 9) [4; 5; 6] None None None
              eq_refl eq_refl eq_refl eq_refl
              ltac:(intros dp H; discriminate H) eq_refl
              ltac:(discriminate) eq_refl eq_refl)
    as (w' & E & _ & _ & Hc & Hd & _).
  exists w'. repeat split; assumption.
Defined.

Lemma identification_complete_records_imei_or_imeisv_witness :
  ident_proc_of (ex_world_awaiting 0) 1%positive = Some 1%positive /\
  exists w',
    emm_proc_identification_complete ex_rc ex_imsi_to_imsi64 7 None (Some [4; 5])
      None None (ex_world_awaiting 0) = Ret RETURNok w' /\
    emm_contexts w' = <[1%positive := set_imei ex_ctx_awaiting [4; 5]]>
                        (emm_contexts (ex_world_awaiting 0)).
Proof.
  split; [reflexivity|].
  destruct (proj1 (identification_complete_records_imei_or_imeisv ex_rc ex_imsi_to_imsi64
                     (ex_world_awaiting 0) 7 1%positive 1%positive ex_ctx_awaiting
                     (ex_proc 0) eq_refl eq_refl eq_refl eq_refl) [4; 5] None None)
    as (w' & E & Hc & _).
  exists w'. split; assumption.
Defined.

Lemma identification_complete_without_identity_witness :
  ctx_coll_ue_id (_emm_data (ex_world_awaiting 0)) !! 7 = Some 1%positive /\
  exists w',
    emm_proc_identification_complete ex_rc ex_imsi_to_imsi64 7 None None None None
      (ex_world_awaiting 0) = Ret RETURNok w' /\
    emm_contexts w' = emm_contexts (ex_world_awaiting 0) /\
    T3470_disarmed 1%positive w'.
Proof.
  split; [reflexivity|].
  destruct (identification_complete_without_identity ex_rc ex_imsi_to_imsi64
              (ex_world_awaiting 0) 7 1%positive 1%positive ex_ctx_awaiting
              (ex_proc 0) eq_refl eq_refl eq_refl eq_refl)
    as (w' & E & Hc & _ & Hd & _).
  exists w'. repeat split; assumption.
Defined.

Lemma identification_complete_tmsi_alone_is_fatal_witness :
  procs (ex_world_awaiting 0) !! 1%positive = Some (IdentProc (ex_proc 0)) /\
  returned (emm_proc_identification_complete ex_rc ex_imsi_to_imsi64 7 None None None
              (Some 17) (ex_world_awaiting 0)) = None.
Proof.
  split; [reflexivity|].
  exact (f_equal returned
           (proj1 (identification_complete_tmsi_alone_is_fatal ex_rc ex_imsi_to_imsi64
                     (ex_world_awaiting 0) 7 1%positive 1%positive ex_ctx_awaiting
                     (ex_proc 0) 17 eq_refl eq_refl eq_refl eq_refl))).
Defined.

Lemma identification_t3470_handler_resend_fails_witness :
  uint_incr (retransmission_count (ex_proc 0)) < 5 /\
  ctx_coll_ue_id (_emm_data (ex_world_unstored 0)) !! ident_ue_id (ex_proc 0) = None /\
  exists w',
    _identification_t3470_handler 5 ex_rc (Some 1%positive) (ex_world_unstored 0) =
      Ret tt w' /\
    ident_proc_of w' 1%positive = Some 1%positive /\
    T3470_disarmed 1%positive w'.
Proof.
  split; [reflexivity|]. split; [reflexivity|].
  destruct (identification_t3470_handler_resend_fails 5 ex_rc (ex_world_unstored 0)
              1%positive 1%positive ex_ctx_awaiting (ex_proc 0)
              eq_refl eq_refl eq_refl eq_refl (or_introl eq_refl))
    as (w' & E & _ & _ & Hi & Hd & _).
  exists w'. repeat split; assumption.
Defined.

Lemma emm_proc_identification_unknown_context_sets_up_witness :
  ctx_coll_ue_id (_emm_data (ex_world_unstored 0)) !! ue_id ex_ctx_awaiting = None /\
  exists w' q,
    emm_proc_identification ex_rc (Some 1%positive) None IDENTITY_TYPE_2_IMEI None None
      (ex_world_unstored 0) = Ret RETURNerror w' /\
    trace w' = [] /\
    ident_proc_of w' 1%positive = Some q.
Proof.
  split; [reflexivity|].
  destruct (emm_proc_identification_unknown_context_sets_up ex_rc (ex_world_unstored 0)
              1%positive ex_ctx_awaiting None IDENTITY_TYPE_2_IMEI None None
              eq_refl eq_refl eq_refl)
    as (w' & q & p0 & E & T & I & _).
  exists w', q. repeat split; assumption.
Defined.

Lemma identification_handover_resends_keep_the_retry_budget_witness :
  0 <= 2 /\ 2 + Z.of_nat 2 + 1 = 5 /\ 5 <= UINT_MAX /\
  exists w1 w2,
    handover_resends ex_rc 3 1%positive 1%positive (ex_world_awaiting 2) = Ret tt w1 /\
    timeouts 5 ex_rc 3 (Some 1%positive) w1 = Fatal w2 /\
    ident_proc_of w2 1%positive = None.
Proof.
  assert (Hle : 5 <= UINT_MAX) by (unfold UINT_MAX; lia).
  split; [lia|]. split; [reflexivity|]. split; [exact Hle|].
  destruct (identification_handover_resends_keep_the_retry_budget 5 ex_rc ex_rc_accepts
              (ex_world_awaiting 2) 1%positive 1%positive 7 2 _ 3%nat 2%nat
              (ex_world_awaiting_awaits 2) ltac:(lia) eq_refl Hle)
    as (w1 & w2 & prev & E1 & _ & _ & E2 & I & _).
  exists w1, w2. repeat split; assumption.
Defined.

Lemma ex_world_counters_bounded : counters_bounded 5 ex_world.
Proof. intros q p H. discriminate H. Qed.

Lemma identification_counter_stays_below_maximum_witness :
  1 <= 5 /\
  counters_bounded 5
    (world_of (emm_proc_identification ex_rc (Some 1%positive) None IDENTITY_TYPE_2_IMSI
                 None None ex_world)).
Proof.
  split; [lia|].
  exact (proj1 (identification_counter_stays_below_maximum 5 ex_rc ex_imsi_to_imsi64
                  ltac:(lia) ex_world ex_world_counters_bounded (Some 1%positive) None
                  IDENTITY_TYPE_2_IMSI None None 7 None None None None)).
Defined.

Lemma identification_start_timeouts_response_witness :
  Z.of_nat 3 < 5 /\
  exists rc0 w0 wn rc wend,
    emm_proc_identification ex_rc (Some 1%positive) None IDENTITY_TYPE_2_IMSI None None
      ex_world = Ret rc0 w0 /\
    timeouts 5 ex_rc 3 (Some 1%positive) w0 = Ret tt wn /\
    emm_proc_identification_complete ex_rc ex_imsi_to_imsi64 7 (Some [4; 5; 6])
      None None None wn = Ret rc wend.
Proof.
  split; [simpl; lia|].
  destruct (identification_start_timeouts_response 5 ex_rc ex_imsi_to_imsi64 ex_rc_accepts
              ex_world 1%positive ex_ctx None IDENTITY_TYPE_2_IMSI None None [4; 5; 6] 3%nat
              eq_refl eq_refl eq_refl ltac:(simpl; lia) eq_refl eq_refl)
    as (rc0 & w0 & wn & rc & wend & q & msg & prev & c' & E0 & En & Ec & _).
  exists rc0, w0, wn, rc, wend. repeat split; assumption.
Defined.
